(** * Sentiment analysis of college reviews: cleaner, analyzer, summarizer

    A shallow embedding of [cleaner.py], [analyzer.py] and [summarizer.py],
    followed by the properties of the aspect-sentiment pipeline.

    Conventions of the embedding.
    - A Python [str] is a list of code points; the code points modelled are
      those of the Latin-1 range (0..255), held in [ascii].  The character
      classes ([str.isspace], the regex classes [\s], [\S], [\w], and
      [str.lower]) follow CPython's tables on that range.
    - A Python float is idealised as a rational ([Q]).  A missing score is
      [None] where Python holds [None] in a dict, and a cell of a frame is
      [CNull] for NaN and [CNone] for [None].
    - [re.sub] is a left-to-right scan with one matcher per pattern: the
      matcher says, at a position, whether the pattern matches there, how
      many characters the match spans and what replaces it. *)

From Stdlib Require Import List Ascii String ZArith NArith QArith Bool Lia.
From Stdlib Require Import Permutation Sorted.
Import ListNotations.

Set Implicit Arguments.
Close Scope Q_scope.
Open Scope nat_scope.

(* ================================================================== *)
(** ** Python strings *)

Module PyStr.

Definition str := list ascii.

(** String literals of the source. *)
Definition lit (s : string) : str := list_ascii_of_string s.

Definition code (c : ascii) : N := N_of_ascii c.

Definition in_range (lo hi : N) (c : ascii) : bool :=
  ((lo <=? code c) && (code c <=? hi))%N.

Definition is_code (n : N) (c : ascii) : bool := (code c =? n)%N.

(** [str.isspace] on one code point, which is also the regex class [\s]:
    TAB..CR, FS..US, space, NEL and NBSP. *)
Definition isspace (c : ascii) : bool :=
  in_range 9 13 c || in_range 28 31 c || is_code 32 c
  || is_code 133 c || is_code 160 c.

(** The regex class [\S]. *)
Definition nonspace (c : ascii) : bool := negb (isspace c).

(** The regex class [a-z]. *)
Definition is_az (c : ascii) : bool := in_range 97 122 c.

(** The regex class [\w]: alphanumeric code points and the underscore. *)
Definition isword (c : ascii) : bool :=
  in_range 48 57 c || in_range 65 90 c || is_code 95 c || in_range 97 122 c
  || is_code 170 c || in_range 178 179 c || is_code 181 c
  || in_range 185 186 c || in_range 188 190 c
  || in_range 192 214 c || in_range 216 246 c || in_range 248 255 c.

(** [str.lower] on one code point: A..Z and the Latin-1 capitals. *)
Definition lower_char (c : ascii) : ascii :=
  if in_range 65 90 c || in_range 192 214 c || in_range 216 222 c
  then ascii_of_N (code c + 32) else c.

Definition lower (s : str) : str := map lower_char s.

Definition newline : ascii := ascii_of_N 10.
Definition is_newline (c : ascii) : bool := is_code 10 c.

(** Regex [.] without DOTALL: anything but a line feed. *)
Definition dot (c : ascii) : bool := negb (is_newline c).

Definition ascii_eqb (a b : ascii) : bool := Ascii.eqb a b.

Fixpoint str_eqb (a b : str) : bool :=
  match a, b with
  | [], [] => true
  | x :: a', y :: b' => ascii_eqb x y && str_eqb a' b'
  | _, _ => false
  end.

(** [s.startswith(p)]. *)
Fixpoint starts_with (p s : str) : bool :=
  match p, s with
  | [], _ => true
  | x :: p', y :: s' => ascii_eqb x y && starts_with p' s'
  | _ :: _, [] => false
  end.

(** Length of the longest prefix of [s] whose characters satisfy [f]. *)
Fixpoint span (f : ascii -> bool) (s : str) : nat :=
  match s with
  | c :: r => if f c then S (span f r) else 0
  | [] => 0
  end.

(** [s.split()]: the maximal runs of non-whitespace, in order.  [w] is the
    run being read. *)
Fixpoint split_acc (w : str) (s : str) : list str :=
  match s with
  | [] => match w with [] => [] | _ => [w] end
  | c :: r =>
      if isspace c
      then match w with [] => split_acc [] r | _ => w :: split_acc [] r end
      else split_acc (w ++ [c]) r
  end.

Definition split (s : str) : list str := split_acc [] s.

(** [sep.join(ws)]. *)
Fixpoint join (sep : str) (ws : list str) : str :=
  match ws with
  | [] => []
  | [w] => w
  | w :: ws' => w ++ sep ++ join sep ws'
  end.

(** [s.strip()]: leading and trailing whitespace removed. *)
Fixpoint lstrip (s : str) : str :=
  match s with
  | c :: r => if isspace c then lstrip r else s
  | [] => []
  end.

Definition strip (s : str) : str := rev (lstrip (rev (lstrip s))).

(** [s[:n]]. *)
Definition take (n : nat) (s : str) : str := firstn n s.

End PyStr.
Import PyStr.

(* ================================================================== *)
(** ** Python values and exceptions *)

(** The objects a caller may pass where text is expected. *)
Inductive pyobj : Type :=
| PyStr (s : str)
| PyNone
| PyFloat (q : Q)
| PyInt (z : Z).

(** An instance of (a subclass of) [Exception]: its class name and message.
    That is the class [except Exception] catches. *)
Record exn : Type := Exn { exn_class : str; exn_msg : str }.

Inductive outcome (A : Type) : Type :=
| Return (a : A)
| Raise (e : exn).
Arguments Return {A} a.
Arguments Raise {A} e.

(* ================================================================== *)
(** ** Regular-expression substitution *)

Module Re.

(** A matcher answers, for the text that starts at the current position and
    the character just before it ([None] at the start of the text), whether
    the pattern matches there; if so it gives the replacement text and the
    number of characters matched.  Every pattern of the source matches at
    least one character. *)
Definition matcher := option ascii -> str -> option (str * nat).

(** [re.sub]: at each position, leftmost first, the match (if any) is
    replaced and the scan resumes after it; [skip] counts the characters of
    the current match still to be passed over. *)
Fixpoint sub_from (m : matcher) (skip : nat) (prev : option ascii) (s : str)
  : str :=
  match s with
  | [] => []
  | c :: r =>
      match skip with
      | S k => sub_from m k (Some c) r
      | O =>
          match m prev s with
          | Some (repl, n) => repl ++ sub_from m (pred n) (Some c) r
          | None => c :: sub_from m 0 (Some c) r
          end
      end
  end.

Definition sub (m : matcher) (s : str) : str := sub_from m 0 None s.

(** Alternation [p|q]: the left alternative is tried first. *)
Definition orelse {A} (x y : option A) : option A :=
  match x with Some _ => x | None => y end.

(** A literal followed by [cls+] (greedy, nothing after it): the literal,
    then the longest non-empty run of [cls]. *)
Definition lit_plus (l : str) (cls : ascii -> bool) (s : str) : option nat :=
  if starts_with l s
  then match span cls (skipn (List.length l) s) with
       | O => None
       | S k => Some (List.length l + S k)
       end
  else None.

Definition removed (x : option nat) : option (str * nat) :=
  option_map (fun n => ([], n)) x.

(** A one-character class, replaced by nothing. *)
Definition one_of (cls : ascii -> bool) : matcher :=
  fun _ s => match s with
             | c :: _ => if cls c then Some ([], 1) else None
             | [] => None
             end.

(** [^] under MULTILINE: start of the text or just after a line feed. *)
Definition at_line_start (prev : option ascii) : bool :=
  match prev with None => true | Some c => is_newline c end.

(** [\b] between [prev] and [next]: exactly one side is a word character. *)
Definition is_word_opt (c : option ascii) : bool :=
  match c with Some x => isword x | None => false end.

Definition word_boundary (prev next : option ascii) : bool :=
  xorb (is_word_opt prev) (is_word_opt next).

End Re.

(* ================================================================== *)
(** ** cleaner.py *)

Module Cleaner.
Import Re.

(** [r'http\S+|www\S+|https\S+'] *)
Definition url_at (s : str) : option nat :=
  orelse (lit_plus (lit "http") nonspace s)
    (orelse (lit_plus (lit "www") nonspace s)
            (lit_plus (lit "https") nonspace s)).

Definition m_url : matcher := fun _ s => removed (url_at s).

(** [r'/?u/\w+|/?r/\w+']: the optional slash is tried present first. *)
Definition mention_at (s : str) : option nat :=
  orelse (orelse (lit_plus (lit "/u/") isword s) (lit_plus (lit "u/") isword s))
         (orelse (lit_plus (lit "/r/") isword s) (lit_plus (lit "r/") isword s)).

Definition m_mention : matcher := fun _ s => removed (mention_at s).

(** [r'[*_`~]'] *)
Definition is_markdown (c : ascii) : bool :=
  is_code 42 c || is_code 95 c || is_code 96 c || is_code 126 c.

Definition m_markdown : matcher := one_of is_markdown.

(** The tail [.*?\)] of the link pattern: the fewest characters of a line up
    to a closing parenthesis; the number of characters consumed. *)
Fixpoint find_close (s : str) : option nat :=
  match s with
  | [] => None
  | c :: r =>
      if is_code 41 c then Some 1
      else if is_newline c then None
      else option_map S (find_close r)
  end.

(** [(.*?)\]\(.*?\)] after the opening bracket: the group grows one
    character at a time until the rest of the pattern matches.  Returns the
    group and the number of characters consumed. *)
Fixpoint link_body (s : str) : option (str * nat) :=
  match s with
  | [] => None
  | c :: r =>
      let here :=
        if is_code 93 c
        then match r with
             | d :: r' =>
                 if is_code 40 d
                 then option_map (fun j => ([], 2 + j)) (find_close r')
                 else None
             | [] => None
             end
        else None in
      match here with
      | Some x => Some x
      | None =>
          if is_newline c then None
          else match link_body r with
               | Some (g, n) => Some (c :: g, S n)
               | None => None
               end
      end
  end.

(** [r'\[(.*?)\]\(.*?\)'] replaced by [r'\1']. *)
Definition m_link : matcher :=
  fun _ s =>
    match s with
    | c :: r =>
        if is_code 91 c
        then match link_body r with
             | Some (g, n) => Some (g, S n)
             | None => None
             end
        else None
    | [] => None
    end.

(** [r'^>.*$'] with MULTILINE: a line that starts with [>], up to its end. *)
Definition m_quote : matcher :=
  fun prev s =>
    if at_line_start prev
    then match s with
         | c :: r => if is_code 62 c then Some ([], S (span dot r)) else None
         | [] => None
         end
    else None.

(** [r'&[a-z]+;'] *)
Definition m_entity : matcher :=
  fun _ s =>
    match s with
    | c :: r =>
        if is_code 38 c
        then match span is_az r with
             | O => None
             | S k =>
                 match skipn (S k) r with
                 | d :: _ => if is_code 59 d then Some ([], S k + 2) else None
                 | [] => None
                 end
             end
        else None
    | [] => None
    end.

(** The class [a-z\s.,?!'] of the characters that are kept. *)
Definition is_kept (c : ascii) : bool :=
  is_az c || isspace c || is_code 46 c || is_code 44 c || is_code 63 c
  || is_code 33 c || is_code 39 c.

(** [r'[^a-z\s.,?!\']'] *)
Definition m_special : matcher := one_of (fun c => negb (is_kept c)).

Definition clean_str (text : str) : str :=
  let text := lower text in
  let text := sub m_url text in
  let text := sub m_mention text in
  let text := sub m_markdown text in
  let text := sub m_link text in
  let text := sub m_quote text in
  let text := sub m_entity text in
  let text := sub m_special text in
  join (lit " ") (split text).

Definition clean_text (text : pyobj) : str :=
  match text with
  | PyStr s => clean_str s
  | _ => []
  end.

(** Whether the URL pattern matches somewhere in [s]. *)
Fixpoint contains_url (s : str) : bool :=
  match s with
  | [] => false
  | _ :: r =>
      match url_at s with Some _ => true | None => contains_url r end
  end.

End Cleaner.


(* ================================================================== *)
(** ** analyzer.py *)

Module Analyzer.
Import Re.

(** The keys of [ASPECT_KEYWORDS]. *)
Inductive Aspect : Type :=
| academics | placements | infrastructure | campus_life | fees.

Definition aspect_eqb (a b : Aspect) : bool :=
  match a, b with
  | academics, academics | placements, placements
  | infrastructure, infrastructure | campus_life, campus_life
  | fees, fees => true
  | _, _ => false
  end.

(** The keys in the order of the dict literal. *)
Definition aspects : list Aspect :=
  [academics; placements; infrastructure; campus_life; fees].

Definition aspect_name (a : Aspect) : str :=
  match a with
  | academics => lit "academics"
  | placements => lit "placements"
  | infrastructure => lit "infrastructure"
  | campus_life => lit "campus_life"
  | fees => lit "fees"
  end.

(** [ASPECT_KEYWORDS[a]] *)
Definition keywords (a : Aspect) : list str :=
  match a with
  | academics =>
      map lit ["academic"; "academics"; "course"; "courses"; "professor";
        "professors"; "prof"; "faculty"; "teacher"; "teaching";
        "curriculum"; "syllabus"; "study"; "studies"; "research"; "exam";
        "exams"; "grade"; "grades"; "gpa"; "lecture"; "lectures";
        "learning"; "knowledge"; "department"; "assignment"; "assignments";
        "rigor"; "challenging"; "difficult"; "education"; "degree"]%string
  | placements =>
      map lit ["placement"; "placements"; "job"; "jobs"; "career";
        "careers"; "intern"; "internship"; "internships"; "recruit";
        "recruiter"; "recruiters"; "recruitment"; "hiring"; "offer";
        "offers"; "company"; "companies"; "salary"; "package"; "ctc";
        "employ"; "employment"; "opportunity"; "opportunities"; "resume";
        "cv"; "alumni network"]%string
  | infrastructure =>
      map lit ["infrastructure"; "infra"; "building"; "buildings"; "hostel";
        "hostels"; "mess"; "food"; "canteen"; "lab"; "labs"; "library";
        "wifi"; "internet"; "classroom"; "classrooms"; "facility";
        "facilities"; "campus"; "area"; "clean"; "maintenance"; "sports";
        "gym"; "equipment"; "room"; "rooms"; "water"; "power"; "transport"]%string
  | campus_life =>
      map lit ["life"; "campus life"; "culture"; "fest"; "fests"; "event";
        "events"; "club"; "clubs"; "activity"; "activities"; "social";
        "community"; "student"; "students"; "peer"; "peers"; "friend";
        "friends"; "people"; "atmosphere"; "vibe"; "environment"; "fun";
        "enjoy"; "experience"; "hostel life"; "party"; "parties"; "ragging";
        "senior"; "junior"; "diversity"; "safety"; "security";
        "interaction"; "extra curricular"]%string
  | fees =>
      map lit ["fee"; "fees"; "cost"; "expensive"; "cheap"; "affordable";
        "price"; "tuition"; "scholarship"; "loan"; "value"; "money";
        "worth"; "finance"; "financial"; "payment"]%string
  end.

(** [ASPECT_KEYWORDS.items()] *)
Definition ASPECT_KEYWORDS : list (Aspect * list str) :=
  map (fun a => (a, keywords a)) aspects.

(** *** The VADER analyzer and the sentence tokenizer (NLTK) *)

(** The dict [polarity_scores] returns. *)
Definition scores_dict := list (str * Q).

(** The module-level [analyzer]: [None] when the lexicon could not be
    loaded, else an object whose [polarity_scores] returns a dict or raises;
    and NLTK's [sent_tokenize], which returns the sentences or raises. *)
Record environment : Type := {
  analyzer : option (str -> outcome scores_dict);
  sent_tokenize : str -> outcome (list str)
}.

(** What the functions do besides returning: calls to the oracle and lines
    printed. *)
Inductive event : Type :=
| PolarityScores (text : str)
| Print (line : str).

(** A computation returns or raises, and leaves a trace of events. *)
Definition M (A : Type) : Type := (outcome A * list event)%type.

Definition ret {A} (a : A) : M A := (Return a, []).
Definition raise {A} (e : exn) : M A := (Raise e, []).
Definition tell (ev : event) : M unit := (Return tt, [ev]).

Definition bind {A B} (m : M A) (f : A -> M B) : M B :=
  match m with
  | (Return a, l) => let '(r, l') := f a in (r, l ++ l')
  | (Raise e, l) => (Raise e, l)
  end.

(** [try: body except Exception as e: handler] *)
Definition try_except {A} (body : M A) (handler : exn -> M A) : M A :=
  match body with
  | (Return a, l) => (Return a, l)
  | (Raise e, l) => let '(r, l') := handler e in (r, l ++ l')
  end.

Notation "x <- m ;; k" := (bind m (fun x => k))
  (at level 61, m at next level, right associativity).
Notation "m ;;; k" := (bind m (fun _ => k))
  (at level 61, right associativity).

Definition value {A} (m : M A) : outcome A := fst m.
Definition trace {A} (m : M A) : list event := snd m.

(** [d[key]], raising [KeyError] when the key is missing.  What [str]
    makes of a [KeyError] is the key as [repr] prints it: between quotes,
    for a key that holds no quote and no escape. *)
Fixpoint getitem (d : scores_dict) (key : str) : M Q :=
  match d with
  | [] => raise (Exn (lit "KeyError") (lit "'" ++ key ++ lit "'"))
  | (k, v) :: d' => if str_eqb k key then ret v else getitem d' key
  end.

(** [analyzer.polarity_scores(text)] *)
Definition call_polarity_scores (an : str -> outcome scores_dict) (text : str)
  : M scores_dict :=
  (an text, [PolarityScores text]).

(** [not text.strip()] *)
Definition is_blank (text : str) : bool :=
  match strip text with [] => true | _ => false end.

Definition get_vader_sentiment (env : environment) (text : pyobj) : M Q :=
  match analyzer env with
  | None => ret 0%Q
  | Some an =>
      match text with
      | PyStr t =>
          if is_blank t then ret 0%Q
          else
            try_except
              (scores <- call_polarity_scores an t ;;
               getitem scores (lit "compound"))
              (fun e =>
                 tell (Print (lit "Error in VADER analysis for text snippet: '"
                              ++ take 50 t ++ lit "...': " ++ exn_msg e)) ;;;
                 ret 0%Q)
      | _ => ret 0%Q
      end
  end.

(** *** Keyword matching *)

Definition head_opt (s : str) : option ascii :=
  match s with c :: _ => Some c | [] => None end.

(** The character just before the end of a match of [kw] that started after
    [prev]. *)
Definition last_opt (prev : option ascii) (kw : str) : option ascii :=
  match rev kw with c :: _ => Some c | [] => prev end.

(** [r'\b' + re.escape(keyword) + r'\b'] matched at the current position. *)
Definition keyword_at (kw : str) (prev : option ascii) (s : str) : bool :=
  word_boundary prev (head_opt s)
  && starts_with kw s
  && word_boundary (last_opt prev kw) (head_opt (skipn (List.length kw) s)).

(** [re.search(p, s) is not None]: the pattern matches at some position,
    the end of the text included. *)
Fixpoint search_from (p : option ascii -> str -> bool) (prev : option ascii)
  (s : str) : bool :=
  p prev s ||
  match s with
  | [] => false
  | c :: r => search_from p (Some c) r
  end.

Definition re_search (p : option ascii -> str -> bool) (s : str) : bool :=
  search_from p None s.

(** [any(re.search(r'\b' + re.escape(keyword) + r'\b', sentence_lower)
        for keyword in keywords)] *)
Definition any_keyword (kws : list str) (sentence_lower : str) : bool :=
  existsb (fun kw => re_search (keyword_at kw) sentence_lower) kws.

(** *** Aspect scores *)

(** A dict keyed by the aspects. *)
Definition aspect_dict (V : Type) : Type := Aspect -> V.

Definition dict_init {V} (v : V) : aspect_dict V := fun _ => v.

Definition dict_set {V} (d : aspect_dict V) (a : Aspect) (v : V)
  : aspect_dict V :=
  fun b => if aspect_eqb a b then v else d b.

(** [sum(scores)]: left to right, from 0. *)
Definition py_sum (scores : list Q) : Q := fold_left Qplus scores 0%Q.

Definition py_len {A} (l : list A) : Q := inject_Z (Z.of_nat (List.length l)).

(** [x / y], raising [ZeroDivisionError] on a zero divisor. *)
Definition py_div (x y : Q) : M Q :=
  if Qeq_bool y 0 then raise (Exn (lit "ZeroDivisionError") (lit "division by zero"))
  else ret (x / y)%Q.

(** The body of [for aspect, keywords in ASPECT_KEYWORDS.items()]. *)
Definition tag_sentence (sentence_lower : str) (sentence_score : Q)
  (aspect_sentiments : aspect_dict (list Q)) (item : Aspect * list str)
  : aspect_dict (list Q) :=
  let '(aspect, kws) := item in
  if any_keyword kws sentence_lower
  then dict_set aspect_sentiments aspect
         (aspect_sentiments aspect ++ [sentence_score])
  else aspect_sentiments.

(** [for sentence in sentences: ...] *)
Fixpoint for_sentences (env : environment) (sentences : list str)
  (aspect_sentiments : aspect_dict (list Q)) : M (aspect_dict (list Q)) :=
  match sentences with
  | [] => ret aspect_sentiments
  | sentence :: rest =>
      let sentence_lower := lower sentence in
      sentence_score <- get_vader_sentiment env (PyStr sentence) ;;
      for_sentences env rest
        (fold_left (tag_sentence sentence_lower sentence_score)
                   ASPECT_KEYWORDS aspect_sentiments)
  end.

(** The body of [for aspect, scores in aspect_sentiments.items()]. *)
Definition average_into (aspect_sentiments : aspect_dict (list Q))
  (final : M (aspect_dict (option Q))) (aspect : Aspect)
  : M (aspect_dict (option Q)) :=
  final_aspect_scores <- final ;;
  let scores := aspect_sentiments aspect in
  match scores with
  | [] => ret final_aspect_scores
  | _ :: _ =>
      try_except
        (avg <- py_div (py_sum scores) (py_len scores) ;;
         ret (dict_set final_aspect_scores aspect (Some avg)))
        (fun _ => ret (dict_set final_aspect_scores aspect (Some 0%Q)))
  end.

Definition analyze_aspect_sentiment (env : environment) (text : pyobj)
  : M (aspect_dict (option Q)) :=
  let aspect_sentiments : aspect_dict (list Q) := dict_init [] in
  let final_aspect_scores : aspect_dict (option Q) := dict_init None in
  match analyzer env with
  | None => ret final_aspect_scores
  | Some _ =>
      match text with
      | PyStr t =>
          if is_blank t then ret final_aspect_scores
          else
            match sent_tokenize env t with
            | Raise e =>
                tell (Print (lit "Error tokenizing sentences for text: '"
                             ++ take 50 t ++ lit "...': " ++ exn_msg e)) ;;;
                ret final_aspect_scores
            | Return sentences =>
                aspect_sentiments <-
                  for_sentences env sentences aspect_sentiments ;;
                fold_left (average_into aspect_sentiments) aspects
                          (ret final_aspect_scores)
            end
      | _ => ret final_aspect_scores
      end
  end.

End Analyzer.

(* ================================================================== *)
(** ** summarizer.py *)

Module Summarizer.
Import Analyzer.

(** *** Data frames *)

(** A cell of a sentiment column: a number, NaN ([CNull], the null of a
    float column), [None] or text (only an object column holds the last
    two). *)
Inductive cell : Type :=
| CNum (q : Q)
| CNull
| CNone
| CStr (s : str).

(** One record of the frame that [apply_sentiment_analysis_to_df] builds,
    with its index label. *)
Record Row : Type := mkRow {
  label : nat;
  college_name_approx : option str;
  created_utc : option Z;
  text : str;
  permalink : str;
  compound_sentiment : cell;
  academics_sentiment : cell;
  placements_sentiment : cell;
  infrastructure_sentiment : cell;
  campus_life_sentiment : cell;
  fees_sentiment : cell
}.

(** A frame: the names of its columns and its records.  The functions are
    modelled as [main.py] calls them, with the default column names. *)
Record DataFrame : Type := mkDataFrame {
  columns : list str;
  rows : list Row
}.

(** [col in df.columns] *)
Definition has_col (df : DataFrame) (col : str) : bool :=
  existsb (str_eqb col) (columns df).

(** [df.empty]: no record or no column. *)
Definition empty (df : DataFrame) : bool :=
  match rows df, columns df with
  | _ :: _, _ :: _ => false
  | _, _ => true
  end.

Definition college_col : str := lit "college_name_approx".
Definition sentiment_col : str := lit "compound_sentiment".
Definition time_col : str := lit "created_utc".
Definition text_col : str := lit "text".
Definition permalink_col : str := lit "permalink".

(** The column [f"{aspect}_sentiment"]. *)
Definition aspect_col (a : Aspect) : str := aspect_name a ++ lit "_sentiment".

Definition aspect_cell (a : Aspect) (r : Row) : cell :=
  match a with
  | academics => academics_sentiment r
  | placements => placements_sentiment r
  | infrastructure => infrastructure_sentiment r
  | campus_life => campus_life_sentiment r
  | fees => fees_sentiment r
  end.

Definition set_compound (v : cell) (r : Row) : Row :=
  mkRow (label r) (college_name_approx r) (created_utc r) (text r)
        (permalink r) v (academics_sentiment r) (placements_sentiment r)
        (infrastructure_sentiment r) (campus_life_sentiment r)
        (fees_sentiment r).

Definition set_aspect_cell (a : Aspect) (v : cell) (r : Row) : Row :=
  let pick b := if aspect_eqb a b then v else aspect_cell b r in
  mkRow (label r) (college_name_approx r) (created_utc r) (text r)
        (permalink r) (compound_sentiment r) (pick academics)
        (pick placements) (pick infrastructure) (pick campus_life)
        (pick fees).

(** [pd.isna] on a cell. *)
Definition isna (c : cell) : bool :=
  match c with CNull | CNone => true | _ => false end.

(** What a float column holds: a number or NaN. *)
Definition is_float (c : cell) : bool :=
  match c with CNum _ | CNull => true | _ => false end.

(** The number in a numeric cell. *)
Definition number (c : cell) : option Q :=
  match c with CNum q => Some q | _ => None end.

(** The arithmetic mean: the sum over the count. *)
Definition mean (l : list Q) : Q := (py_sum l / py_len l)%Q.

(** [Series.mean()]: the mean of the non-null values, null when there is
    none. *)
Fixpoint numbers (cs : list cell) : list Q :=
  match cs with
  | [] => []
  | CNum q :: r => q :: numbers r
  | _ :: r => numbers r
  end.

Definition series_mean (cs : list cell) : option Q :=
  match numbers cs with
  | [] => None
  | l => Some (mean l)
  end.

(** Order of the group keys: strings compare by code point. *)
Fixpoint str_leb (a b : str) : bool :=
  match a, b with
  | [], _ => true
  | _ :: _, [] => false
  | x :: a', y :: b' =>
      if (code x <? code y)%N then true
      else if (code y <? code x)%N then false
      else str_leb a' b'
  end.

Fixpoint insert_key (k : str) (ks : list str) : list str :=
  match ks with
  | [] => [k]
  | k' :: r =>
      if str_eqb k k' then ks
      else if str_leb k k' then k :: ks
      else k' :: insert_key k r
  end.

(** The distinct non-null keys, ascending. *)
Definition group_keys (keys : list (option str)) : list str :=
  fold_right (fun k acc => match k with
                           | Some s => insert_key s acc
                           | None => acc
                           end) [] keys.

Definition in_group (k : str) (r : Row) : bool :=
  match college_name_approx r with
  | Some s => str_eqb s k
  | None => false
  end.

(** [df.groupby(college_col)]: one group per distinct non-null key, keys
    ascending, each group with its records in frame order. *)
Definition groupby (rs : list Row) : list (str * list Row) :=
  map (fun k => (k, filter (in_group k) rs))
      (group_keys (map college_name_approx rs)).

(** [df.head(n)] and [df.tail(n)] on the records. *)
Definition head {A} (n : Z) (l : list A) : list A :=
  if (0 <=? n)%Z then firstn (Z.to_nat n) l
  else firstn (List.length l - Z.to_nat (- n)) l.

Definition tail {A} (n : Z) (l : list A) : list A :=
  if (n =? 0)%Z then []
  else if (0 <? n)%Z then skipn (List.length l - Z.to_nat n) l
  else skipn (Z.to_nat (- n)) l.

(** *** Calendar periods *)

Inductive Freq : Type := Daily | Weekly | Monthly | Yearly.

(** Days since 1970-01-01 of an epoch second. *)
Definition days_of_seconds (s : Z) : Z := (s / 86400)%Z.

(** Year and month (1..12) of a day number, proleptic Gregorian. *)
Definition civil_of_days (days : Z) : Z * Z :=
  (let z := days + 719468 in
   let era := z / 146097 in
   let doe := z - era * 146097 in
   let yoe := (doe - doe / 1460 + doe / 36524 - doe / 146096) / 365 in
   let y := yoe + era * 400 in
   let doy := doe - (365 * yoe + yoe / 4 - yoe / 100) in
   let mp := (5 * doy + 2) / 153 in
   let m := if mp <? 10 then mp + 3 else mp - 9 in
   (if m <=? 2 then y + 1 else y, m))%Z.

(** The number of the period an instant falls in: days since the epoch,
    weeks (Monday to Sunday) since the week of the epoch, months since
    year 0, or the year. *)
Definition period_of (freq : Freq) (s : Z) : Z :=
  (let d := days_of_seconds s in
   match freq with
   | Daily => d
   | Weekly => (d + 3) / 7
   | Monthly => let '(y, m) := civil_of_days d in y * 12 + (m - 1)
   | Yearly => fst (civil_of_days d)
   end)%Z.

(** [pd.to_datetime(x, unit='s', errors='coerce')]: null, or outside what a
    nanosecond timestamp holds, gives NaT. *)
Definition to_datetime (t : option Z) : option Z :=
  match t with
  | Some s =>
      if ((-9223372036 <=? s) && (s <=? 9223372036))%Z then Some s else None
  | None => None
  end.

(** [lo, lo+1, ..., hi]. *)
Definition zrange (lo hi : Z) : list Z :=
  map (fun i => (lo + Z.of_nat i)%Z) (seq 0 (Z.to_nat (hi - lo + 1))).

Definition zmin_list (x : Z) (l : list Z) : Z := fold_left Z.min l x.
Definition zmax_list (x : Z) (l : list Z) : Z := fold_left Z.max l x.

(** *** Results *)

(** A record of [to_dict('records')] over [text, sentiment, permalink]. *)
Record review : Type := mkReview {
  review_text : str;
  review_sentiment : cell;
  review_permalink : str
}.

Definition to_review (r : Row) : review :=
  mkReview (text r) (compound_sentiment r) (permalink r).

Record top_reviews_entry : Type := mkTop {
  positive : list review;
  negative : list review
}.

(** A row of the trend frame. *)
Record trend_row : Type := mkTrend {
  period : Z;
  mean_sentiment : Q;
  comment_count : nat
}.

Section WithPandas.

(** [pd.to_numeric(..., errors='coerce')] on a text cell: its number, if it
    reads as one. *)
Variable parse_float : str -> option Q.

(** [sort_values(key, ascending=...)] with the default algorithm. *)
Variable sort_values : forall A : Type, (A -> option Q) -> bool -> list A -> list A.

(** Whether [resample(freq).agg(...)] raises for an index of these instants:
    pandas raises when it cannot hold the edges and labels of the bins as
    nanosecond timestamps, which happens for instants near the ends of the
    range of such timestamps. *)
Variable resample_raises : Freq -> list Z -> bool.

Definition to_numeric (c : cell) : cell :=
  match c with
  | CNum q => CNum q
  | CNull | CNone => CNull
  | CStr s => match parse_float s with Some q => CNum q | None => CNull end
  end.

(** [df[sentiment_col] = pd.to_numeric(df[sentiment_col], errors='coerce')] *)
Definition coerce_compound (df : DataFrame) : DataFrame :=
  mkDataFrame (columns df)
    (map (fun r => set_compound (to_numeric (compound_sentiment r)) r)
         (rows df)).

(** [df[col] = pd.to_numeric(df[col], errors='coerce')] for an aspect
    column. *)
Definition coerce_aspect (df : DataFrame) (a : Aspect) : DataFrame :=
  mkDataFrame (columns df)
    (map (fun r => set_aspect_cell a (to_numeric (aspect_cell a r)) r)
         (rows df)).

Definition dropna_values {K} (l : list (K * option Q)) : list (K * Q) :=
  flat_map (fun p => match snd p with
                     | Some q => [(fst p, q)]
                     | None => []
                     end) l.

(** Returns the series and the frame as the call leaves it. *)
Definition calculate_overall_sentiment (df : DataFrame)
  : list (str * Q) * DataFrame :=
  if negb (has_col df college_col) || negb (has_col df sentiment_col)
     || empty df
  then ([], df)
  else
    let df := coerce_compound df in
    let means :=
      map (fun g => (fst g, series_mean (map compound_sentiment (snd g))))
          (groupby (rows df)) in
    (sort_values (fun p => Some (snd p)) false (dropna_values means), df).

(** [[col for col in df.columns if col.endswith('_sentiment') and
      col != 'compound_sentiment']], over the aspect columns. *)
Definition aspect_cols (df : DataFrame) : list Aspect :=
  flat_map (fun col => filter (fun a => str_eqb col (aspect_col a)) aspects)
           (columns df).

(** The row of group means of one entity, and [dropna(how='all')]. *)
Definition aspect_means (cols : list Aspect) (g : list Row)
  : list (Aspect * option Q) :=
  map (fun a => (a, series_mean (map (aspect_cell a) g))) cols.

Definition all_null (cells : list (Aspect * option Q)) : bool :=
  forallb (fun p => match snd p with None => true | Some _ => false end) cells.

Definition calculate_aspect_sentiment_summary (df : DataFrame)
  : list (str * list (Aspect * option Q)) * DataFrame :=
  if negb (has_col df college_col) || empty df then ([], df)
  else
    let cols := aspect_cols df in
    match cols with
    | [] => ([], df)
    | _ :: _ =>
        let df := fold_left coerce_aspect cols df in
        let means :=
          map (fun g => (fst g, aspect_means cols (snd g)))
              (groupby (rows df)) in
        (filter (fun e => negb (all_null (snd e))) means, df)
    end.

(** A record kept by [dropna(subset=['datetime', sentiment_col])], with its
    instant. *)
Definition dated (r : Row) : list (Z * cell) :=
  match to_datetime (created_utc r) with
  | Some s => if isna (compound_sentiment r) then []
              else [(s, compound_sentiment r)]
  | None => []
  end.

Definition is_text (c : cell) : bool :=
  match c with CStr _ => true | _ => false end.

(** [resample(freq).agg(['mean', 'count'])]: one row per period from the
    first to the last, empty periods included. *)
Definition resample (freq : Freq) (l : list (Z * cell))
  : list (Z * option Q * nat) :=
  match map (fun p => period_of freq (fst p)) l with
  | [] => []
  | p0 :: ps =>
      map (fun k =>
             let bucket :=
               map snd (filter (fun p => (period_of freq (fst p) =? k)%Z) l) in
             (k, series_mean bucket, List.length bucket))
          (zrange (zmin_list p0 ps) (zmax_list p0 ps))
  end.

(** The frame is read, never written.  When [resample] raises, or the
    average meets a text cell and raises, the handler returns the empty
    frame. *)
Definition calculate_sentiment_trends (df : DataFrame) (freq : Freq)
  : list trend_row * DataFrame :=
  if negb (has_col df time_col) || negb (has_col df sentiment_col) || empty df
  then ([], df)
  else
    let df_trends := flat_map dated (rows df) in
    match df_trends with
    | [] => ([], df)
    | _ :: _ =>
        if resample_raises freq (map fst df_trends) then ([], df)
        else if existsb (fun p => is_text (snd p)) df_trends then ([], df)
        else
          (flat_map (fun t => match t with
                              | (k, Some m, c) => [mkTrend k m c]
                              | (_, None, _) => []
                              end) (resample freq df_trends), df)
    end.

Definition sentiment_key (r : Row) : option Q := number (compound_sentiment r).

Definition find_top_reviews (df : DataFrame) (n : Z)
  : list (str * top_reviews_entry) * DataFrame :=
  if negb (forallb (has_col df)
                   [college_col; sentiment_col; text_col; permalink_col])
     || empty df
  then ([], df)
  else
    let df := coerce_compound df in
    let df_valid_sentiment :=
      filter (fun r => negb (isna (compound_sentiment r))) (rows df) in
    let grouped := groupby df_valid_sentiment in
    (map (fun g =>
            let '(name, group) := g in
            let sorted_group := sort_values sentiment_key false group in
            let top_positive := map to_review (head n sorted_group) in
            let top_negative :=
              map to_review (sort_values sentiment_key true (tail n sorted_group)) in
            (name, mkTop top_positive top_negative))
         grouped, df).

End WithPandas.

End Summarizer.

(* ================================================================== *)
(** * Properties *)

(** ** Characters and strings *)

Module StrFacts.

(** The characters of cleaned text: a letter a..z or one of [. , ? ! ']. *)
Definition word_char (c : ascii) : bool := Cleaner.is_kept c && nonspace c.

(** A character of cleaned text, or the single space between two words. *)
Definition out_char (c : ascii) : bool := word_char c || is_code 32 c.

Ltac by_cases_on_char c :=
  destruct c as [[] [] [] [] [] [] [] []]; vm_compute;
  intros; try discriminate; repeat split; reflexivity.

Lemma out_char_facts (c : ascii) :
  out_char c = true ->
  lower_char c = c /\ Cleaner.is_kept c = true
  /\ Cleaner.is_markdown c = false
  /\ is_code 47 c = false /\ is_code 91 c = false /\ is_code 62 c = false
  /\ is_code 38 c = false.
Proof. by_cases_on_char c. Qed.

Lemma word_char_facts (c : ascii) :
  word_char c = true -> isspace c = false /\ out_char c = true.
Proof. by_cases_on_char c. Qed.

Lemma word_char_intro (c : ascii) :
  Cleaner.is_kept c = true -> isspace c = false -> word_char c = true.
Proof.
  unfold word_char, nonspace. intros -> ->. reflexivity.
Qed.

Lemma starts_with_Forall (P : ascii -> Prop) (l s : str) :
  starts_with l s = true -> Forall P s -> Forall P l.
Proof.
  revert s. induction l as [|x l IH]; intros s H Hs; [constructor|].
  destruct s as [|y s]; [discriminate|]. simpl in H.
  apply andb_true_iff in H. destruct H as [Hxy Hl].
  apply Ascii.eqb_eq in Hxy. subst y.
  inversion Hs; subst. constructor; eauto.
Qed.

Lemma lower_fixed (s : str) :
  Forall (fun c => out_char c = true) s -> lower s = s.
Proof.
  induction 1 as [|c s Hc _ IH]; [reflexivity|].
  unfold lower in *. simpl. rewrite IH.
  destruct (out_char_facts c Hc) as [-> _]. reflexivity.
Qed.

(** Splitting: a run of non-whitespace extends the word being read. *)
Lemma split_acc_word (u : str) :
  Forall (fun c => isspace c = false) u ->
  forall w rest, split_acc w (u ++ rest) = split_acc (w ++ u) rest.
Proof.
  induction 1 as [|c u Hc _ IH]; intros w rest; simpl.
  - rewrite app_nil_r. reflexivity.
  - rewrite Hc, IH, <- app_assoc. reflexivity.
Qed.

Definition good_word (w : str) : Prop :=
  w <> [] /\ Forall (fun c => word_char c = true) w.

Lemma good_word_nonspace (w : str) :
  good_word w -> Forall (fun c => isspace c = false) w.
Proof.
  intros [_ H]. eapply Forall_impl; [|exact H].
  intros c Hc. apply (word_char_facts c Hc).
Qed.

Lemma split_acc_space (w rest : str) :
  w <> [] -> split_acc w (" "%char :: rest) = w :: split_acc [] rest.
Proof. destruct w; [contradiction|reflexivity]. Qed.

Lemma split_join (ws : list str) :
  Forall good_word ws -> split (join (lit " ") ws) = ws.
Proof.
  unfold split. induction 1 as [|w ws Hw Hws IH]; [reflexivity|].
  pose proof (good_word_nonspace Hw) as Hns.
  destruct Hw as [Hne _].
  destruct ws as [|w2 ws'].
  - simpl. rewrite <- (app_nil_r w) at 1.
    rewrite split_acc_word by assumption. simpl.
    destruct w; [contradiction|reflexivity].
  - change (join (lit " ") (w :: w2 :: ws'))
      with (w ++ lit " " ++ join (lit " ") (w2 :: ws')).
    rewrite split_acc_word by assumption. simpl app at 1.
    change (lit " " ++ join (lit " ") (w2 :: ws'))
      with (" "%char :: join (lit " ") (w2 :: ws')).
    rewrite split_acc_space by assumption. rewrite IH. reflexivity.
Qed.

Lemma split_acc_good (s : str) :
  Forall (fun c => Cleaner.is_kept c = true) s ->
  forall w, Forall (fun c => word_char c = true) w ->
  Forall good_word (split_acc w s).
Proof.
  induction 1 as [|c s Hc _ IH]; intros w Hw; simpl.
  - destruct w; constructor; [|constructor]. split; [discriminate|assumption].
  - destruct (isspace c) eqn:Hsp.
    + destruct w as [|x w].
      * apply IH. constructor.
      * constructor; [split; [discriminate|assumption]|].
        apply IH. constructor.
    + apply IH. apply Forall_app. split; [assumption|].
      constructor; [|constructor]. apply word_char_intro; assumption.
Qed.

Lemma join_out_chars (ws : list str) :
  Forall good_word ws ->
  Forall (fun c => out_char c = true) (join (lit " ") ws).
Proof.
  induction 1 as [|w ws Hw Hws IH]; [constructor|].
  assert (Hwo : Forall (fun c => out_char c = true) w).
  { destruct Hw as [_ H]. eapply Forall_impl; [|exact H].
    intros c Hc. apply (word_char_facts c Hc). }
  destruct ws as [|w2 ws']; [exact Hwo|].
  change (join (lit " ") (w :: w2 :: ws'))
    with (w ++ " "%char :: join (lit " ") (w2 :: ws')).
  apply Forall_app. split; [assumption|]. constructor; [reflexivity|exact IH].
Qed.

End StrFacts.

(* ================================================================== *)
(** ** cleaner.py: a second pass of [clean_text] *)

Module CleanerProofs.
Import Re Cleaner StrFacts.

(** A pattern that matches nowhere leaves the text as it is. *)
Lemma sub_from_unmatched (P : ascii -> Prop) (m : matcher) :
  (forall prev s, Forall P s -> m prev s = None) ->
  forall s prev, Forall P s -> sub_from m 0 prev s = s.
Proof.
  intros Hm. induction s as [|c r IH]; intros prev Hs; [reflexivity|].
  simpl. rewrite (Hm prev (c :: r) Hs).
  inversion Hs; subst. rewrite IH by assumption. reflexivity.
Qed.

(** Removing a one-character class is filtering. *)
Lemma sub_from_one_of (cls : ascii -> bool) (s : str) :
  forall prev, sub_from (one_of cls) 0 prev s = filter (fun c => negb (cls c)) s.
Proof.
  induction s as [|c r IH]; intros prev; [reflexivity|].
  simpl. destruct (cls c); simpl; rewrite IH; reflexivity.
Qed.

Lemma sub_special_kept (s : str) :
  Forall (fun c => is_kept c = true) (sub m_special s).
Proof.
  unfold sub, m_special. rewrite sub_from_one_of.
  apply Forall_forall. intros c Hc. apply filter_In in Hc.
  destruct Hc as [_ Hc]. rewrite negb_involutive in Hc. exact Hc.
Qed.

Lemma sub_url_unmatched (s : str) :
  contains_url s = false -> forall prev, sub_from m_url 0 prev s = s.
Proof.
  induction s as [|c r IH]; intros H prev; [reflexivity|].
  simpl in H. cbn [sub_from]. unfold m_url at 1.
  destruct (url_at (c :: r)); [discriminate|].
  simpl. rewrite IH by assumption. reflexivity.
Qed.

Definition clean (c : ascii) : Prop := out_char c = true.

Lemma not_clean (l : str) : forallb out_char l = false -> ~ Forall clean l.
Proof.
  intros H Hl. rewrite Forall_forall in Hl.
  assert (forallb out_char l = true) by (apply forallb_forall; exact Hl).
  congruence.
Qed.

Lemma lit_plus_unmatched (l : str) (cls : ascii -> bool) (s : str) :
  ~ Forall clean l -> Forall clean s -> lit_plus l cls s = None.
Proof.
  intros Hl Hs. unfold lit_plus.
  destruct (starts_with l s) eqn:E; [|reflexivity].
  exfalso. apply Hl. eapply starts_with_Forall; eassumption.
Qed.

Lemma mention_unmatched (prev : option ascii) (s : str) :
  Forall clean s -> m_mention prev s = None.
Proof.
  intros Hs. unfold m_mention, mention_at.
  rewrite !lit_plus_unmatched;
    try assumption; try reflexivity; apply not_clean; reflexivity.
Qed.

Lemma first_char_unmatched (m : matcher) (n : N) :
  (forall prev c r, is_code n c = false -> m prev (c :: r) = None) ->
  (forall prev, m prev [] = None) ->
  (forall c, out_char c = true -> is_code n c = false) ->
  forall prev s, Forall clean s -> m prev s = None.
Proof.
  intros Hm Hnil Hn prev s Hs. destruct s as [|c r]; [apply Hnil|].
  inversion Hs; subst. apply Hm. apply Hn. assumption.
Qed.

Lemma markdown_unmatched (prev : option ascii) (s : str) :
  Forall clean s -> m_markdown prev s = None.
Proof.
  intros Hs. destruct s as [|c r]; [reflexivity|]. inversion Hs; subst.
  unfold m_markdown, one_of.
  destruct (out_char_facts c) as (_ & _ & -> & _); [assumption|reflexivity].
Qed.

Lemma link_unmatched (prev : option ascii) (s : str) :
  Forall clean s -> m_link prev s = None.
Proof.
  apply first_char_unmatched with (n := 91%N).
  - intros p c r H. unfold m_link. rewrite H. reflexivity.
  - reflexivity.
  - intros c Hc. apply (out_char_facts c Hc).
Qed.

Lemma quote_unmatched (prev : option ascii) (s : str) :
  Forall clean s -> m_quote prev s = None.
Proof.
  apply first_char_unmatched with (n := 62%N).
  - intros p c r H. unfold m_quote. rewrite H.
    destruct (at_line_start p); reflexivity.
  - intros p. unfold m_quote. destruct (at_line_start p); reflexivity.
  - intros c Hc. apply (out_char_facts c Hc).
Qed.

Lemma entity_unmatched (prev : option ascii) (s : str) :
  Forall clean s -> m_entity prev s = None.
Proof.
  apply first_char_unmatched with (n := 38%N).
  - intros p c r H. unfold m_entity. rewrite H. reflexivity.
  - reflexivity.
  - intros c Hc. apply (out_char_facts c Hc).
Qed.

Lemma special_unmatched (prev : option ascii) (s : str) :
  Forall clean s -> m_special prev s = None.
Proof.
  intros Hs. destruct s as [|c r]; [reflexivity|]. inversion Hs; subst.
  unfold m_special, one_of.
  destruct (out_char_facts c) as (_ & -> & _); [assumption|reflexivity].
Qed.

(** The shape of every cleaned text: words of letters and [. , ? ! '],
    one space between two words. *)
Lemma clean_str_shape (s : str) :
  exists ws, Forall good_word ws /\ clean_str s = join (lit " ") ws.
Proof.
  unfold clean_str. eexists. split; [|reflexivity].
  unfold split. apply split_acc_good; [apply sub_special_kept|constructor].
Qed.

(** On text of that shape with no URL left, every step is the identity. *)
Lemma clean_str_fixed (ws : list str) :
  Forall good_word ws ->
  contains_url (join (lit " ") ws) = false ->
  clean_str (join (lit " ") ws) = join (lit " ") ws.
Proof.
  intros Hws Hurl. pose proof (join_out_chars Hws) as Hout.
  unfold clean_str, sub.
  rewrite (lower_fixed Hout).
  rewrite (sub_url_unmatched _ Hurl).
  rewrite (sub_from_unmatched (P := clean) m_mention mention_unmatched) by assumption.
  rewrite (sub_from_unmatched (P := clean) m_markdown markdown_unmatched) by assumption.
  rewrite (sub_from_unmatched (P := clean) m_link link_unmatched) by assumption.
  rewrite (sub_from_unmatched (P := clean) m_quote quote_unmatched) by assumption.
  rewrite (sub_from_unmatched (P := clean) m_entity entity_unmatched) by assumption.
  rewrite (sub_from_unmatched (P := clean) m_special special_unmatched) by assumption.
  rewrite (split_join Hws). reflexivity.
Qed.

(** *** Lengths: a second pass can only shorten *)

(** A match replaces more characters than it puts back, and lies within
    the text. *)
Definition shrinks (m : matcher) : Prop :=
  forall prev s repl n,
    m prev s = Some (repl, n) -> List.length repl < n <= List.length s.

Lemma sub_from_length (m : matcher) :
  shrinks m ->
  forall s k prev,
    k <= List.length s ->
    List.length (sub_from m k prev s) + k <= List.length s.
Proof.
  intros Hm. induction s as [|c r IH]; intros k prev Hk; simpl in *; [lia|].
  destruct k as [|k].
  - destruct (m prev (c :: r)) as [[repl n]|] eqn:E.
    + apply Hm in E. simpl in E. rewrite length_app.
      specialize (IH (pred n) (Some c)). lia.
    + simpl. specialize (IH 0 (Some c)). lia.
  - specialize (IH k (Some c)). lia.
Qed.

Lemma sub_length (m : matcher) (s : str) :
  shrinks m -> List.length (sub m s) <= List.length s.
Proof.
  intros Hm. pose proof (@sub_from_length m Hm s 0 None). unfold sub. lia.
Qed.

Lemma span_le (f : ascii -> bool) (s : str) : span f s <= List.length s.
Proof. induction s as [|c r IH]; simpl; [lia|]. destruct (f c); lia. Qed.

Lemma starts_with_length (l s : str) :
  starts_with l s = true -> List.length l <= List.length s.
Proof.
  revert s. induction l as [|x l IH]; intros s H; simpl; [lia|].
  destruct s as [|y s]; [discriminate|]. simpl in *.
  apply andb_true_iff in H. destruct H as [_ H]. apply IH in H. lia.
Qed.

Lemma lit_plus_bounds (l : str) (cls : ascii -> bool) (s : str) (n : nat) :
  lit_plus l cls s = Some n -> 0 < n <= List.length s.
Proof.
  unfold lit_plus. destruct (starts_with l s) eqn:E; [|discriminate].
  apply starts_with_length in E.
  pose proof (span_le cls (skipn (List.length l) s)) as Hs.
  rewrite length_skipn in Hs.
  destruct (span cls (skipn (List.length l) s)); [discriminate|].
  intros H. injection H as <-. lia.
Qed.

Ltac first_alternative :=
  match goal with
  | |- context [lit_plus ?l ?cls ?s] =>
      let E := fresh "E" in
      destruct (lit_plus l cls s) eqn:E;
      [intros H; injection H as <-; eapply lit_plus_bounds; exact E|]
  end.

Lemma url_at_bounds (s : str) (n : nat) :
  url_at s = Some n -> 0 < n <= List.length s.
Proof.
  unfold url_at, orelse. do 3 first_alternative. discriminate.
Qed.

Lemma mention_at_bounds (s : str) (n : nat) :
  mention_at s = Some n -> 0 < n <= List.length s.
Proof.
  unfold mention_at, orelse. do 4 first_alternative. discriminate.
Qed.

Lemma removed_shrinks (f : str -> option nat) :
  (forall s n, f s = Some n -> 0 < n <= List.length s) ->
  shrinks (fun _ s => removed (f s)).
Proof.
  intros Hf prev s repl n H. unfold removed in H.
  destruct (f s) as [k|] eqn:E; [|discriminate].
  injection H as <- <-. simpl. apply Hf. exact E.
Qed.

Lemma one_of_shrinks (cls : ascii -> bool) : shrinks (one_of cls).
Proof.
  intros prev [|c r] repl n H; simpl in H; [discriminate|].
  destruct (cls c); [|discriminate]. injection H as <- <-. simpl. lia.
Qed.

Lemma find_close_bounds (s : str) (j : nat) :
  find_close s = Some j -> 0 < j <= List.length s.
Proof.
  revert j. induction s as [|c r IH]; intros j H; simpl in *; [discriminate|].
  destruct (is_code 41 c); [injection H as <-; lia|].
  destruct (is_newline c); [discriminate|].
  destruct (find_close r) as [k|]; [|discriminate].
  injection H as <-. specialize (IH k eq_refl). lia.
Qed.

Lemma link_body_bounds (s : str) (g : str) (n : nat) :
  link_body s = Some (g, n) -> List.length g + 2 <= n <= List.length s.
Proof.
  revert g n. induction s as [|c r IH]; intros g n H; [discriminate|].
  cbn [link_body] in H.
  assert (Hrec : (if is_newline c then None
                  else match link_body r with
                       | Some (g0, n0) => Some (c :: g0, S n0)
                       | None => None
                       end) = Some (g, n) ->
                 List.length g + 2 <= n <= List.length (c :: r)).
  { destruct (is_newline c); [discriminate|].
    destruct (link_body r) as [[g0 n0]|]; [|discriminate].
    intros E. injection E as <- <-. specialize (IH g0 n0 eq_refl).
    simpl. lia. }
  destruct (is_code 93 c); [|exact (Hrec H)].
  destruct r as [|d r']; [exact (Hrec H)|].
  destruct (is_code 40 d); [|exact (Hrec H)].
  destruct (find_close r') as [j|] eqn:Ej; [|exact (Hrec H)].
  simpl in H. injection H as <- <-. apply find_close_bounds in Ej.
  simpl. lia.
Qed.

Lemma link_shrinks : shrinks m_link.
Proof.
  intros prev [|c r] repl n H; simpl in H; [discriminate|].
  destruct (is_code 91 c); [|discriminate].
  destruct (link_body r) as [[g k]|] eqn:E; [|discriminate].
  injection H as <- <-. apply link_body_bounds in E. simpl. lia.
Qed.

Lemma quote_shrinks : shrinks m_quote.
Proof.
  intros prev [|c r] repl n H; unfold m_quote in H;
    destruct (at_line_start prev); try discriminate.
  destruct (is_code 62 c); [|discriminate]. injection H as <- <-.
  pose proof (span_le dot r). simpl. lia.
Qed.

Lemma entity_shrinks : shrinks m_entity.
Proof.
  intros prev [|c r] repl n H; unfold m_entity in H; [discriminate|].
  destruct (is_code 38 c); [|discriminate].
  destruct (span is_az r) as [|k]; [discriminate|].
  destruct (skipn (S k) r) as [|d t] eqn:E; [discriminate|].
  destruct (is_code 59 d); [|discriminate]. injection H as <- <-.
  assert (Hl : List.length (skipn (S k) r) = List.length r - S k)
    by apply length_skipn.
  rewrite E in Hl. simpl in *. lia.
Qed.

Lemma join_cons_length (sep w : str) (ws : list str) :
  List.length (join sep (w :: ws))
  <= List.length w + List.length sep + List.length (join sep ws).
Proof.
  destruct ws as [|w2 ws]; [simpl; lia|].
  change (join sep (w :: w2 :: ws)) with (w ++ sep ++ join sep (w2 :: ws)).
  rewrite !length_app. lia.
Qed.

Lemma join_split_length (s : str) :
  forall w,
    List.length (join (lit " ") (split_acc w s))
    <= List.length w + List.length s.
Proof.
  induction s as [|c r IH]; intros w; cbn [split_acc].
  - destruct w; simpl; lia.
  - destruct (isspace c).
    + specialize (IH []). cbn [List.length] in *.
      destruct w as [|x w]; [lia|].
      pose proof (join_cons_length (lit " ") (x :: w) (split_acc [] r)) as H.
      change (List.length (lit " ")) with 1 in H. cbn [List.length] in *. lia.
    + specialize (IH (w ++ [c])). rewrite length_app in IH.
      cbn [List.length] in *. lia.
Qed.

(** A URL left in the text makes the first step of the next pass remove
    at least one character. *)
Lemma sub_url_matched (s : str) :
  contains_url s = true ->
  forall prev, List.length (sub_from m_url 0 prev s) < List.length s.
Proof.
  assert (Hs : shrinks m_url) by (apply removed_shrinks, url_at_bounds).
  induction s as [|c r IH]; intros H prev; [discriminate|].
  simpl in H. cbn [sub_from]. unfold m_url at 1.
  destruct (url_at (c :: r)) as [n|] eqn:E.
  - apply url_at_bounds in E. simpl in *.
    pose proof (@sub_from_length m_url Hs r (pred n) (Some c)). lia.
  - simpl. specialize (IH H (Some c)). lia.
Qed.

Lemma clean_str_shorter (t : str) :
  contains_url (lower t) = true ->
  List.length (clean_str t) < List.length t.
Proof.
  intros H. unfold clean_str, split.
  pose proof (sub_url_matched _ H None) as H1. fold (sub m_url (lower t)) in H1.
  unfold lower in H1 at 2. rewrite length_map in H1.
  set (t1 := sub m_url (lower t)) in *.
  pose proof (sub_length t1 (removed_shrinks mention_at mention_at_bounds)) as H2.
  fold m_mention in H2. set (t2 := sub m_mention t1) in *.
  pose proof (sub_length t2 (one_of_shrinks is_markdown)) as H3.
  fold m_markdown in H3. set (t3 := sub m_markdown t2) in *.
  pose proof (sub_length t3 link_shrinks) as H4. set (t4 := sub m_link t3) in *.
  pose proof (sub_length t4 quote_shrinks) as H5. set (t5 := sub m_quote t4) in *.
  pose proof (sub_length t5 entity_shrinks) as H6. set (t6 := sub m_entity t5) in *.
  pose proof (sub_length t6 (one_of_shrinks (fun c => negb (is_kept c)))) as H7.
  fold m_special in H7. set (t7 := sub m_special t6) in *.
  pose proof (join_split_length t7 []) as H8. cbn [List.length] in H8. lia.
Qed.

End CleanerProofs.

Module CleanerSpec.
Import Cleaner StrFacts CleanerProofs.

Example clean_text_sample :
  clean_text (PyStr (lit "Cost is HIGH!!! See [the wiki](http://x.org/w) &amp; /r/india *now* 123"))
  = lit "cost is high!!! see the wiki now".
Proof. vm_compute. reflexivity. Qed.

Example clean_text_not_a_string : clean_text PyNone = [].
Proof. reflexivity. Qed.

(** C9, refuted as stated: [clean_text] is not idempotent.  The asterisk in
    "h*ttpx" hides the word from the URL pattern on the first pass and is
    then removed as markdown, so the first pass returns "httpx"; the second
    pass removes that as a URL and returns the empty string. *)
Lemma clean_text_second_pass_differs :
  clean_text (PyStr (lit "h*ttpx")) = lit "httpx"
  /\ clean_text (PyStr (clean_text (PyStr (lit "h*ttpx")))) = []
  /\ clean_text (PyStr (clean_text (PyStr (lit "h*ttpx"))))
     <> clean_text (PyStr (lit "h*ttpx")).
Proof. vm_compute. repeat split; try reflexivity. discriminate. Qed.

(** C9, amended: cleaning a cleaned text again returns it unchanged
    exactly when it holds nothing the URL pattern still matches ("http" or
    "www" followed by a non-whitespace character); otherwise the second
    pass returns a shorter text. *)
Theorem clean_text_idempotent_iff_no_url_left (text : pyobj) :
  clean_text (PyStr (clean_text text)) = clean_text text
  <-> contains_url (clean_text text) = false.
Proof.
  destruct text as [s| | |]; try (split; reflexivity).
  cbn [clean_text].
  destruct (clean_str_shape s) as (ws & Hws & E). rewrite E. split.
  - intros Hfix. apply not_true_is_false. intros Hurl.
    pose proof (clean_str_shorter (join (lit " ") ws)) as Hlen.
    rewrite (lower_fixed (join_out_chars Hws)) in Hlen.
    specialize (Hlen Hurl). rewrite Hfix in Hlen. lia.
  - apply clean_str_fixed. exact Hws.
Qed.

Lemma clean_text_idempotent_iff_no_url_left_witness :
  contains_url (clean_text (PyStr (lit "Great *placements*, see http://a.b/c !"))) = false
  /\ clean_text (PyStr (clean_text (PyStr (lit "Great *placements*, see http://a.b/c !"))))
     = clean_text (PyStr (lit "Great *placements*, see http://a.b/c !")).
Proof.
  split.
  - vm_compute. reflexivity.
  - apply (clean_text_idempotent_iff_no_url_left
             (PyStr (lit "Great *placements*, see http://a.b/c !"))).
    vm_compute. reflexivity.
Defined.

End CleanerSpec.

(* ================================================================== *)
(** ** analyzer.py: the oracle adapter *)

Module AdapterProofs.
Import Analyzer.

Lemma lstrip_nil (s : str) :
  lstrip s = [] <-> forallb isspace s = true.
Proof.
  induction s as [|c r IH]; simpl; [tauto|].
  destruct (isspace c); simpl; [exact IH|].
  split; discriminate.
Qed.

Lemma lstrip_head (s : str) :
  match lstrip s with c :: _ => isspace c = false | [] => True end.
Proof.
  induction s as [|c r IH]; simpl; [exact I|].
  destruct (isspace c) eqn:E; [exact IH|exact E].
Qed.

Lemma forallb_rev {A} (f : A -> bool) (l : list A) :
  forallb f (rev l) = forallb f l.
Proof.
  induction l as [|x l IH]; [reflexivity|].
  simpl. rewrite forallb_app, IH. simpl. rewrite andb_true_r, andb_comm.
  reflexivity.
Qed.

(** [not text.strip()] holds exactly for the empty and the whitespace-only
    strings. *)
Lemma is_blank_spec (t : str) :
  is_blank t = true <-> forallb isspace t = true.
Proof.
  unfold is_blank, strip. split.
  - intros H.
    assert (E : lstrip (rev (lstrip t)) = []).
    { destruct (lstrip (rev (lstrip t))) as [|a l]; [reflexivity|].
      simpl in H. destruct (rev l ++ [a]) eqn:E2; [|discriminate].
      destruct (rev l); discriminate. }
    apply lstrip_nil in E. rewrite forallb_rev in E.
    pose proof (lstrip_head t) as Hh.
    destruct (lstrip t) as [|c r] eqn:El.
    + apply lstrip_nil. exact El.
    + simpl in E. rewrite Hh in E. discriminate.
  - intros H. apply lstrip_nil in H. rewrite H. reflexivity.
Qed.

(** The adapter returns a number on every input. *)
Lemma get_vader_sentiment_returns (env : environment) (text : pyobj) :
  exists q, value (get_vader_sentiment env text) = Return q.
Proof.
  unfold get_vader_sentiment, value.
  destruct (analyzer env) as [an|]; [|eexists; reflexivity].
  destruct text as [t| | |]; try (eexists; reflexivity).
  destruct (is_blank t); [eexists; reflexivity|].
  unfold call_polarity_scores, try_except, bind.
  destruct (an t) as [scores|e]; [|eexists; reflexivity].
  destruct (getitem scores (lit "compound")) as [[v|e] l];
    eexists; reflexivity.
Qed.

End AdapterProofs.

Module AdapterSpec.
Import Analyzer AdapterProofs.

(** Text that is not a string, or is empty or only whitespace. *)
Definition invalid_text (text : pyobj) : Prop :=
  match text with
  | PyStr t => forallb isspace t = true
  | _ => True
  end.

(** The oracle is invoked on [t] somewhere in the trace. *)
Definition invokes_oracle (l : list event) : Prop :=
  exists t, In (PolarityScores t) l.

(** A toy oracle for the examples: raises on "boom", forgets the compound
    key on "odd", and otherwise scores -1/2. *)
Definition toy_oracle (t : str) : outcome scores_dict :=
  if str_eqb t (lit "boom") then Raise (Exn (lit "ValueError") (lit "bad input"))
  else if str_eqb t (lit "odd") then Return [(lit "neg", 1%Q)]
  else Return [(lit "neg", 1%Q); (lit "compound", (-1 # 2)%Q)].

(** A toy tokenizer for the examples: one sentence per line. *)
Fixpoint lines_acc (w : str) (s : str) : list str :=
  match s with
  | [] => match w with [] => [] | _ => [w] end
  | c :: r => if is_newline c then w :: lines_acc [] r
              else lines_acc (w ++ [c]) r
  end.

Definition toy_env : environment :=
  {| analyzer := Some toy_oracle;
     sent_tokenize := fun t => Return (lines_acc [] t) |}.

(** The state of the module when the VADER lexicon is missing. *)
Definition env_without_analyzer : environment :=
  {| analyzer := None;
     sent_tokenize := fun t => Return (lines_acc [] t) |}.

Example score_of_text :
  get_vader_sentiment toy_env (PyStr (lit "bad food"))
  = (Return (-1 # 2)%Q, [PolarityScores (lit "bad food")]).
Proof. reflexivity. Qed.

Example score_when_oracle_raises :
  get_vader_sentiment toy_env (PyStr (lit "boom"))
  = (Return 0%Q,
     [PolarityScores (lit "boom");
      Print (lit "Error in VADER analysis for text snippet: 'boom...': bad input")]).
Proof. reflexivity. Qed.

(** C4: the adapter never raises; on input that is not a string, or is
    empty or whitespace-only, it returns 0.0 and the oracle is not invoked
    (nothing at all happens); and whenever the oracle raises, or its result
    lacks the compound score, it returns 0.0. *)
Theorem get_vader_sentiment_defensive (env : environment) (text : pyobj) :
  (exists q, value (get_vader_sentiment env text) = Return q)
  /\ (invalid_text text ->
      get_vader_sentiment env text = (Return 0%Q, [])
      /\ ~ invokes_oracle (trace (get_vader_sentiment env text)))
  /\ (forall an t e,
        analyzer env = Some an -> text = PyStr t -> an t = Raise e ->
        value (get_vader_sentiment env text) = Return 0%Q)
  /\ (forall an t scores e,
        analyzer env = Some an -> text = PyStr t -> an t = Return scores ->
        value (getitem scores (lit "compound")) = Raise e ->
        value (get_vader_sentiment env text) = Return 0%Q).
Proof.
  split; [apply get_vader_sentiment_returns|]. split; [|split].
  - intros Hinv.
    assert (E : get_vader_sentiment env text = (Return 0%Q, [])).
    { unfold get_vader_sentiment.
      destruct (analyzer env); [|reflexivity].
      destruct text as [t| | |]; try reflexivity.
      simpl in Hinv. apply is_blank_spec in Hinv. rewrite Hinv. reflexivity. }
    split; [exact E|]. rewrite E. intros [t []].
  - intros an t e Han -> Hraise. unfold get_vader_sentiment, value.
    rewrite Han. destruct (is_blank t); [reflexivity|].
    unfold call_polarity_scores, try_except, bind. rewrite Hraise. reflexivity.
  - intros an t scores e Han -> Hret Hkey. unfold get_vader_sentiment, value.
    rewrite Han. destruct (is_blank t); [reflexivity|].
    unfold call_polarity_scores, try_except, bind. rewrite Hret.
    unfold value in Hkey.
    destruct (getitem scores (lit "compound")) as [[v|e'] l];
      [discriminate|reflexivity].
Qed.

Lemma get_vader_sentiment_defensive_witness :
  invalid_text (PyStr (lit "   "))
  /\ get_vader_sentiment toy_env (PyStr (lit "   ")) = (Return 0%Q, [])
  /\ toy_oracle (lit "boom") = Raise (Exn (lit "ValueError") (lit "bad input"))
  /\ value (get_vader_sentiment toy_env (PyStr (lit "boom"))) = Return 0%Q.
Proof.
  split; [reflexivity|]. split.
  - apply (get_vader_sentiment_defensive toy_env (PyStr (lit "   "))).
    reflexivity.
  - split; [reflexivity|].
    destruct (get_vader_sentiment_defensive toy_env (PyStr (lit "boom")))
      as (_ & _ & H & _).
    apply (H toy_oracle (lit "boom") (Exn (lit "ValueError") (lit "bad input")));
      reflexivity.
Defined.

End AdapterSpec.

(* ================================================================== *)
(** ** analyzer.py: keyword matching *)

Module TaggerProofs.
Import Re Analyzer.

Lemma last_opt_cons (prev : option ascii) (c : ascii) (l : str) :
  last_opt prev (c :: l) = last_opt (Some c) l.
Proof.
  unfold last_opt. simpl. destruct (rev l); reflexivity.
Qed.

(** [re.search] succeeds exactly when the pattern matches at some split of
    the text. *)
Lemma search_from_spec (p : option ascii -> str -> bool) (s : str) :
  forall prev,
    search_from p prev s = true <->
    exists pre post, s = pre ++ post /\ p (last_opt prev pre) post = true.
Proof.
  induction s as [|c r IH]; intros prev; simpl.
  - rewrite orb_false_r. split.
    + intros H. exists [], []. split; [reflexivity|exact H].
    + intros (pre & post & E & H). symmetry in E.
      apply app_eq_nil in E. destruct E; subst. exact H.
  - rewrite orb_true_iff, IH. split.
    + intros [H|(pre & post & E & H)].
      * exists [], (c :: r). split; [reflexivity|exact H].
      * exists (c :: pre), post. split; [simpl; congruence|].
        rewrite last_opt_cons. exact H.
    + intros (pre & post & E & H). destruct pre as [|c' pre].
      * left. simpl in E. subst post. exact H.
      * right. simpl in E. injection E as <- ->.
        exists pre, post. split; [reflexivity|].
        rewrite last_opt_cons in H. exact H.
Qed.

Lemma starts_with_spec (l s : str) :
  starts_with l s = true <-> exists post, s = l ++ post.
Proof.
  revert s. induction l as [|x l IH]; intros s; simpl.
  - split; [intros _; exists s; reflexivity|reflexivity].
  - destruct s as [|y s].
    + split; [discriminate|intros [post E]; discriminate].
    + rewrite andb_true_iff, IH. unfold ascii_eqb. rewrite Ascii.eqb_eq.
      split.
      * intros [-> [post ->]]. exists post. reflexivity.
      * intros [post E]. injection E as -> ->. split; [reflexivity|].
        exists post. reflexivity.
Qed.

Lemma skipn_length_app {A} (l r : list A) : skipn (List.length l) (l ++ r) = r.
Proof. induction l; simpl; auto. Qed.

(** A keyword that begins and ends with a word character. *)
Definition proper (kw : str) : bool :=
  is_word_opt (head_opt kw) && is_word_opt (last_opt None kw).

Lemma keywords_proper (a : Aspect) (kw : str) :
  In kw (keywords a) -> proper kw = true.
Proof.
  assert (H : forallb proper (keywords a) = true)
    by (destruct a; vm_compute; reflexivity).
  rewrite forallb_forall in H. apply H.
Qed.

Lemma keyword_at_spec (kw : str) (prev : option ascii) (s : str) :
  proper kw = true ->
  keyword_at kw prev s = true <->
  exists post, s = kw ++ post
               /\ is_word_opt prev = false
               /\ is_word_opt (head_opt post) = false.
Proof.
  unfold proper, keyword_at. intros Hp.
  apply andb_true_iff in Hp. destruct Hp as [Hh Hl].
  destruct kw as [|k kw]; [discriminate|].
  assert (Hlast : forall p, last_opt p (k :: kw) = last_opt None (k :: kw)).
  { intros p. rewrite !last_opt_cons. reflexivity. }
  cbn [head_opt is_word_opt] in Hh.
  rewrite !andb_true_iff, starts_with_spec. split.
  - intros [[Hb [post ->]] He]. exists post. split; [reflexivity|].
    rewrite skipn_length_app, Hlast in He. unfold word_boundary in *.
    rewrite Hl in He. cbn [app head_opt is_word_opt] in Hb. rewrite Hh in Hb.
    destruct (is_word_opt prev), (is_word_opt (head_opt post));
      try discriminate; auto.
  - intros (post & -> & Hprev & Hnext). repeat split.
    + unfold word_boundary. cbn [app head_opt is_word_opt].
      rewrite Hh, Hprev. reflexivity.
    + exists post. reflexivity.
    + rewrite skipn_length_app, Hlast. unfold word_boundary.
      rewrite Hl, Hnext. reflexivity.
Qed.

End TaggerProofs.

Module TaggerSpec.
Import Re Analyzer TaggerProofs.

(** The test of the source, for one aspect and one sentence. *)
Definition mentions (a : Aspect) (sentence : str) : bool :=
  any_keyword (keywords a) (lower sentence).

(** [kw] occurs in [s] as a whole word: neither the character before the
    occurrence nor the one after it is a word character. *)
Definition occurs_as_word (kw s : str) : Prop :=
  exists pre post,
    s = pre ++ kw ++ post
    /\ is_word_opt (last_opt None pre) = false
    /\ is_word_opt (head_opt post) = false.

(** C3: a sentence is tagged with an aspect exactly when some keyword of
    the aspect occurs as a whole word in the lowercased sentence. *)
Theorem mentions_iff_whole_word (a : Aspect) (sentence : str) :
  mentions a sentence = true <->
  exists kw, In kw (keywords a) /\ occurs_as_word kw (lower sentence).
Proof.
  unfold mentions, any_keyword, re_search, occurs_as_word.
  rewrite existsb_exists. split.
  - intros (kw & Hin & H). exists kw. split; [exact Hin|].
    apply search_from_spec in H. destruct H as (pre & post & E & H).
    apply keyword_at_spec in H; [|eapply keywords_proper; eassumption].
    destruct H as (post' & -> & Hp & Hn). exists pre, post'. auto.
  - intros (kw & Hin & pre & post & E & Hp & Hn). exists kw.
    split; [exact Hin|]. apply search_from_spec.
    exists pre, (kw ++ post). split; [exact E|].
    apply keyword_at_spec; [eapply keywords_proper; eassumption|].
    exists post. auto.
Qed.

(** C3, the examples of the specification: "cost" inside "costume" does not
    tag the fees aspect, "cost" as a word does, in any letter case. *)
Example costume_is_not_fees :
  mentions fees (lit "The costume was great.") = false.
Proof. vm_compute. reflexivity. Qed.

Example cost_is_fees : mentions fees (lit "Cost is high") = true.
Proof. vm_compute. reflexivity. Qed.

Example two_word_keyword :
  mentions campus_life (lit "Loved the Campus Life here") = true
  /\ mentions placements (lit "strong alumni networking") = false.
Proof. vm_compute. split; reflexivity. Qed.

End TaggerSpec.

(* ================================================================== *)
(** ** analyzer.py: per-aspect scores of a document *)

Module AggregatorProofs.
Import Analyzer AdapterProofs TaggerSpec.

(** The number the adapter returns for a sentence. *)
Definition polarity (env : environment) (sentence : str) : Q :=
  match value (get_vader_sentiment env (PyStr sentence)) with
  | Return q => q
  | Raise _ => 0%Q
  end.

(** The mean of the accumulated scores, absent when there is none. *)
Definition mean_of (scores : list Q) : option Q :=
  match scores with
  | [] => None
  | _ :: _ => Some (Summarizer.mean scores)
  end.

Lemma get_vader_sentiment_value (env : environment) (sentence : str) :
  value (get_vader_sentiment env (PyStr sentence))
  = Return (polarity env sentence).
Proof.
  unfold polarity.
  destruct (get_vader_sentiment_returns env (PyStr sentence)) as [q ->].
  reflexivity.
Qed.

Lemma bind_value {A B} (m : M A) (f : A -> M B) (a : A) :
  value m = Return a -> value (bind m f) = value (f a).
Proof.
  destruct m as [[a'|e] l]; unfold value; simpl; intros H;
    [|discriminate].
  injection H as ->. destruct (f a). reflexivity.
Qed.

(** One pass over the aspects appends the score to every aspect whose
    keywords the sentence matches, and to no other. *)
Lemma tag_all_aspects (sl : str) (sc : Q) (acc : aspect_dict (list Q))
  (a : Aspect) :
  fold_left (tag_sentence sl sc) ASPECT_KEYWORDS acc a
  = if any_keyword (keywords a) sl then acc a ++ [sc] else acc a.
Proof.
  unfold ASPECT_KEYWORDS, aspects. cbn [map fold_left tag_sentence].
  destruct a;
    destruct (any_keyword (keywords academics) sl);
    destruct (any_keyword (keywords placements) sl);
    destruct (any_keyword (keywords infrastructure) sl);
    destruct (any_keyword (keywords campus_life) sl);
    destruct (any_keyword (keywords fees) sl);
    reflexivity.
Qed.

(** The accumulators after the loop over the sentences. *)
Lemma for_sentences_spec (env : environment) (sentences : list str) :
  forall acc0, exists acc,
    value (for_sentences env sentences acc0) = Return acc
    /\ forall a, acc a
                 = acc0 a ++ map (polarity env) (filter (mentions a) sentences).
Proof.
  induction sentences as [|s rest IH]; intros acc0.
  - exists acc0. split; [reflexivity|]. intros a. simpl.
    rewrite app_nil_r. reflexivity.
  - cbn [for_sentences].
    rewrite (bind_value _ _ (get_vader_sentiment_value env s)).
    destruct (IH (fold_left (tag_sentence (lower s) (polarity env s))
                            ASPECT_KEYWORDS acc0)) as (acc & Hv & Hacc).
    exists acc. split; [exact Hv|]. intros a.
    rewrite Hacc, tag_all_aspects. simpl filter. unfold mentions at 2.
    destruct (any_keyword (keywords a) (lower s)); simpl;
      [rewrite <- app_assoc|]; reflexivity.
Qed.

Lemma py_len_nonzero {A} (x : A) (l : list A) :
  Qeq_bool (py_len (x :: l)) 0 = false.
Proof.
  apply not_true_is_false. intros H. apply Qeq_bool_eq in H.
  unfold py_len, Qeq in H. simpl in H. lia.
Qed.

(** The effect of one round of the averaging loop on the result dict. *)
Definition averaged (acc : aspect_dict (list Q))
  (final : aspect_dict (option Q)) (a : Aspect) : aspect_dict (option Q) :=
  match acc a with
  | [] => final
  | _ :: _ => dict_set final a (Some (Summarizer.mean (acc a)))
  end.

Lemma average_into_value (acc : aspect_dict (list Q))
  (m : M (aspect_dict (option Q))) (final : aspect_dict (option Q))
  (a : Aspect) :
  value m = Return final ->
  value (average_into acc m a) = Return (averaged acc final a).
Proof.
  intros Hm. unfold average_into, averaged.
  rewrite (bind_value _ _ Hm).
  destruct (acc a) as [|x l]; [reflexivity|].
  unfold py_div. rewrite py_len_nonzero. reflexivity.
Qed.

Lemma average_loop_value (acc : aspect_dict (list Q)) (l : list Aspect) :
  forall m final,
    value m = Return final ->
    value (fold_left (average_into acc) l m)
    = Return (fold_left (averaged acc) l final).
Proof.
  induction l as [|a l IH]; intros m final Hm; [exact Hm|].
  simpl. apply IH. apply average_into_value. exact Hm.
Qed.

Lemma averaged_all (acc : aspect_dict (list Q)) (a : Aspect) :
  fold_left (averaged acc) aspects (dict_init None) a = mean_of (acc a).
Proof.
  unfold aspects, averaged, mean_of. cbn [fold_left].
  destruct a;
    destruct (acc academics); destruct (acc placements);
    destruct (acc infrastructure); destruct (acc campus_life);
    destruct (acc fees); reflexivity.
Qed.

(** The sentences the loop runs over: those the tokenizer returns for a
    string that is not blank; none when the text is not a string, is blank,
    or the tokenizer raises. *)
Definition sentences_of (env : environment) (text : pyobj) : list str :=
  match text with
  | PyStr t =>
      if is_blank t then []
      else match sent_tokenize env t with
           | Return sentences => sentences
           | Raise _ => []
           end
  | _ => []
  end.

(** The result of [analyze_aspect_sentiment] in every case. *)
Lemma analyze_aspect_sentiment_value (env : environment) (text : pyobj) :
  exists scores,
    value (analyze_aspect_sentiment env text) = Return scores
    /\ forall a,
         scores a
         = match analyzer env with
           | None => None
           | Some _ =>
               mean_of (map (polarity env)
                            (filter (mentions a) (sentences_of env text)))
           end.
Proof.
  unfold analyze_aspect_sentiment, sentences_of.
  destruct (analyzer env) as [an|] eqn:Han;
    [|exists (dict_init None); split; reflexivity].
  destruct text as [t| | |];
    try (exists (dict_init None); split; reflexivity).
  destruct (is_blank t); [exists (dict_init None); split; reflexivity|].
  destruct (sent_tokenize env t) as [sentences|e];
    [|exists (dict_init None); split; reflexivity].
  destruct (for_sentences_spec env sentences (dict_init []))
    as (acc & Hv & Hacc).
  exists (fold_left (averaged acc) aspects (dict_init None)). split.
  - rewrite (bind_value _ _ Hv). apply average_loop_value. reflexivity.
  - intros a. rewrite averaged_all, Hacc. reflexivity.
Qed.

Lemma mean_of_present (l : list Q) : mean_of l <> None <-> l <> [].
Proof.
  destruct l; simpl; split; intros H; try congruence; discriminate.
Qed.

End AggregatorProofs.

Module AggregatorSpec.
Import Analyzer AdapterSpec TaggerSpec AggregatorProofs.

Example both_aspects_example :
  exists acc,
    value (for_sentences toy_env
             [lit "The academics are great but the hostel food is bad"]
             (dict_init []))
    = Return acc
    /\ acc academics = [(-1 # 2)%Q] /\ acc infrastructure = [(-1 # 2)%Q]
    /\ acc placements = [] /\ acc campus_life = [] /\ acc fees = [].
Proof. eexists. split; [reflexivity|]. vm_compute. repeat split. Qed.

(** C2: in the loop over the sentences, a sentence contributes one value,
    its polarity, to the accumulator of every aspect whose keywords it
    matches and to no other accumulator; the accumulators of two aspects
    matched by the same sentence receive the same value. *)
Theorem sentence_score_goes_to_every_matched_aspect
  (env : environment) (before : list str) (sentence : str) (after : list str)
  (acc0 : aspect_dict (list Q)) :
  exists acc,
    value (for_sentences env (before ++ sentence :: after) acc0) = Return acc
    /\ forall a,
         acc a
         = (acc0 a ++ map (polarity env) (filter (mentions a) before))
           ++ (if mentions a sentence then [polarity env sentence] else [])
           ++ map (polarity env) (filter (mentions a) after).
Proof.
  destruct (for_sentences_spec env (before ++ sentence :: after) acc0)
    as (acc & Hv & Hacc).
  exists acc. split; [exact Hv|]. intros a.
  rewrite Hacc, filter_app, map_app, <- app_assoc. simpl filter.
  destruct (mentions a sentence); reflexivity.
Qed.

(** C1, refuted as stated: when the analyzer is unavailable the guard
    returns every aspect absent, although a sentence of the text matches
    the aspect. *)
Lemma matched_aspect_absent_without_analyzer :
  sent_tokenize env_without_analyzer (lit "cost is high")
  = Return [lit "cost is high"]
  /\ mentions fees (lit "cost is high") = true
  /\ exists scores,
       value (analyze_aspect_sentiment env_without_analyzer
                (PyStr (lit "cost is high"))) = Return scores
       /\ scores fees = None.
Proof.
  split; [reflexivity|]. split; [vm_compute; reflexivity|].
  eexists. split; reflexivity.
Qed.

(** C1, amended: [analyze_aspect_sentiment] always returns a dict.  When
    the analyzer is unavailable every aspect is absent.  When it is
    available, an aspect's score is present if and only if at least one
    sentence of the text matched the aspect's keywords, and it is then the
    arithmetic mean of the polarities of exactly the matching sentences;
    an absent score is null, never 0.0. *)
Theorem aspect_score_is_mean_of_matching_sentences
  (env : environment) (text : pyobj) :
  exists scores,
    value (analyze_aspect_sentiment env text) = Return scores
    /\ (analyzer env = None -> forall a, scores a = None)
    /\ (analyzer env <> None ->
        forall a,
          let matching := filter (mentions a) (sentences_of env text) in
          (scores a <> None <-> exists s, In s matching)
          /\ (matching = [] -> scores a = None)
          /\ (matching <> [] ->
              scores a = Some (Summarizer.mean (map (polarity env) matching)))).
Proof.
  destruct (analyze_aspect_sentiment_value env text) as (scores & Hv & Hs).
  exists scores. split; [exact Hv|]. split.
  - intros Hnone a. rewrite Hs, Hnone. reflexivity.
  - intros Hsome a. cbv zeta. rewrite Hs.
    destruct (analyzer env); [clear Hsome|contradiction].
    destruct (filter (mentions a) (sentences_of env text)) as [|s l].
    + simpl. split; [|split; [reflexivity|contradiction]].
      split; [contradiction|intros [s []]].
    + simpl. split; [|split; [discriminate|reflexivity]].
      split; [intros _; exists s; left; reflexivity|discriminate].
Qed.

(** At a neutral sentence the score is present and is 0.0; aspects the
    text does not mention are absent. *)
Lemma aspect_score_is_mean_of_matching_sentences_witness :
  exists scores,
    value (analyze_aspect_sentiment
             {| analyzer := Some (fun _ => Return [(lit "compound", 0%Q)]);
                sent_tokenize := fun t => Return [t] |}
             (PyStr (lit "The fee is due in June")))
    = Return scores
    /\ scores fees = Some 0%Q
    /\ scores academics = None.
Proof.
  destruct (aspect_score_is_mean_of_matching_sentences
              {| analyzer := Some (fun _ => Return [(lit "compound", 0%Q)]);
                 sent_tokenize := fun t => Return [t] |}
              (PyStr (lit "The fee is due in June")))
    as (scores & Hv & _ & H).
  exists scores. split; [exact Hv|].
  assert (Hne : Some (fun _ : str => Return [(lit "compound", 0%Q)])
                <> (None : option (str -> outcome scores_dict)))
    by discriminate.
  split.
  - destruct (H Hne fees) as (_ & _ & Hm). apply Hm. vm_compute. discriminate.
  - destruct (H Hne academics) as (_ & Hm & _). apply Hm. vm_compute.
    reflexivity.
Defined.

End AggregatorSpec.

(* ================================================================== *)
(** ** summarizer.py: frames, groups and coercion *)

Module FrameProofs.
Import Analyzer Summarizer.

Lemma str_eqb_eq (a b : str) : str_eqb a b = true <-> a = b.
Proof.
  revert b. induction a as [|x a IH]; intros [|y b]; simpl;
    try (split; [discriminate|discriminate]); [tauto|].
  rewrite andb_true_iff, IH. unfold ascii_eqb. rewrite Ascii.eqb_eq.
  split; [intros [-> ->]; reflexivity|intros E; injection E; auto].
Qed.

Lemma str_eqb_refl (a : str) : str_eqb a a = true.
Proof. apply str_eqb_eq. reflexivity. Qed.

Lemma aspect_eqb_eq (a b : Aspect) : aspect_eqb a b = true <-> a = b.
Proof. destruct a, b; simpl; split; intros H; congruence. Qed.

(** Value stored under a key in an association list (a dict, or the rows
    of a frame indexed by entity). *)
Fixpoint lookup {V} (k : str) (l : list (str * V)) : option V :=
  match l with
  | [] => None
  | (k', v) :: r => if str_eqb k' k then Some v else lookup k r
  end.

Lemma insert_key_In (k x : str) (ks : list str) :
  In x (insert_key k ks) <-> x = k \/ In x ks.
Proof.
  induction ks as [|k' r IH]; simpl; [intuition|].
  destruct (str_eqb k k') eqn:E.
  - apply str_eqb_eq in E. subst k'. simpl. intuition.
  - destruct (str_leb k k'); simpl; [intuition|].
    rewrite IH. intuition.
Qed.

Lemma group_keys_In (x : str) (keys : list (option str)) :
  In x (group_keys keys) <-> In (Some x) keys.
Proof.
  induction keys as [|[k|] r IH]; simpl; [tauto| |].
  - rewrite insert_key_In, IH. split.
    + intros [->|H]; auto.
    + intros [E|H]; [injection E as ->; auto|auto].
  - rewrite IH. split; [auto|intros [E|H]; [discriminate|exact H]].
Qed.

(** An entity has a group exactly when it owns a record. *)
Lemma group_exists (e : str) (rs : list Row) :
  In e (group_keys (map college_name_approx rs))
  <-> filter (in_group e) rs <> [].
Proof.
  rewrite group_keys_In, in_map_iff. split.
  - intros (r & Hr & Hin) Hnil.
    assert (H : In r (filter (in_group e) rs)).
    { apply filter_In. split; [exact Hin|]. unfold in_group.
      rewrite Hr. apply str_eqb_refl. }
    rewrite Hnil in H. exact H.
  - intros Hne. destruct (filter (in_group e) rs) as [|r l] eqn:E;
      [contradiction|].
    assert (H : In r (filter (in_group e) rs)) by (rewrite E; left; reflexivity).
    apply filter_In in H. destruct H as [Hin Hg]. exists r.
    split; [|exact Hin]. unfold in_group in Hg.
    destruct (college_name_approx r) as [s|]; [|discriminate].
    apply str_eqb_eq in Hg. congruence.
Qed.

(** Lookup in a table built key by key, after rows were dropped. *)
Lemma lookup_filter_map {V} (f : str -> V) (keep : str * V -> bool)
  (e : str) (ks : list str) :
  lookup e (filter keep (map (fun k => (k, f k)) ks))
  = if existsb (str_eqb e) ks && keep (e, f e) then Some (f e) else None.
Proof.
  induction ks as [|k r IH]; [reflexivity|]. simpl.
  destruct (str_eqb e k) eqn:E.
  - apply str_eqb_eq in E. subst k. simpl.
    destruct (keep (e, f e)) eqn:K.
    + simpl. rewrite str_eqb_refl. reflexivity.
    + rewrite IH, andb_false_r. reflexivity.
  - simpl. destruct (keep (k, f k)); [|exact IH].
    simpl. destruct (str_eqb k e) eqn:E'; [|exact IH].
    apply str_eqb_eq in E'. subst k. rewrite str_eqb_refl in E. discriminate.
Qed.

Lemma existsb_str_In (e : str) (ks : list str) :
  existsb (str_eqb e) ks = true <-> In e ks.
Proof.
  rewrite existsb_exists. split.
  - intros (k & Hin & E). apply str_eqb_eq in E. subst. exact Hin.
  - intros Hin. exists e. split; [exact Hin|apply str_eqb_refl].
Qed.

Lemma row_eta (r : Row) :
  mkRow (label r) (college_name_approx r) (created_utc r) (text r)
        (permalink r) (compound_sentiment r) (academics_sentiment r)
        (placements_sentiment r) (infrastructure_sentiment r)
        (campus_life_sentiment r) (fees_sentiment r) = r.
Proof. destruct r. reflexivity. Qed.

Lemma frame_eta (df : DataFrame) : mkDataFrame (columns df) (rows df) = df.
Proof. destruct df. reflexivity. Qed.

Lemma map_fixed {A} (f : A -> A) (l : list A) :
  (forall x, In x l -> f x = x) -> map f l = l.
Proof.
  induction l as [|x l IH]; intros H; [reflexivity|].
  simpl. rewrite (H x (or_introl eq_refl)), IH; [reflexivity|].
  intros y Hy. apply H. right. exact Hy.
Qed.

(** A frame that has a column and is empty has no record. *)
Lemma empty_rows (df : DataFrame) (col : str) :
  has_col df col = true -> empty df = true -> rows df = [].
Proof.
  unfold has_col, empty. destruct (rows df); [reflexivity|].
  destruct (columns df); [discriminate|discriminate].
Qed.

Section Coercion.
Variable parse_float : str -> option Q.

Lemma to_numeric_fixed (c : cell) :
  is_float c = true -> to_numeric parse_float c = c.
Proof. destruct c; try reflexivity; discriminate. Qed.

Lemma to_numeric_float (c : cell) :
  is_float (to_numeric parse_float c) = true.
Proof. destruct c; simpl; try reflexivity. destruct (parse_float s); reflexivity. Qed.

Lemma to_numeric_not_text (c : cell) :
  is_text (to_numeric parse_float c) = false.
Proof. destruct c; simpl; try reflexivity. destruct (parse_float s); reflexivity. Qed.

Lemma to_numeric_idempotent (c : cell) :
  to_numeric parse_float (to_numeric parse_float c) = to_numeric parse_float c.
Proof. apply to_numeric_fixed, to_numeric_float. Qed.

Lemma set_aspect_cell_same (a : Aspect) (r : Row) :
  set_aspect_cell a (aspect_cell a r) r = r.
Proof. destruct a, r; reflexivity. Qed.

(** The records after the aspect columns [cols] were coerced. *)
Definition coerce_row (cols : list Aspect) (r : Row) : Row :=
  fold_left (fun r a => set_aspect_cell a (to_numeric parse_float (aspect_cell a r)) r)
            cols r.

Lemma coerce_aspects_rows (cols : list Aspect) :
  forall df,
    fold_left (coerce_aspect parse_float) cols df
    = mkDataFrame (columns df) (map (coerce_row cols) (rows df)).
Proof.
  induction cols as [|a cols IH]; intros df; simpl.
  - rewrite map_id. symmetry. apply frame_eta.
  - rewrite IH. unfold coerce_aspect. simpl. rewrite map_map. reflexivity.
Qed.

Lemma coerce_row_college (cols : list Aspect) :
  forall r, college_name_approx (coerce_row cols r) = college_name_approx r.
Proof.
  induction cols as [|a cols IH]; intros r; [reflexivity|].
  simpl. unfold coerce_row in IH. rewrite IH. reflexivity.
Qed.

Lemma aspect_cell_set (a b : Aspect) (v : cell) (r : Row) :
  aspect_cell b (set_aspect_cell a v r)
  = if aspect_eqb a b then v else aspect_cell b r.
Proof. destruct a, b; reflexivity. Qed.

(** After the coercion a cell holds the number read from the original
    cell, if its column was coerced, and the original cell otherwise. *)
Lemma coerce_row_cell (cols : list Aspect) (b : Aspect) :
  forall r,
    aspect_cell b (coerce_row cols r)
    = if existsb (fun a => aspect_eqb a b) cols
      then to_numeric parse_float (aspect_cell b r)
      else aspect_cell b r.
Proof.
  induction cols as [|a cols IH]; intros r; [reflexivity|].
  simpl. unfold coerce_row in IH. rewrite IH, aspect_cell_set.
  destruct (aspect_eqb a b) eqn:E; simpl.
  - apply aspect_eqb_eq in E. subst a.
    rewrite to_numeric_idempotent. destruct (existsb _ cols); reflexivity.
  - reflexivity.
Qed.

Lemma in_group_coerced (cols : list Aspect) (e : str) (r : Row) :
  in_group e (coerce_row cols r) = in_group e r.
Proof. unfold in_group. rewrite coerce_row_college. reflexivity. Qed.

Lemma filter_in_group_coerced (cols : list Aspect) (e : str) (rs : list Row) :
  filter (in_group e) (map (coerce_row cols) rs)
  = map (coerce_row cols) (filter (in_group e) rs).
Proof.
  induction rs as [|r rs IH]; [reflexivity|]. simpl.
  rewrite in_group_coerced.
  destruct (in_group e r); simpl; rewrite IH; reflexivity.
Qed.

End Coercion.

End FrameProofs.

(* ================================================================== *)
(** ** summarizer.py: aspect means per entity *)

Module AspectSummarySpec.
Import Analyzer Summarizer FrameProofs AggregatorProofs.

Lemma series_mean_mean_of (cs : list cell) :
  series_mean cs = mean_of (numbers cs).
Proof. unfold series_mean, mean_of. destruct (numbers cs); reflexivity. Qed.

Lemma all_null_means (cols : list Aspect) (g : list Row) :
  all_null (aspect_means cols g) = true
  <-> forall a, In a cols -> numbers (map (aspect_cell a) g) = [].
Proof.
  unfold all_null, aspect_means. rewrite forallb_forall. split.
  - intros H a Ha.
    destruct (numbers (map (aspect_cell a) g)) eqn:E; [reflexivity|].
    assert (Hin : In (a, series_mean (map (aspect_cell a) g))
                     (map (fun a => (a, series_mean (map (aspect_cell a) g))) cols)).
    { apply in_map_iff. exists a. split; [reflexivity|exact Ha]. }
    apply H in Hin. simpl in Hin. unfold series_mean in Hin.
    rewrite E in Hin. discriminate.
  - intros H p Hp. apply in_map_iff in Hp. destruct Hp as (a & <- & Ha).
    simpl. unfold series_mean. rewrite (H a Ha). reflexivity.
Qed.

Lemma match_nonempty {A B} (l : list A) (x y : B) :
  l <> [] -> match l with [] => x | _ :: _ => y end = y.
Proof. destruct l; [contradiction|reflexivity]. Qed.

Section WithParser.
Variable parse_float : str -> option Q.

(** A document's score for an aspect, as the function reads it: the number
    in the cell, null otherwise. *)
Definition score (a : Aspect) (r : Row) : cell :=
  to_numeric parse_float (aspect_cell a r).

(** The non-null scores, for one aspect, of the documents of one entity. *)
Definition entity_scores (df : DataFrame) (e : str) (a : Aspect) : list Q :=
  numbers (map (score a) (filter (in_group e) (rows df))).

Definition summary (df : DataFrame) : list (str * list (Aspect * option Q)) :=
  fst (calculate_aspect_sentiment_summary parse_float df).

Lemma coerced_scores (cols : list Aspect) (a : Aspect) (g : list Row) :
  In a cols ->
  map (aspect_cell a) (map (coerce_row parse_float cols) g) = map (score a) g.
Proof.
  intros Ha. rewrite map_map. apply map_ext. intros r.
  rewrite coerce_row_cell.
  assert (E : existsb (fun c => aspect_eqb c a) cols = true).
  { apply existsb_exists. exists a. split; [exact Ha|].
    apply aspect_eqb_eq. reflexivity. }
  rewrite E. reflexivity.
Qed.

Lemma summary_lookup (df : DataFrame) (e : str) :
  has_col df college_col = true -> empty df = false ->
  aspect_cols df <> [] ->
  let cells := map (fun a => (a, mean_of (entity_scores df e a)))
                   (aspect_cols df) in
  lookup e (summary df)
  = if existsb (fun a => match entity_scores df e a with
                         | [] => false
                         | _ :: _ => true
                         end) (aspect_cols df)
    then Some cells else None.
Proof.
  intros Hc He Hcols cells. unfold summary, calculate_aspect_sentiment_summary.
  rewrite Hc, He. simpl negb. simpl orb. cbv iota zeta.
  rewrite (match_nonempty _ _ Hcols).
  cbn [fst]. rewrite coerce_aspects_rows. cbn [rows].
  unfold groupby. rewrite !map_map. cbn [fst snd].
  rewrite (map_ext _ _ (coerce_row_college parse_float (aspect_cols df))).
  rewrite (lookup_filter_map
             (fun k => aspect_means (aspect_cols df)
                         (filter (in_group k)
                                 (map (coerce_row parse_float (aspect_cols df))
                                      (rows df))))
             (fun e0 => negb (all_null (snd e0)))).
  cbn [snd]. rewrite filter_in_group_coerced.
  set (g := filter (in_group e) (rows df)).
  assert (Hmeans : aspect_means (aspect_cols df)
                     (map (coerce_row parse_float (aspect_cols df)) g) = cells).
  { unfold aspect_means, cells. apply map_ext_in. intros a Ha.
    rewrite series_mean_mean_of, coerced_scores by exact Ha. reflexivity. }
  rewrite Hmeans.
  assert (Hnull : negb (all_null cells)
                  = existsb (fun a => match entity_scores df e a with
                                      | [] => false
                                      | _ :: _ => true
                                      end) (aspect_cols df)).
  { unfold cells, all_null. clear.
    induction (aspect_cols df) as [|a l IH]; [reflexivity|].
    simpl. rewrite negb_andb, IH.
    destruct (entity_scores df e a); reflexivity. }
  rewrite Hnull.
  destruct (existsb _ (aspect_cols df)) eqn:Ex;
    [|rewrite andb_false_r; reflexivity].
  rewrite andb_true_r.
  assert (Hin : existsb (str_eqb e) (group_keys (map college_name_approx (rows df))) = true).
  { apply existsb_str_In. apply group_exists. fold g.
    apply existsb_exists in Ex. destruct Ex as (a & _ & Ha).
    intros Hg. unfold entity_scores in Ha. fold g in Ha. rewrite Hg in Ha.
    discriminate. }
  rewrite Hin. reflexivity.
Qed.

(** C5: in the aspect-by-entity summary, the row of an entity is present
    exactly when some aspect column has a non-null score among the entity's
    documents; each cell of a present row is the mean of the entity's
    non-null scores for that aspect (nulls count neither in the sum nor in
    the count) and is null when there is none. *)
Theorem aspect_cell_is_mean_over_present_scores (df : DataFrame) (e : str) :
  has_col df college_col = true ->
  match lookup e (summary df) with
  | Some cells =>
      cells = map (fun a => (a, mean_of (entity_scores df e a)))
                  (aspect_cols df)
      /\ exists a, In a (aspect_cols df) /\ entity_scores df e a <> []
  | None =>
      forall a, In a (aspect_cols df) -> mean_of (entity_scores df e a) = None
  end.
Proof.
  intros Hc. destruct (empty df) eqn:He.
  { unfold summary, calculate_aspect_sentiment_summary.
    rewrite Hc, He. simpl. intros a _.
    unfold entity_scores. rewrite (empty_rows df _ Hc He). reflexivity. }
  destruct (aspect_cols df) as [|a0 cols0] eqn:Hcols.
  { unfold summary, calculate_aspect_sentiment_summary.
    rewrite Hc, He, Hcols. simpl. intros a []. }
  rewrite <- Hcols.
  assert (Hne : aspect_cols df <> []) by (rewrite Hcols; discriminate).
  clear Hcols.
  rewrite (summary_lookup df e Hc He Hne). cbv zeta.
  destruct (existsb _ (aspect_cols df)) eqn:Ex.
  - split; [reflexivity|]. apply existsb_exists in Ex.
    destruct Ex as (a & Ha & Hs). exists a. split; [exact Ha|].
    destruct (entity_scores df e a); [discriminate|discriminate].
  - intros a Ha.
    assert (H : forall x, In x (aspect_cols df) ->
                          match entity_scores df e x with
                          | [] => false | _ :: _ => true end = false).
    { intros x Hx. destruct (match entity_scores df e x with
                             | [] => false | _ :: _ => true end) eqn:E;
        [|reflexivity].
      rewrite <- Ex. symmetry. apply existsb_exists. exists x. auto. }
    specialize (H a Ha). destruct (entity_scores df e a); [reflexivity|discriminate].
Qed.

End WithParser.

(** Three documents of entity E whose fees scores are null, null and 0.4,
    and one document of entity F with no score at all. *)
Definition doc (i : nat) (e : string) (fee : cell) : Row :=
  mkRow i (Some (lit e)) (Some 0%Z) (lit "text") (lit "link") (CNum 0%Q)
        CNull CNull CNull CNull fee.

Definition fees_frame : DataFrame :=
  mkDataFrame
    [college_col; sentiment_col; lit "fees_sentiment"; lit "academics_sentiment"]
    [doc 0 "E" CNull; doc 1 "F" CNull; doc 2 "E" CNull;
     doc 3 "E" (CNum (4 # 10)%Q)].

Definition reads_nothing : str -> option Q := fun _ => None.

Example fees_mean_excludes_nulls :
  summary reads_nothing fees_frame
  = [(lit "E", [(fees, Some (4 # 10)%Q); (academics, None)])]
  /\ ~ ((4 # 10) == (4 # 10) / 3)%Q.
Proof. split; [vm_compute; reflexivity|]. intros H. vm_compute in H. discriminate. Qed.

Lemma aspect_cell_is_mean_over_present_scores_witness :
  match lookup (lit "E") (summary reads_nothing fees_frame) with
  | Some cells =>
      cells = map (fun a => (a, mean_of (entity_scores reads_nothing
                                            fees_frame (lit "E") a)))
                  (aspect_cols fees_frame)
      /\ exists a, In a (aspect_cols fees_frame)
                   /\ entity_scores reads_nothing fees_frame (lit "E") a <> []
  | None =>
      forall a, In a (aspect_cols fees_frame) ->
                mean_of (entity_scores reads_nothing fees_frame (lit "E") a) = None
  end.
Proof.
  apply (aspect_cell_is_mean_over_present_scores reads_nothing fees_frame
           (lit "E")).
  reflexivity.
Defined.

End AspectSummarySpec.

(* ================================================================== *)
(** ** summarizer.py: what [sort_values] guarantees *)

Module Sorting.
Import Summarizer.

(** The order [sort_values] puts two keys in: by value, ascending or
    descending, with nulls last. *)
Definition key_leb (asc : bool) (x y : option Q) : bool :=
  match x, y with
  | Some a, Some b => if asc then Qle_bool a b else Qle_bool b a
  | _, None => true
  | None, Some _ => false
  end.

Definition in_order {A} (key : A -> option Q) (asc : bool) (x y : A) : Prop :=
  key_leb asc (key x) (key y) = true.

(** What the default algorithm of [sort_values] promises: the same records,
    in order of the key.  The order between records of equal key is not
    part of the promise (the default, quicksort, is not a stable sort). *)
Record sort_contract
  (sort : forall A : Type, (A -> option Q) -> bool -> list A -> list A)
  : Prop := {
  sort_perm : forall A key asc (l : list A), Permutation (sort A key asc l) l;
  sort_sorted : forall A key asc (l : list A),
      Sorted (in_order key asc) (sort A key asc l)
}.

(** A sort that keeps the promise: it inserts the records one by one,
    from the last to the first, into a sorted list, and leaves equal keys
    in their original order. *)
Fixpoint insert {A} (key : A -> option Q) (asc : bool) (x : A) (l : list A)
  : list A :=
  match l with
  | [] => [x]
  | y :: r => if key_leb asc (key x) (key y) then x :: l
              else y :: insert key asc x r
  end.

Definition stable_sort (A : Type) (key : A -> option Q) (asc : bool)
  (l : list A) : list A :=
  fold_right (insert key asc) [] l.

Lemma Qle_bool_total (a b : Q) : Qle_bool a b = false -> Qle_bool b a = true.
Proof.
  intros H. apply Qle_bool_iff. apply Qlt_le_weak. apply Qnot_le_lt.
  intros Hle. apply Qle_bool_iff in Hle. congruence.
Qed.

Lemma key_leb_total (asc : bool) (x y : option Q) :
  key_leb asc x y = false -> key_leb asc y x = true.
Proof.
  destruct x as [a|], y as [b|]; simpl; try discriminate; try reflexivity.
  destruct asc; apply Qle_bool_total.
Qed.

Lemma key_leb_trans (asc : bool) (x y z : option Q) :
  key_leb asc x y = true -> key_leb asc y z = true -> key_leb asc x z = true.
Proof.
  destruct x as [a|], y as [b|], z as [c|]; simpl;
    try discriminate; try reflexivity.
  destruct asc; rewrite !Qle_bool_iff; intros H1 H2.
  - eapply Qle_trans; eassumption.
  - eapply Qle_trans; eassumption.
Qed.

Section Insertion.
Context {A : Type} (key : A -> option Q) (asc : bool).

Lemma insert_perm (x : A) (l : list A) :
  Permutation (insert key asc x l) (x :: l).
Proof.
  induction l as [|y r IH]; simpl; [reflexivity|].
  destruct (key_leb asc (key x) (key y)); [reflexivity|].
  rewrite IH. apply perm_swap.
Qed.

Lemma insert_hd (x y : A) (l : list A) :
  in_order key asc y x -> HdRel (in_order key asc) y l ->
  HdRel (in_order key asc) y (insert key asc x l).
Proof.
  intros Hyx Hl. destruct l as [|z r]; simpl; [constructor; exact Hyx|].
  destruct (key_leb asc (key x) (key z)); constructor;
    [exact Hyx|inversion Hl; assumption].
Qed.

Lemma insert_sorted (x : A) (l : list A) :
  Sorted (in_order key asc) l -> Sorted (in_order key asc) (insert key asc x l).
Proof.
  induction 1 as [|y r Hr IH Hhd]; simpl; [repeat constructor|].
  destruct (key_leb asc (key x) (key y)) eqn:E.
  - constructor; [constructor; assumption|constructor; exact E].
  - constructor; [exact IH|].
    apply insert_hd; [|exact Hhd]. apply key_leb_total. exact E.
Qed.

End Insertion.

Lemma stable_sort_contract : sort_contract stable_sort.
Proof.
  split; intros A key asc l; unfold stable_sort.
  - induction l as [|x l IH]; simpl; [reflexivity|].
    rewrite insert_perm, IH. reflexivity.
  - induction l as [|x l IH]; simpl; [constructor|].
    apply insert_sorted, IH.
Qed.

(** A sorted list is ordered at every pair of positions. *)
Lemma sorted_strongly {A} (key : A -> option Q) (asc : bool) (l : list A) :
  Sorted (in_order key asc) l -> StronglySorted (in_order key asc) l.
Proof.
  apply Sorted_StronglySorted. intros x y z. unfold in_order.
  apply key_leb_trans.
Qed.

Lemma strongly_sorted_app {A} (R : A -> A -> Prop) (l1 l2 : list A) :
  StronglySorted R (l1 ++ l2) ->
  StronglySorted R l1 /\ StronglySorted R l2
  /\ forall x y, In x l1 -> In y l2 -> R x y.
Proof.
  induction l1 as [|a l1 IH]; simpl; intros H.
  - repeat split; [constructor|exact H|contradiction].
  - inversion H as [|? ? Hs Hall]; subst.
    destruct (IH Hs) as (H1 & H2 & H12).
    rewrite Forall_app in Hall. destruct Hall as [Ha1 Ha2].
    repeat split; [constructor; assumption|exact H2|].
    intros x y [<-|Hx] Hy; [|auto].
    rewrite Forall_forall in Ha2. apply Ha2. exact Hy.
Qed.

End Sorting.

(* ================================================================== *)
(** ** The default sort of pandas *)

Module NumpySort.

(** The sort [sort_values] runs by default, for a frame sorted by one
    column: pandas' [nargsort] over numpy's quicksort, which is an
    introsort (quicksort by median of three, insertion sort for parts of
    at most 17 elements, heapsort when the depth limit is used up).  The
    generic routine is modelled, on the elements in place of their
    indices; builds of numpy that dispatch to a vectorised routine
    partition in another order. *)

Section Quicksort.
Variable X : Type.

(** [v[a] < v[b]] on the keys of two elements. *)
Variable less : X -> X -> bool.

(** The element used where an index is out of the array; the indices of
    the algorithm never are. *)
Variable d : X.

Definition get (a : list X) (i : nat) : X := nth i a d.

Definition set (a : list X) (i : nat) (x : X) : list X :=
  firstn i a ++ x :: skipn (S i) a.

Definition swap (a : list X) (i j : nat) : list X :=
  set (set a i (get a j)) j (get a i).

(** [do { ++pi; } while (less(v[*pi], vp));] *)
Fixpoint scan_up (fuel : nat) (a : list X) (vp : X) (pi : nat) : nat :=
  match fuel with
  | 0 => pi
  | S fuel =>
      let pi := S pi in
      if less (get a pi) vp then scan_up fuel a vp pi else pi
  end.

(** [do { --pj; } while (less(vp, v[*pj]));] *)
Fixpoint scan_down (fuel : nat) (a : list X) (vp : X) (pj : nat) : nat :=
  match fuel with
  | 0 => pj
  | S fuel =>
      let pj := pred pj in
      if less vp (get a pj) then scan_down fuel a vp pj else pj
  end.

(** The [for (;;)] of the partition: scan from both ends, swap, until the
    scans meet. *)
Fixpoint partition_loop (fuel : nat) (a : list X) (vp : X) (pi pj : nat)
  : list X * nat :=
  match fuel with
  | 0 => (a, pi)
  | S fuel =>
      let pi := scan_up (List.length a) a vp pi in
      let pj := scan_down (List.length a) a vp pj in
      if pj <=? pi then (a, pi)
      else partition_loop fuel (swap a pi pj) vp pi pj
  end.

(** One partition of [pl..pr]: the median of the first, middle and last
    element goes to [pr - 1] as the pivot; returns the array and the final
    place of the pivot. *)
Definition partition (a : list X) (pl pr : nat) : list X * nat :=
  let pm := pl + (pr - pl) / 2 in
  let a := if less (get a pm) (get a pl) then swap a pm pl else a in
  let a := if less (get a pr) (get a pm) then swap a pr pm else a in
  let a := if less (get a pm) (get a pl) then swap a pm pl else a in
  let vp := get a pm in
  let pj := pr - 1 in
  let a := swap a pm pj in
  let '(a, pi) := partition_loop (List.length a) a vp pl pj in
  (swap a pi (pr - 1), pi).

(** The inner [while (pj > pl && less(vp, v[*pk]))] of the insertion sort,
    and the store after it. *)
Fixpoint shift_down (fuel : nat) (a : list X) (pl : nat) (vi : X) (pj : nat)
  : list X :=
  match fuel with
  | 0 => set a pj vi
  | S fuel =>
      if (pl <? pj) && less vi (get a (pj - 1))
      then shift_down fuel (set a pj (get a (pj - 1))) pl vi (pj - 1)
      else set a pj vi
  end.

(** [for (pi = pl + 1; pi <= pr; ++pi)], with [n] iterations left. *)
Fixpoint insertion (n : nat) (a : list X) (pl pi : nat) : list X :=
  match n with
  | 0 => a
  | S n =>
      insertion n (shift_down (List.length a) a pl (get a pi) pi) pl (S pi)
  end.

Definition insertion_sort (a : list X) (pl pr : nat) : list X :=
  insertion (pr - pl) a pl (pl + 1).

(** Heapsort of [a[1..n]] (indices from 1), the fallback when the depth
    limit is reached. *)
Definition get1 (a : list X) (i : nat) : X := get a (i - 1).
Definition set1 (a : list X) (i : nat) (x : X) : list X := set a (i - 1) x.

Fixpoint sift (fuel : nat) (a : list X) (n : nat) (tmp : X) (i j : nat)
  : list X :=
  match fuel with
  | 0 => set1 a i tmp
  | S fuel =>
      if j <=? n then
        let j := if (j <? n) && less (get1 a j) (get1 a (j + 1))
                 then j + 1 else j in
        if less tmp (get1 a j)
        then sift fuel (set1 a i (get1 a j)) n tmp j (j + j)
        else set1 a i tmp
      else set1 a i tmp
  end.

Fixpoint build_heap (l : nat) (a : list X) (n : nat) : list X :=
  match l with
  | 0 => a
  | S l' => build_heap l' (sift n a n (get1 a l) l (2 * l)) n
  end.

Fixpoint sort_heap (n : nat) (a : list X) : list X :=
  match n with
  | 0 => a
  | S n' =>
      if n' =? 0 then a
      else
        let tmp := get1 a n in
        let a := set1 a n (get1 a 1) in
        sort_heap n' (sift n a n' tmp 1 2)
  end.

Definition aheapsort (a : list X) : list X :=
  let n := List.length a in
  sort_heap n (build_heap (n / 2) a n).

Definition heapsort_range (a : list X) (pl n : nat) : list X :=
  firstn pl a ++ aheapsort (firstn n (skipn pl a)) ++ skipn (pl + n) a.

(** The inner [while ((pr - pl) > SMALL_QUICKSORT)]: partition, push the
    larger part with the depth left, go on with the smaller part. *)
Definition SMALL_QUICKSORT : nat := 16.

Fixpoint partition_down (fuel : nat) (a : list X) (pl pr : nat) (cdepth : Z)
  (stack : list (nat * nat * Z)) : list X * nat * nat * list (nat * nat * Z) :=
  match fuel with
  | 0 => (a, pl, pr, stack)
  | S fuel =>
      if SMALL_QUICKSORT <? pr - pl then
        let '(a, pi) := partition a pl pr in
        let cdepth := (cdepth - 1)%Z in
        if pi - pl <? pr - pi
        then partition_down fuel a pl (pi - 1) cdepth
                            ((pi + 1, pr, cdepth) :: stack)
        else partition_down fuel a (pi + 1) pr cdepth
                            ((pl, pi - 1, cdepth) :: stack)
      else (a, pl, pr, stack)
  end.

(** The outer [while (1)]: heapsort when the depth limit is used up, else
    partition down to a small part and sort it by insertion; then take the
    next part from the stack. *)
Fixpoint aquicksort_loop (fuel : nat) (a : list X) (pl pr : nat) (cdepth : Z)
  (stack : list (nat * nat * Z)) : list X :=
  match fuel with
  | 0 => a
  | S fuel =>
      let '(a, stack) :=
        if (cdepth <? 0)%Z
        then (heapsort_range a pl (pr - pl + 1), stack)
        else
          let '(a, pl, pr, stack) :=
            partition_down (List.length a) a pl pr cdepth stack in
          (insertion_sort a pl pr, stack) in
      match stack with
      | [] => a
      | (pl, pr, cdepth) :: stack => aquicksort_loop fuel a pl pr cdepth stack
      end
  end.

Definition aquicksort (a : list X) : list X :=
  let num := List.length a in
  aquicksort_loop (S num) a 0 (num - 1) (Z.log2 (Z.of_nat num) * 2) [].

End Quicksort.

(** [nargsort], which [sort_values] calls for one column: the nulls go
    last; for a descending sort the other records are reversed, sorted
    ascending, and reversed again. *)
Definition key_less {A} (key : A -> option Q) (x y : A) : bool :=
  match key x, key y with
  | Some a, Some b => negb (Qle_bool b a)
  | _, _ => false
  end.

Definition is_null {A} (key : A -> option Q) (x : A) : bool :=
  match key x with None => true | Some _ => false end.

Definition sort_values (A : Type) (key : A -> option Q) (asc : bool)
  (l : list A) : list A :=
  let non_nans := filter (fun x => negb (is_null key x)) l in
  let nans := filter (is_null key) l in
  let items := if asc then non_nans else rev non_nans in
  let sorted :=
    match items with
    | [] => []
    | d :: _ => aquicksort (key_less key) d items
    end in
  (if asc then sorted else rev sorted) ++ nans.

End NumpySort.

(* ================================================================== *)
(** ** summarizer.py: what the summaries do to the frame they are given *)

Module FrameEffectSpec.
Import Analyzer Summarizer FrameProofs Sorting.

(** Every sentiment cell of the frame is a number or NaN. *)
Definition numeric_frame (df : DataFrame) : Prop :=
  forall r, In r (rows df) ->
            is_float (compound_sentiment r) = true
            /\ forall a, is_float (aspect_cell a r) = true.

Section WithPandas.
Variable parse_float : str -> option Q.
Variable sort_values : forall A : Type, (A -> option Q) -> bool -> list A -> list A.
Variable resample_raises : Freq -> list Z -> bool.

Lemma coerce_compound_fixed (df : DataFrame) :
  numeric_frame df -> coerce_compound parse_float df = df.
Proof.
  intros H. unfold coerce_compound. rewrite map_fixed; [apply frame_eta|].
  intros r Hr. destruct (H r Hr) as [Hc _].
  rewrite to_numeric_fixed by exact Hc. apply row_eta.
Qed.

Lemma coerce_row_fixed (cols : list Aspect) (r : Row) :
  (forall a, is_float (aspect_cell a r) = true) ->
  coerce_row parse_float cols r = r.
Proof.
  intros H. induction cols as [|a cols IH]; [reflexivity|].
  simpl. rewrite to_numeric_fixed by apply H.
  rewrite set_aspect_cell_same. exact IH.
Qed.

Lemma coerce_aspects_fixed (cols : list Aspect) (df : DataFrame) :
  numeric_frame df -> fold_left (coerce_aspect parse_float) cols df = df.
Proof.
  intros H. rewrite coerce_aspects_rows. rewrite map_fixed; [apply frame_eta|].
  intros r Hr. apply coerce_row_fixed. apply (H r Hr).
Qed.

(** The frame after each call. *)
Lemma frame_after_overall (df : DataFrame) :
  snd (calculate_overall_sentiment parse_float sort_values df) = df
  \/ snd (calculate_overall_sentiment parse_float sort_values df)
     = coerce_compound parse_float df.
Proof.
  unfold calculate_overall_sentiment.
  destruct (negb (has_col df college_col) || negb (has_col df sentiment_col)
            || empty df); [left|right]; reflexivity.
Qed.

Lemma frame_after_aspect_summary (df : DataFrame) :
  snd (calculate_aspect_sentiment_summary parse_float df) = df
  \/ snd (calculate_aspect_sentiment_summary parse_float df)
     = fold_left (coerce_aspect parse_float) (aspect_cols df) df.
Proof.
  unfold calculate_aspect_sentiment_summary.
  destruct (negb (has_col df college_col) || empty df); [left; reflexivity|].
  destruct (aspect_cols df); [left|right]; reflexivity.
Qed.

Lemma frame_after_top_reviews (df : DataFrame) (n : Z) :
  snd (find_top_reviews parse_float sort_values df n) = df
  \/ snd (find_top_reviews parse_float sort_values df n)
     = coerce_compound parse_float df.
Proof.
  unfold find_top_reviews.
  destruct (negb (forallb (has_col df)
                    [college_col; sentiment_col; text_col; permalink_col])
            || empty df); [left|right]; reflexivity.
Qed.

Lemma frame_after_trends (df : DataFrame) (freq : Freq) :
  snd (calculate_sentiment_trends resample_raises df freq) = df.
Proof.
  unfold calculate_sentiment_trends.
  destruct (negb (has_col df time_col) || negb (has_col df sentiment_col)
            || empty df); [reflexivity|].
  destruct (flat_map dated (rows df)); [reflexivity|].
  destruct (resample_raises _ _); [reflexivity|].
  destruct (existsb _ _); reflexivity.
Qed.

(** A frame whose sentiment columns are all float columns comes out of
    each of the four calls as it went in: what is written back equals what
    was there. *)
Lemma float_frame_comes_out_equal (df : DataFrame) (n : Z) (freq : Freq) :
  numeric_frame df ->
  snd (calculate_overall_sentiment parse_float sort_values df) = df
  /\ snd (calculate_aspect_sentiment_summary parse_float df) = df
  /\ snd (calculate_sentiment_trends resample_raises df freq) = df
  /\ snd (find_top_reviews parse_float sort_values df n) = df.
Proof.
  intros H. repeat split.
  - destruct (frame_after_overall df) as [->| ->];
      [reflexivity|apply coerce_compound_fixed, H].
  - destruct (frame_after_aspect_summary df) as [->| ->];
      [reflexivity|apply coerce_aspects_fixed, H].
  - apply frame_after_trends.
  - destruct (frame_after_top_reviews df n) as [->| ->];
      [reflexivity|apply coerce_compound_fixed, H].
Qed.

End WithPandas.

(** The frame [apply_sentiment_analysis_to_df] builds from three comments
    of which one mentions the infrastructure and none mentions any other
    aspect: the infrastructure column is a float column, the other four
    aspect columns are object columns of [None]. *)
Definition scored_record (i : nat) (e t l : string) (infra : cell) : Row :=
  mkRow i (Some (lit e)) (Some 1609459200%Z) (lit t) (lit l)
        (CNum (-1 # 2)%Q) CNone CNone infra CNone CNone.

Definition scored_frame : DataFrame :=
  mkDataFrame
    ([college_col; text_col; permalink_col; time_col; sentiment_col]
     ++ map aspect_col aspects)
    [scored_record 0 "E" "The hostel food is bad" "link0" (CNum (-1 # 2)%Q);
     scored_record 1 "E" "Nice weather today" "link1" CNull;
     scored_record 2 "F" "None" "link2" CNull].

(** C8, a defect of the code: [calculate_aspect_sentiment_summary] assigns
    the coerced aspect columns to the frame it was given, which is the
    caller's.  On the frame above, whose fees column holds [None] in every
    record, the column holds NaN after the call, so the frame is not what it
    was.  [calculate_overall_sentiment] and [find_top_reviews] assign the
    compound column in the same way; on this frame it already holds floats,
    and what they write back equals what was there.
    [calculate_sentiment_trends] works on a copy. *)
Theorem aspect_summary_overwrites_the_callers_frame
  (parse_float : str -> option Q)
  (sort_values : forall A : Type, (A -> option Q) -> bool -> list A -> list A)
  (resample_raises : Freq -> list Z -> bool) (freq : Freq) :
  let after :=
    snd (calculate_aspect_sentiment_summary parse_float scored_frame) in
  map fees_sentiment (rows scored_frame) = [CNone; CNone; CNone]
  /\ map fees_sentiment (rows after) = [CNull; CNull; CNull]
  /\ map infrastructure_sentiment (rows after)
     = map infrastructure_sentiment (rows scored_frame)
  /\ after <> scored_frame
  /\ snd (calculate_sentiment_trends resample_raises scored_frame freq)
     = scored_frame
  /\ snd (calculate_overall_sentiment parse_float sort_values scored_frame)
     = scored_frame
  /\ snd (find_top_reviews parse_float sort_values scored_frame 5)
     = scored_frame.
Proof.
  cbv zeta.
  assert (Hafter : snd (calculate_aspect_sentiment_summary parse_float
                          scored_frame)
                   = fold_left (coerce_aspect parse_float)
                               (aspect_cols scored_frame) scored_frame)
    by reflexivity.
  rewrite Hafter.
  repeat split; try reflexivity.
  - intros H. apply (f_equal (fun df => map fees_sentiment (rows df))) in H.
    vm_compute in H. discriminate H.
  - apply frame_after_trends.
Qed.

(** A frame with one record whose overall score was read as text. *)
Definition text_score_frame : DataFrame :=
  mkDataFrame
    [college_col; sentiment_col; text_col; permalink_col;
     lit "fees_sentiment"]
    [mkRow 0 (Some (lit "E")) (Some 0%Z) (lit "fine") (lit "link")
           (CStr (lit "n/a")) CNull CNull CNull CNull (CStr (lit "n/a"))].

(** The same assignment by the other two functions shows on a frame whose
    compound column holds text: the text cell is a NaN afterwards. *)
Example text_cell_is_overwritten :
  map compound_sentiment (rows text_score_frame) = [CStr (lit "n/a")]
  /\ map compound_sentiment
       (rows (snd (calculate_overall_sentiment
                     AspectSummarySpec.reads_nothing stable_sort
                     text_score_frame)))
     = [CNull]
  /\ map compound_sentiment
       (rows (snd (find_top_reviews AspectSummarySpec.reads_nothing
                     stable_sort text_score_frame 5)))
     = [CNull].
Proof.
  vm_compute. repeat split; reflexivity.
Qed.

End FrameEffectSpec.

(* ================================================================== *)
(** ** summarizer.py: the most positive and most negative reviews *)

Module TopReviewsProofs.
Import Analyzer Summarizer FrameProofs Sorting.

Lemma lookup_map_keys {V} (f : str -> V) (e : str) (ks : list str) :
  lookup e (map (fun k => (k, f k)) ks)
  = if existsb (str_eqb e) ks then Some (f e) else None.
Proof.
  induction ks as [|k r IH]; [reflexivity|]. simpl.
  destruct (str_eqb k e) eqn:E.
  - apply str_eqb_eq in E. subst k. rewrite str_eqb_refl. reflexivity.
  - destruct (str_eqb e k) eqn:E'; [|exact IH].
    apply str_eqb_eq in E'. subst k. rewrite str_eqb_refl in E. discriminate.
Qed.

Definition required_cols (df : DataFrame) : bool :=
  forallb (has_col df) [college_col; sentiment_col; text_col; permalink_col].

Section WithPandas.
Variable parse_float : str -> option Q.
Variable sort_values : forall A : Type, (A -> option Q) -> bool -> list A -> list A.

(** The documents of an entity whose overall polarity is not null, in
    frame order. *)
Definition valid_docs (df : DataFrame) (e : str) : list Row :=
  filter (in_group e)
         (filter (fun r => negb (isna (compound_sentiment r)))
                 (rows (coerce_compound parse_float df))).

Definition top (df : DataFrame) (n : Z) : list (str * top_reviews_entry) :=
  fst (find_top_reviews parse_float sort_values df n).

(** The entry of an entity, in terms of its valid documents sorted by
    descending polarity. *)
Lemma top_lookup (df : DataFrame) (n : Z) (e : str) :
  required_cols df = true -> empty df = false ->
  let sorted_group := sort_values sentiment_key false (valid_docs df e) in
  lookup e (top df n)
  = match valid_docs df e with
    | [] => None
    | _ :: _ =>
        Some (mkTop (map to_review (head n sorted_group))
                    (map to_review
                         (sort_values sentiment_key true
                                      (tail n sorted_group))))
    end.
Proof.
  intros Hc He sorted_group. unfold top, find_top_reviews.
  fold (required_cols df). rewrite Hc, He. cbn [negb orb fst].
  unfold groupby. rewrite map_map.
  set (valid := filter (fun r => negb (isna (compound_sentiment r)))
                       (rows (coerce_compound parse_float df))).
  rewrite (lookup_map_keys
             (fun k =>
                mkTop (map to_review
                           (head n (sort_values sentiment_key false
                                                (filter (in_group k) valid))))
                      (map to_review
                           (sort_values sentiment_key true
                              (tail n (sort_values sentiment_key false
                                         (filter (in_group k) valid))))))).
  subst sorted_group. unfold valid_docs. fold valid.
  assert (Hex : existsb (str_eqb e) (group_keys (map college_name_approx valid)) = true
                <-> filter (in_group e) valid <> []).
  { rewrite existsb_str_In. apply group_exists. }
  destruct (existsb (str_eqb e) (group_keys (map college_name_approx valid)));
    destruct (filter (in_group e) valid) as [|r l]; try reflexivity.
  - exfalso. apply Hex; reflexivity.
  - assert (false = true) by (apply Hex; discriminate). discriminate.
Qed.

Lemma head_positive {A} (n : Z) (l : list A) :
  (0 < n)%Z -> head n l = firstn (Z.to_nat n) l.
Proof.
  intros Hn. unfold head. destruct (0 <=? n)%Z eqn:E; [reflexivity|].
  apply Z.leb_gt in E. lia.
Qed.

Lemma tail_positive {A} (n : Z) (l : list A) :
  (0 < n)%Z -> tail n l = skipn (List.length l - Z.to_nat n) l.
Proof.
  intros Hn. unfold tail. destruct (n =? 0)%Z eqn:E.
  - apply Z.eqb_eq in E. lia.
  - destruct (0 <? n)%Z eqn:E'; [reflexivity|]. apply Z.ltb_ge in E'. lia.
Qed.

(** With fewer than [2k] elements, the first [k] and the last [k] share an
    element. *)
Lemma first_and_last_overlap {A} (k : nat) (l : list A) :
  0 < k -> l <> [] -> List.length l < 2 * k ->
  exists x, In x (firstn k l) /\ In x (skipn (List.length l - k) l).
Proof.
  intros Hk Hne Hlen.
  assert (Hpos : List.length l <> 0)
    by (destruct l; [contradiction|discriminate]).
  assert (Hi : List.length l - k < List.length l) by lia.
  set (i := List.length l - k) in *.
  destruct (skipn i l) as [|x t] eqn:Es.
  - assert (H : List.length (skipn i l) = List.length l - i)
      by apply length_skipn.
    rewrite Es in H. simpl in H. lia.
  - exists x. split; [|left; reflexivity].
    rewrite <- (firstn_skipn i l), Es.
    rewrite firstn_app, length_firstn.
    apply in_or_app. right.
    replace (k - Nat.min i (List.length l)) with (S (k - S i)) by (subst i; lia).
    left. reflexivity.
Qed.

End WithPandas.

End TopReviewsProofs.

Module TopReviewsSpec.
Import Analyzer Summarizer FrameProofs Sorting TopReviewsProofs.

Section WithPandas.
Variable parse_float : str -> option Q.
Variable sort_values : forall A : Type, (A -> option Q) -> bool -> list A -> list A.
Hypothesis sort_ok : sort_contract sort_values.

(** [x] comes no later than [y] by descending polarity: the polarity of
    [x] is at least that of [y]. *)
Definition at_least : Row -> Row -> Prop := in_order sentiment_key false.
Definition at_most : Row -> Row -> Prop := in_order sentiment_key true.

(** C6, amended: for a positive n, an entity has an entry exactly when it
    has a document with non-null polarity.  "positive" then holds
    min(n, count) of those documents in descending order of polarity, each
    with a polarity at least that of every document left out; "negative"
    holds min(n, count) of them in ascending order, each with a polarity at
    most that of every document left out.  Nothing is padded.  The order
    between documents of equal polarity is the one the sort leaves. *)
Theorem top_reviews_of_entity (df : DataFrame) (n : Z) (e : str) :
  required_cols df = true -> (0 < n)%Z ->
  let valid := valid_docs parse_float df e in
  let count := Nat.min (Z.to_nat n) (List.length valid) in
  match lookup e (top parse_float sort_values df n) with
  | None => valid = []
  | Some entry =>
      valid <> []
      /\ exists pos left_out_low neg left_out_high,
          positive entry = map to_review pos
          /\ negative entry = map to_review neg
          /\ List.length pos = count /\ List.length neg = count
          /\ Permutation (pos ++ left_out_low) valid
          /\ Permutation (neg ++ left_out_high) valid
          /\ Sorted at_least pos
          /\ Sorted at_most neg
          /\ (forall x y, In x pos -> In y left_out_low -> at_least x y)
          /\ (forall x y, In x neg -> In y left_out_high -> at_least y x)
  end.
Proof.
  intros Hc Hn valid count. destruct (empty df) eqn:He.
  { unfold top, find_top_reviews. fold (required_cols df).
    rewrite Hc, He. simpl. subst valid. unfold valid_docs, coerce_compound.
    cbn [rows]. rewrite (empty_rows df college_col); [reflexivity| |exact He].
    unfold required_cols in Hc. simpl in Hc.
    apply andb_true_iff in Hc. apply Hc. }
  rewrite (top_lookup parse_float sort_values df n e Hc He). cbv zeta.
  fold valid. destruct valid as [|r0 l0] eqn:Ev; [reflexivity|].
  rewrite <- Ev in *. split; [rewrite Ev; discriminate|].
  set (S := sort_values sentiment_key false valid).
  assert (HP : Permutation S valid) by apply (sort_perm sort_ok).
  assert (HS : StronglySorted at_least S)
    by (apply sorted_strongly, (sort_sorted sort_ok)).
  assert (HL : List.length S = List.length valid)
    by (apply Permutation_length, HP).
  rewrite head_positive, tail_positive by exact Hn.
  set (k := Z.to_nat n) in *. set (i := List.length S - k).
  exists (firstn k S), (skipn k S),
         (sort_values sentiment_key true (skipn i S)), (firstn i S).
  assert (HN : Permutation (sort_values sentiment_key true (skipn i S))
                           (skipn i S)) by apply (sort_perm sort_ok).
  cbn [positive negative]. repeat split.
  - rewrite length_firstn. rewrite Ev in HL. subst count k. lia.
  - rewrite (Permutation_length HN), length_skipn. rewrite Ev in HL.
    subst count i k. lia.
  - rewrite firstn_skipn. exact HP.
  - rewrite HN, Permutation_app_comm, firstn_skipn. exact HP.
  - rewrite <- (firstn_skipn k S) in HS.
    apply strongly_sorted_app in HS. apply StronglySorted_Sorted, HS.
  - apply (sort_sorted sort_ok).
  - rewrite <- (firstn_skipn k S) in HS.
    apply strongly_sorted_app in HS. apply HS.
  - intros x y Hx Hy. rewrite <- (firstn_skipn i S) in HS.
    apply strongly_sorted_app in HS. destruct HS as (_ & _ & H).
    apply H; [exact Hy|]. eapply Permutation_in; [exact HN|exact Hx].
Qed.

(** C10: when an entity has at most n valid documents, "positive" and
    "negative" both hold the whole group, one in descending and one in
    ascending order of polarity; and whenever it has fewer than 2n, some
    record is in both lists. *)
Theorem positive_and_negative_overlap (df : DataFrame) (n : Z) (e : str)
  (entry : top_reviews_entry) :
  required_cols df = true -> (0 < n)%Z ->
  lookup e (top parse_float sort_values df n) = Some entry ->
  let valid := valid_docs parse_float df e in
  (List.length valid <= Z.to_nat n ->
   exists pos neg,
     positive entry = map to_review pos /\ negative entry = map to_review neg
     /\ Permutation pos valid /\ Permutation neg valid
     /\ Sorted at_least pos /\ Sorted at_most neg
     /\ Permutation (positive entry) (negative entry))
  /\ (List.length valid < 2 * Z.to_nat n ->
      exists review, In review (positive entry) /\ In review (negative entry)).
Proof.
  intros Hc Hn Hentry valid.
  assert (He : empty df = false).
  { destruct (empty df) eqn:He; [|reflexivity].
    unfold top, find_top_reviews in Hentry. fold (required_cols df) in Hentry.
    rewrite Hc, He in Hentry. discriminate. }
  rewrite (top_lookup parse_float sort_values df n e Hc He) in Hentry.
  cbv zeta in Hentry. fold valid in Hentry.
  destruct valid as [|r0 l0] eqn:Ev; [discriminate|].
  rewrite <- Ev in *. injection Hentry as <-.
  set (S := sort_values sentiment_key false valid).
  assert (HP : Permutation S valid) by apply (sort_perm sort_ok).
  assert (HL : List.length S = List.length valid)
    by (apply Permutation_length, HP).
  rewrite head_positive, tail_positive by exact Hn.
  set (k := Z.to_nat n) in *. cbn [positive negative].
  assert (Hk : 0 < k) by (subst k; lia).
  split.
  - intros Hle.
    assert (Hfirst : firstn k S = S) by (apply firstn_all2; lia).
    assert (Hlast : skipn (List.length S - k) S = S).
    { replace (List.length S - k) with 0 by lia. reflexivity. }
    rewrite Hfirst, Hlast.
    assert (HN : Permutation (sort_values sentiment_key true S) S)
      by apply (sort_perm sort_ok).
    exists S, (sort_values sentiment_key true S). repeat split.
    + exact HP.
    + rewrite HN. exact HP.
    + apply (sort_sorted sort_ok).
    + apply (sort_sorted sort_ok).
    + apply Permutation_map. symmetry. exact HN.
  - intros Hlt.
    destruct (@first_and_last_overlap Row k S) as (x & Hx1 & Hx2);
      [exact Hk| |lia|].
    + intros HSnil. rewrite HSnil in HL. rewrite Ev in HL. discriminate.
    + exists (to_review x). split; apply in_map; [exact Hx1|].
      eapply Permutation_in; [|exact Hx2].
      symmetry. apply (sort_perm sort_ok).
Qed.

End WithPandas.

(** Two documents of entity E with the same polarity, "first" before
    "second" in the frame, and one document without a polarity. *)
Definition review_doc (i : nat) (e t : string) (c : cell) : Row :=
  mkRow i (Some (lit e)) (Some 0%Z) (lit t) (lit "link") c
        CNull CNull CNull CNull CNull.

Definition tied_frame : DataFrame :=
  mkDataFrame [college_col; sentiment_col; text_col; permalink_col]
    [review_doc 0 "E" "first" (CNum (1 # 2)%Q);
     review_doc 1 "E" "second" (CNum (1 # 2)%Q);
     review_doc 2 "E" "unscored" CNull].

Definition texts (l : list review) : list string :=
  map (fun r => string_of_list_ascii (review_text r)) l.

(** On this small frame the default sort leaves the two tied documents in
    input order: groups of at most 17 records are sorted by insertion. *)
Example small_group_keeps_ties :
  option_map (fun entry => texts (positive entry))
    (lookup (lit "E")
       (top AspectSummarySpec.reads_nothing NumpySort.sort_values tied_frame 5))
  = Some ["first"; "second"]%string.
Proof. vm_compute. reflexivity. Qed.

(** The decimal digits of a number, and the text of document [i]. *)
Fixpoint digits (fuel n : nat) (acc : str) : str :=
  match fuel with
  | 0 => acc
  | S fuel =>
      let acc := ascii_of_nat (48 + n mod 10) :: acc in
      if n / 10 =? 0 then acc else digits fuel (n / 10) acc
  end.

Definition numbered_text (i : nat) : str := lit "d" ++ digits (S i) i [].

(** 257 documents of one entity, all with polarity 0.5, numbered in input
    order. *)
Definition tied_group : DataFrame :=
  mkDataFrame [college_col; sentiment_col; text_col; permalink_col]
    (map (fun i => mkRow i (Some (lit "E")) (Some 0%Z) (numbered_text i)
                         (lit "link") (CNum (1 # 2)%Q)
                         CNull CNull CNull CNull CNull)
         (seq 0 257)).

(** C6, refuted as stated: the default sort is not stable.  Of 257
    documents of equal polarity, the five that "positive" lists are not the
    first five in input order: the quicksort partitions a group of this
    size, and partitioning moves tied documents past each other. *)
Lemma ties_need_not_keep_input_order :
  map numbered_text [0; 1; 2; 3; 4]
  = map lit ["d0"; "d1"; "d2"; "d3"; "d4"]%string
  /\ option_map (fun entry => List.length (positive entry))
       (lookup (lit "E")
          (top AspectSummarySpec.reads_nothing NumpySort.sort_values
               tied_group 5))
     = Some 5
  /\ option_map (fun entry => map review_text (positive entry))
       (lookup (lit "E")
          (top AspectSummarySpec.reads_nothing NumpySort.sort_values
               tied_group 5))
     <> Some (map numbered_text [0; 1; 2; 3; 4]).
Proof.
  split; [reflexivity|]. split; [vm_compute; reflexivity|].
  vm_compute. discriminate.
Qed.

(** With two valid documents and n = 5, both lists hold exactly the two
    documents. *)
Example two_documents_five_requested :
  option_map (fun entry => (texts (positive entry), texts (negative entry)))
    (lookup (lit "E")
       (top AspectSummarySpec.reads_nothing stable_sort tied_frame 5))
  = Some (["first"; "second"], ["first"; "second"])%string.
Proof. vm_compute. reflexivity. Qed.

Definition ranked_frame : DataFrame :=
  mkDataFrame [college_col; sentiment_col; text_col; permalink_col]
    [review_doc 0 "E" "good" (CNum (1 # 2)%Q);
     review_doc 1 "E" "bad" (CNum (-1 # 2)%Q);
     review_doc 2 "F" "other" (CNum (1 # 4)%Q);
     review_doc 3 "E" "best" (CNum (9 # 10)%Q)].

Example top_two_of_three :
  option_map (fun entry => (texts (positive entry), texts (negative entry)))
    (lookup (lit "E")
       (top AspectSummarySpec.reads_nothing stable_sort ranked_frame 2))
  = Some (["best"; "good"], ["bad"; "good"])%string.
Proof. vm_compute. reflexivity. Qed.

Lemma top_reviews_of_entity_witness :
  exists entry,
    lookup (lit "E")
      (top AspectSummarySpec.reads_nothing stable_sort ranked_frame 2)
    = Some entry
    /\ List.length (positive entry) = 2 /\ List.length (negative entry) = 2.
Proof.
  pose proof (@top_reviews_of_entity AspectSummarySpec.reads_nothing
                stable_sort stable_sort_contract ranked_frame 2 (lit "E")
                eq_refl eq_refl) as H.
  cbv zeta in H.
  destruct (lookup (lit "E")
              (top AspectSummarySpec.reads_nothing stable_sort ranked_frame 2))
    as [entry|]; [|discriminate H].
  exists entry. split; [reflexivity|].
  destruct H as (_ & pos & lo & neg & hi & -> & -> & Hp & Hn & _).
  rewrite !length_map, Hp, Hn. split; reflexivity.
Defined.

Lemma positive_and_negative_overlap_witness :
  exists entry,
    lookup (lit "E")
      (top AspectSummarySpec.reads_nothing stable_sort ranked_frame 2)
    = Some entry
    /\ exists review, In review (positive entry) /\ In review (negative entry).
Proof.
  destruct (lookup (lit "E")
              (top AspectSummarySpec.reads_nothing stable_sort ranked_frame 2))
    as [entry|] eqn:E; [|vm_compute in E; discriminate E].
  exists entry. split; [reflexivity|].
  apply (@positive_and_negative_overlap AspectSummarySpec.reads_nothing
           stable_sort stable_sort_contract ranked_frame 2 (lit "E") entry
           eq_refl eq_refl E).
  vm_compute. lia.
Defined.

End TopReviewsSpec.

(* ================================================================== *)
(** ** summarizer.py: sentiment per calendar period *)

Module TrendsProofs.
Import Analyzer Summarizer FrameProofs.

Lemma zrange_In (lo hi k : Z) :
  In k (zrange lo hi) <-> (lo <= k <= hi)%Z.
Proof.
  unfold zrange. rewrite in_map_iff. split.
  - intros (i & <- & Hi). apply in_seq in Hi. lia.
  - intros H. exists (Z.to_nat (k - lo)). split; [lia|].
    apply in_seq. lia.
Qed.

Lemma seq_increasing (f : nat -> Z) :
  (forall i j, i < j -> (f i < f j)%Z) ->
  forall len start, StronglySorted Z.lt (map f (seq start len)).
Proof.
  intros Hf. induction len as [|len IH]; intros start; simpl; constructor.
  - apply IH.
  - apply Forall_forall. intros x Hx. apply in_map_iff in Hx.
    destruct Hx as (j & <- & Hj). apply in_seq in Hj. apply Hf. lia.
Qed.

Lemma zrange_increasing (lo hi : Z) : StronglySorted Z.lt (zrange lo hi).
Proof. unfold zrange. apply seq_increasing. intros i j H. lia. Qed.

Lemma zmin_list_le (l : list Z) :
  forall x, (zmin_list x l <= x)%Z
            /\ forall y, In y l -> (zmin_list x l <= y)%Z.
Proof.
  unfold zmin_list. induction l as [|a l IH]; intros x; simpl.
  - split; [lia|contradiction].
  - destruct (IH (Z.min x a)) as [H1 H2]. split; [lia|].
    intros y [<-|Hy]; [lia|auto].
Qed.

Lemma zmax_list_ge (l : list Z) :
  forall x, (x <= zmax_list x l)%Z
            /\ forall y, In y l -> (y <= zmax_list x l)%Z.
Proof.
  unfold zmax_list. induction l as [|a l IH]; intros x; simpl.
  - split; [lia|contradiction].
  - destruct (IH (Z.max x a)) as [H1 H2]. split; [lia|].
    intros y [<-|Hy]; [lia|auto].
Qed.

Lemma flat_map_map {A B C} (g : A -> B) (h : B -> list C) (l : list A) :
  flat_map h (map g l) = flat_map (fun x => h (g x)) l.
Proof.
  induction l as [|x l IH]; [reflexivity|]. simpl. rewrite IH. reflexivity.
Qed.

(** Cells that are neither null nor text are numbers. *)
Lemma numbers_all (cs : list cell) :
  (forall c, In c cs -> isna c = false /\ is_text c = false) ->
  List.length (numbers cs) = List.length cs.
Proof.
  induction cs as [|c cs IH]; intros H; [reflexivity|].
  destruct (H c (or_introl eq_refl)) as [Hn Ht].
  destruct c; try discriminate. simpl. rewrite IH; [reflexivity|].
  intros c Hc. apply H. right. exact Hc.
Qed.

Lemma dated_not_null (r : Row) (p : Z * cell) :
  In p (dated r) -> isna (snd p) = false.
Proof.
  unfold dated. destruct (to_datetime (created_utc r)); [|contradiction].
  destruct (isna (compound_sentiment r)) eqn:E; [contradiction|].
  intros [<-|[]]. exact E.
Qed.

(** The rows of the trend frame, one per period that has a mean, for the
    periods [ks] in turn. *)
Definition trend_rows (freq : Freq) (docs : list (Z * cell)) (ks : list Z)
  : list trend_row :=
  flat_map
    (fun k =>
       let bucket :=
         map snd (filter (fun p => (period_of freq (fst p) =? k)%Z) docs) in
       match series_mean bucket with
       | Some m => [mkTrend k m (List.length bucket)]
       | None => []
       end) ks.

Lemma trend_rows_periods (freq : Freq) (docs : list (Z * cell)) (ks : list Z) :
  StronglySorted Z.lt ks ->
  StronglySorted Z.lt (map period (trend_rows freq docs ks))
  /\ forall row, In row (trend_rows freq docs ks) -> In (period row) ks.
Proof.
  induction 1 as [|k ks Hs IH Hall]; [split; [constructor|contradiction]|].
  destruct IH as [IH1 IH2]. unfold trend_rows in *. cbn [flat_map].
  destruct (series_mean _) as [m|]; cbn [app map period].
  - split.
    + constructor; [exact IH1|]. apply Forall_forall. intros x Hx.
      apply in_map_iff in Hx. destruct Hx as (row & <- & Hrow).
      rewrite Forall_forall in Hall. apply Hall, IH2, Hrow.
    + intros row [<-|Hrow]; [left; reflexivity|right; apply IH2, Hrow].
  - split; [exact IH1|]. intros row Hrow. right. apply IH2, Hrow.
Qed.

End TrendsProofs.

Module Calendar.
Import Summarizer.

(** The Gregorian calendar as it is defined: the leap years, the lengths
    of the months, and the number of a date counted in days from
    1970-01-01. *)
Definition is_leap (y : Z) : bool :=
  ((y mod 4 =? 0) && (negb (y mod 100 =? 0) || (y mod 400 =? 0)))%Z.

Definition days_in_month (y m : Z) : Z :=
  (if m =? 2 then (if is_leap y then 29 else 28)
   else if (m =? 4) || (m =? 6) || (m =? 9) || (m =? 11) then 30
   else 31)%Z.

Definition leap_years_before (y : Z) : Z :=
  ((y - 1) / 4 - (y - 1) / 100 + (y - 1) / 400)%Z.

Definition days_before_year (y : Z) : Z :=
  (365 * (y - 1970) + (leap_years_before y - leap_years_before 1970))%Z.

Definition days_before_month (y m : Z) : Z :=
  fold_right Z.add 0%Z (map (days_in_month y) (zrange 1 (m - 1))).

Definition day_of_date (y m d : Z) : Z :=
  (days_before_year y + days_before_month y m + (d - 1))%Z.

(** The day on which period [k] begins.  Days are numbered by themselves;
    week 0 begins on Monday 1969-12-29; month [k] is month [k mod 12 + 1]
    of year [k / 12]; year [k] is the year of that number. *)
Definition first_day (freq : Freq) (k : Z) : Z :=
  match freq with
  | Daily => k
  | Weekly => (7 * k - 3)%Z
  | Monthly => day_of_date (k / 12) (k mod 12 + 1) 1
  | Yearly => day_of_date k 1 1
  end.

(** The instant [s], in seconds since the epoch, falls in period [k]: at
    or after 00:00 UTC of its first day and before 00:00 UTC of the first
    day of the next period. *)
Definition in_period (freq : Freq) (k s : Z) : bool :=
  ((first_day freq k * 86400 <=? s) && (s <? first_day freq (k + 1) * 86400))%Z.

(** The instants a nanosecond timestamp holds, in seconds. *)
Definition in_range (s : Z) : Prop := (-9223372036 <= s <= 9223372036)%Z.

End Calendar.

Module CalendarProofs.
Import Summarizer TrendsProofs Calendar.
Local Open Scope Z_scope.

Lemma days_in_month_pos (y m : Z) : 28 <= days_in_month y m.
Proof.
  unfold days_in_month. destruct (m =? 2); [destruct (is_leap y); lia|].
  destruct ((m =? 4) || (m =? 6) || (m =? 9) || (m =? 11))%bool; lia.
Qed.

Lemma zrange_snoc (lo hi : Z) :
  lo <= hi + 1 -> zrange lo (hi + 1) = zrange lo hi ++ [hi + 1].
Proof.
  intros H. unfold zrange.
  replace (Z.to_nat (hi + 1 - lo + 1)) with (S (Z.to_nat (hi - lo + 1))) by lia.
  rewrite seq_S, map_app. cbn [map Nat.add]. f_equal. f_equal. lia.
Qed.

Lemma sum_snoc (l : list Z) (x : Z) :
  fold_right Z.add 0 (l ++ [x]) = fold_right Z.add 0 l + x.
Proof. induction l as [|a l IH]; simpl; lia. Qed.

Lemma days_before_month_next (y m : Z) :
  1 <= m ->
  days_before_month y (m + 1) = days_before_month y m + days_in_month y m.
Proof.
  intros H. unfold days_before_month.
  replace (m + 1 - 1) with (m - 1 + 1) by lia.
  rewrite zrange_snoc by lia. rewrite map_app. cbn [map]. rewrite sum_snoc.
  replace (m - 1 + 1) with m by lia. reflexivity.
Qed.

Lemma is_leap_spec (y : Z) :
  is_leap y = true <-> y mod 4 = 0 /\ (y mod 100 <> 0 \/ y mod 400 = 0).
Proof.
  unfold is_leap. rewrite andb_true_iff, orb_true_iff, negb_true_iff.
  rewrite !Z.eqb_eq, Z.eqb_neq. reflexivity.
Qed.

Lemma year_length (y : Z) :
  days_before_year (y + 1)
  = days_before_year y + (if is_leap y then 366 else 365).
Proof.
  unfold days_before_year, leap_years_before.
  replace (y + 1 - 1) with y by lia.
  destruct (is_leap y) eqn:E.
  - apply is_leap_spec in E. Z.div_mod_to_equations. lia.
  - assert (H : ~ (y mod 4 = 0 /\ (y mod 100 <> 0 \/ y mod 400 = 0))).
    { rewrite <- is_leap_spec. congruence. }
    Z.div_mod_to_equations. lia.
Qed.

Lemma days_before_december (y : Z) :
  days_before_month y 12 + 31 = if is_leap y then 366 else 365.
Proof.
  unfold days_before_month, zrange. cbn [Z.sub Z.add Z.to_nat Z.pos_sub
    Pos.to_nat Pos.iter_op Nat.add seq map fold_right Z.of_nat
    Pos.of_succ_nat Pos.succ Z.opp Pos.pred_double Z.double Z.succ_double
    Z.pred_double].
  unfold days_in_month. cbn [Z.eqb Pos.eqb orb].
  destruct (is_leap y); reflexivity.
Qed.

(** Each period begins after the one before it. *)
Lemma first_day_next (freq : Freq) (k : Z) :
  first_day freq k < first_day freq (k + 1).
Proof.
  destruct freq; cbn [first_day]; try lia.
  - unfold day_of_date.
    assert (Hm : 0 <= k mod 12 < 12) by (apply Z.mod_pos_bound; lia).
    destruct (Z.eq_dec (k mod 12) 11) as [E|E].
    + assert (E1 : (k + 1) / 12 = k / 12 + 1)
        by (Z.div_mod_to_equations; lia).
      assert (E2 : (k + 1) mod 12 = 0) by (Z.div_mod_to_equations; lia).
      rewrite E1, E2, E, year_length.
      pose proof (days_before_december (k / 12)) as Hd.
      change (11 + 1) with 12. change (0 + 1) with 1.
      change (days_before_month (k / 12 + 1) 1) with 0.
      destruct (is_leap (k / 12)); lia.
    + assert (E1 : (k + 1) / 12 = k / 12)
        by (Z.div_mod_to_equations; lia).
      assert (E2 : (k + 1) mod 12 = k mod 12 + 1)
        by (Z.div_mod_to_equations; lia).
      rewrite E1, E2.
      rewrite (@days_before_month_next (k / 12) (k mod 12 + 1)) by lia.
      pose proof (days_in_month_pos (k / 12) (k mod 12 + 1)). lia.
  - unfold day_of_date. rewrite year_length.
    change (days_before_month (k + 1) 1) with 0.
    change (days_before_month k 1) with 0.
    destruct (is_leap k); lia.
Qed.

Lemma first_day_le (freq : Freq) (k k' : Z) :
  k <= k' -> first_day freq k <= first_day freq k'.
Proof.
  intros H. replace k' with (k + Z.of_nat (Z.to_nat (k' - k))) by lia.
  induction (Z.to_nat (k' - k)) as [|n IH]; [rewrite Z.add_0_r; lia|].
  pose proof (first_day_next freq (k + Z.of_nat n)).
  replace (k + Z.of_nat (S n)) with (k + Z.of_nat n + 1) by lia. lia.
Qed.

(** A day lies in one period only. *)
Lemma period_unique (freq : Freq) (k k' d : Z) :
  first_day freq k <= d < first_day freq (k + 1) ->
  first_day freq k' <= d < first_day freq (k' + 1) ->
  k = k'.
Proof.
  intros H H'. destruct (Z.lt_trichotomy k k') as [L|[E|L]]; [|exact E|].
  - pose proof (@first_day_le freq (k + 1) k'). lia.
  - pose proof (@first_day_le freq (k' + 1) k). lia.
Qed.

(** The periods from [a] up to [b] cover the days between their first
    days. *)
Lemma period_exists (freq : Freq) (a : Z) (n : nat) (d : Z) :
  first_day freq a <= d < first_day freq (a + Z.of_nat n) ->
  exists k, a <= k < a + Z.of_nat n
            /\ first_day freq k <= d < first_day freq (k + 1).
Proof.
  induction n as [|n IH]; intros H.
  - rewrite Z.add_0_r in H. lia.
  - destruct (Z_lt_le_dec d (first_day freq (a + Z.of_nat n))) as [L|L].
    + destruct IH as (k & Hk & Hd); [lia|]. exists k. split; [lia|exact Hd].
    + exists (a + Z.of_nat n). split; [lia|].
      replace (a + Z.of_nat n + 1) with (a + Z.of_nat (S n)) by lia. lia.
Qed.

(** The months from September 1677 to April 2262, the months that hold the
    instants of a nanosecond timestamp: on every day of each of them,
    [civil_of_days] gives that year and that month. *)
Definition first_month : Z := 1677 * 12 + 8.
Definition last_month : Z := 2262 * 12 + 3.

Definition month_agrees (k : Z) : bool :=
  forallb (fun d => let '(y, m) := civil_of_days d in
                    (y =? k / 12) && (m =? k mod 12 + 1))
          (zrange (first_day Monthly k) (first_day Monthly (k + 1) - 1)).

Lemma months_agree : forallb month_agrees (zrange first_month last_month) = true.
Proof. vm_cast_no_check (eq_refl true). Qed.

Lemma civil_of_days_month (d : Z) :
  -106752 <= d <= 106751 ->
  exists k, first_day Monthly k <= d < first_day Monthly (k + 1)
            /\ civil_of_days d = (k / 12, k mod 12 + 1).
Proof.
  intros H.
  destruct (@period_exists Monthly first_month
              (Z.to_nat (last_month + 1 - first_month)) d)
    as (k & Hk & Hd).
  { assert (E1 : first_day Monthly first_month = -106772)
      by (vm_compute; reflexivity).
    assert (E2 : first_day Monthly
                   (first_month
                    + Z.of_nat (Z.to_nat (last_month + 1 - first_month)))
                 = 106771) by (vm_compute; reflexivity).
    rewrite E1, E2. lia. }
  exists k. split; [exact Hd|].
  pose proof months_agree as Ht. rewrite forallb_forall in Ht.
  assert (Hin : In k (zrange first_month last_month)).
  { apply zrange_In. unfold first_month, last_month in *. lia. }
  specialize (Ht k Hin). unfold month_agrees in Ht.
  rewrite forallb_forall in Ht.
  assert (Hd' : In d (zrange (first_day Monthly k)
                             (first_day Monthly (k + 1) - 1)))
    by (apply zrange_In; lia).
  specialize (Ht d Hd'). destruct (civil_of_days d) as [y m].
  apply andb_true_iff in Ht. destruct Ht as [Hy Hm].
  apply Z.eqb_eq in Hy. apply Z.eqb_eq in Hm. congruence.
Qed.

Lemma days_in_range (s : Z) :
  in_range s -> -106752 <= days_of_seconds s <= 106751.
Proof.
  unfold in_range, days_of_seconds. intros H. Z.div_mod_to_equations. lia.
Qed.

Lemma in_period_days (freq : Freq) (k s : Z) :
  in_period freq k s = true
  <-> first_day freq k <= days_of_seconds s < first_day freq (k + 1).
Proof.
  unfold in_period, days_of_seconds.
  rewrite andb_true_iff, Z.leb_le, Z.ltb_lt.
  generalize (first_day freq k), (first_day freq (k + 1)). intros a b.
  Z.div_mod_to_equations. lia.
Qed.

(** The period [period_of] numbers an instant with is the calendar period
    the instant falls in. *)
Lemma period_of_in_period (freq : Freq) (s : Z) :
  in_range s -> in_period freq (period_of freq s) s = true.
Proof.
  intros Hs. apply in_period_days. apply days_in_range in Hs.
  unfold period_of. set (d := days_of_seconds s) in *.
  destruct freq; cbn [first_day].
  - lia.
  - Z.div_mod_to_equations. lia.
  - destruct (civil_of_days_month Hs) as (k & Hd & ->).
    replace (k / 12 * 12 + (k mod 12 + 1 - 1)) with k
      by (Z.div_mod_to_equations; lia).
    exact Hd.
  - destruct (civil_of_days_month Hs) as (k & Hd & ->). cbn [fst].
    change (day_of_date (k / 12) 1 1) with (first_day Yearly (k / 12)).
    change (day_of_date (k / 12 + 1) 1 1) with (first_day Yearly (k / 12 + 1)).
    assert (Hy : forall y, first_day Yearly y = first_day Monthly (12 * y)).
    { intros y. cbn [first_day].
      replace (12 * y / 12) with y by (Z.div_mod_to_equations; lia).
      replace ((12 * y) mod 12 + 1) with 1 by (Z.div_mod_to_equations; lia).
      reflexivity. }
    rewrite !Hy.
    pose proof (@first_day_le Monthly (12 * (k / 12)) k).
    pose proof (@first_day_le Monthly (k + 1) (12 * (k / 12 + 1))).
    assert (12 * (k / 12) <= k < 12 * (k / 12 + 1))
      by (Z.div_mod_to_equations; lia).
    lia.
Qed.

Lemma period_of_spec (freq : Freq) (s k : Z) :
  in_range s -> (period_of freq s = k <-> in_period freq k s = true).
Proof.
  intros Hs. split.
  - intros <-. apply period_of_in_period, Hs.
  - intros H. pose proof (period_of_in_period freq Hs) as H'.
    apply in_period_days in H. apply in_period_days in H'.
    symmetry. eapply period_unique; eassumption.
Qed.

End CalendarProofs.

Module TrendsSpec.
Import Analyzer Summarizer FrameProofs TrendsProofs Calendar CalendarProofs.

(** The records the trend is computed from, as the code selects them:
    those with a timestamp that converts and a non-null polarity; each with
    its instant. *)
Definition timed_docs (df : DataFrame) : list (Z * cell) :=
  flat_map dated (rows df).

(** The cells, and the polarities, of the records numbered into one
    period. *)
Definition bucket_cells (freq : Freq) (df : DataFrame) (k : Z) : list cell :=
  map snd (filter (fun p => (period_of freq (fst p) =? k)%Z) (timed_docs df)).

Definition bucket (freq : Freq) (df : DataFrame) (k : Z) : list Q :=
  numbers (bucket_cells freq df k).

Definition trend_cols (df : DataFrame) : bool :=
  has_col df time_col && has_col df sentiment_col.

(** The valid documents, as the specification has them: the documents with
    a timestamp that a nanosecond timestamp holds and with a polarity, each
    as its instant and its polarity, in the order of the frame. *)
Definition document (r : Row) : list (Z * Q) :=
  match created_utc r, compound_sentiment r with
  | Some s, CNum q =>
      if ((-9223372036 <=? s) && (s <=? 9223372036))%Z then [(s, q)] else []
  | _, _ => []
  end.

Definition documents (df : DataFrame) : list (Z * Q) :=
  flat_map document (rows df).

(** The polarities of the valid documents that fall in period [k]. *)
Definition polarities (freq : Freq) (df : DataFrame) (k : Z) : list Q :=
  map snd (filter (fun p => in_period freq k (fst p)) (documents df)).

Lemma trend_row_In (freq : Freq) (df : DataFrame) (ks : list Z)
  (row : trend_row) :
  In row (trend_rows freq (timed_docs df) ks)
  <-> exists m, In (period row) ks
                /\ series_mean (bucket_cells freq df (period row)) = Some m
                /\ row = mkTrend (period row) m
                           (List.length (bucket_cells freq df (period row))).
Proof.
  unfold trend_rows. rewrite in_flat_map. fold (bucket_cells freq df).
  split.
  - intros (k & Hk & Hrow). cbv zeta in Hrow.
    fold (bucket_cells freq df k) in Hrow.
    destruct (series_mean (bucket_cells freq df k)) as [m|] eqn:E;
      [|contradiction].
    destruct Hrow as [<-|[]]. simpl. exists m. auto.
  - intros (m & Hk & Hm & Hrow). exists (period row). split; [exact Hk|].
    cbv zeta. fold (bucket_cells freq df (period row)). rewrite Hm.
    left. symmetry. exact Hrow.
Qed.

Lemma bucket_cells_numbers (freq : Freq) (df : DataFrame) (k : Z) :
  (forall p, In p (timed_docs df) -> is_text (snd p) = false) ->
  List.length (bucket freq df k) = List.length (bucket_cells freq df k).
Proof.
  intros Hnum. apply numbers_all. intros c Hc.
  apply in_map_iff in Hc. destruct Hc as (p & <- & Hp).
  apply filter_In in Hp. destruct Hp as [Hp _]. split; [|apply Hnum, Hp].
  unfold timed_docs in Hp. apply in_flat_map in Hp.
  destruct Hp as (r & _ & Hr). eapply dated_not_null. exact Hr.
Qed.

Lemma series_mean_bucket (freq : Freq) (df : DataFrame) (k : Z) (m : Q) :
  series_mean (bucket_cells freq df k) = Some m ->
  m = mean (bucket freq df k) /\ bucket freq df k <> [].
Proof.
  unfold series_mean, bucket.
  destruct (numbers (bucket_cells freq df k)); [discriminate|].
  intros H. injection H as <-. split; [reflexivity|discriminate].
Qed.

(** The code's selection and the specification's agree when no polarity
    is text. *)
Lemma timed_docs_documents (df : DataFrame) :
  (forall r, In r (rows df) -> is_text (compound_sentiment r) = false) ->
  timed_docs df = map (fun p => (fst p, CNum (snd p))) (documents df).
Proof.
  unfold timed_docs, documents. generalize (rows df). intros l.
  induction l as [|r l IH]; intros H; [reflexivity|].
  cbn [flat_map]. rewrite map_app, IH by (intros; apply H; right; assumption).
  f_equal. specialize (H r (or_introl eq_refl)).
  unfold dated, document, to_datetime.
  destruct (created_utc r) as [s|]; [|reflexivity].
  destruct ((-9223372036 <=? s) && (s <=? 9223372036))%Z;
    destruct (compound_sentiment r); try reflexivity; discriminate H.
Qed.

Lemma documents_in_range (df : DataFrame) (p : Z * Q) :
  In p (documents df) -> in_range (fst p).
Proof.
  unfold documents. rewrite in_flat_map. intros (r & _ & Hp).
  unfold document in Hp. destruct (created_utc r) as [s|]; [|contradiction].
  destruct (compound_sentiment r); try contradiction.
  destruct ((-9223372036 <=? s) && (s <=? 9223372036))%Z eqn:E;
    [|contradiction].
  destruct Hp as [<-|[]]. apply andb_true_iff in E. unfold in_range.
  cbn [fst]. rewrite !Z.leb_le in E. exact E.
Qed.

Lemma numbers_of_documents (P : Z * cell -> bool) (R : Z * Q -> bool)
  (l : list (Z * Q)) :
  (forall p, In p l -> P (fst p, CNum (snd p)) = R p) ->
  numbers (map snd (filter P (map (fun p => (fst p, CNum (snd p))) l)))
  = map snd (filter R l).
Proof.
  induction l as [|p l IH]; intros H; [reflexivity|].
  cbn [map filter]. rewrite (H p (or_introl eq_refl)).
  destruct (R p); cbn [map numbers snd];
    rewrite IH by (intros; apply H; right; assumption); reflexivity.
Qed.

Lemma same_period_test (freq : Freq) (k s : Z) :
  in_range s -> (period_of freq s =? k)%Z = in_period freq k s.
Proof.
  intros Hs. pose proof (period_of_spec freq k Hs) as H.
  destruct (in_period freq k s).
  - apply Z.eqb_eq, H. reflexivity.
  - apply Z.eqb_neq. intros E. apply H in E. discriminate E.
Qed.

Lemma bucket_polarities (freq : Freq) (df : DataFrame) (k : Z) :
  (forall r, In r (rows df) -> is_text (compound_sentiment r) = false) ->
  bucket freq df k = polarities freq df k.
Proof.
  intros H. unfold bucket, bucket_cells, polarities.
  rewrite (@timed_docs_documents df H). apply numbers_of_documents.
  intros p Hp. cbn [fst]. apply same_period_test.
  apply (documents_in_range df), Hp.
Qed.

Section WithPandas.
Variable resample_raises : Freq -> list Z -> bool.

Definition trends (df : DataFrame) (freq : Freq) : list trend_row :=
  fst (calculate_sentiment_trends resample_raises df freq).

Lemma trends_rows (df : DataFrame) (freq : Freq) :
  trend_cols df = true -> empty df = false ->
  (forall p, In p (timed_docs df) -> is_text (snd p) = false) ->
  resample_raises freq (map fst (timed_docs df)) = false ->
  match map (fun p => period_of freq (fst p)) (timed_docs df) with
  | [] => trends df freq = []
  | p0 :: ps =>
      trends df freq
      = trend_rows freq (timed_docs df)
                   (zrange (zmin_list p0 ps) (zmax_list p0 ps))
  end.
Proof.
  intros Hc He Hnum Hraise. unfold trends, calculate_sentiment_trends.
  unfold trend_cols in Hc. apply andb_true_iff in Hc. destruct Hc as [-> ->].
  rewrite He. cbn [negb orb]. fold (timed_docs df).
  assert (Ht : existsb (fun p => is_text (snd p)) (timed_docs df) = false).
  { apply not_true_is_false. intros H. apply existsb_exists in H.
    destruct H as (p & Hp & Htext). rewrite (Hnum p Hp) in Htext.
    discriminate. }
  rewrite Hraise, Ht. clear Ht Hnum Hraise.
  destruct (timed_docs df) as [|d ds]; [reflexivity|].
  cbn [map fst]. unfold resample. cbn [map].
  rewrite flat_map_map. reflexivity.
Qed.

(** The trend in the code's own terms: one row for each period number
    some selected record has, in increasing order, with the mean and the
    count of the records of that number. *)
Lemma trend_rows_by_number (df : DataFrame) (freq : Freq) :
  trend_cols df = true ->
  (forall p, In p (timed_docs df) -> is_text (snd p) = false) ->
  resample_raises freq (map fst (timed_docs df)) = false ->
  (forall k,
      (exists row, In row (trends df freq) /\ period row = k)
      <-> exists p, In p (timed_docs df) /\ period_of freq (fst p) = k)
  /\ (forall row,
         In row (trends df freq) ->
         mean_sentiment row = mean (bucket freq df (period row))
         /\ comment_count row = List.length (bucket freq df (period row))
         /\ 0 < comment_count row)
  /\ StronglySorted Z.lt (map period (trends df freq)).
Proof.
  intros Hc Hnum Hraise. destruct (empty df) eqn:He.
  { assert (Hr : rows df = []).
    { apply (empty_rows df time_col); [|exact He].
      unfold trend_cols in Hc. apply andb_true_iff in Hc. apply Hc. }
    assert (Ht : trends df freq = []).
    { unfold trends, calculate_sentiment_trends. rewrite He.
      rewrite orb_true_r. reflexivity. }
    rewrite Ht. unfold timed_docs. rewrite Hr. simpl.
    repeat split; try contradiction; try constructor.
    - intros (row & [] & _).
    - intros (p & [] & _). }
  pose proof (@trends_rows df freq Hc He Hnum Hraise) as Hrows.
  destruct (map (fun p => period_of freq (fst p)) (timed_docs df))
    as [|p0 ps] eqn:Eper.
  - rewrite Hrows. apply map_eq_nil in Eper. rewrite Eper.
    repeat split; try contradiction; try constructor.
    + intros (row & [] & _).
    + intros (p & [] & _).
  - rewrite Hrows. clear Hrows.
    set (lo := zmin_list p0 ps). set (hi := zmax_list p0 ps).
    assert (Hbounds : forall p, In p (timed_docs df) ->
                                (lo <= period_of freq (fst p) <= hi)%Z).
    { intros p Hp.
      assert (Hin : In (period_of freq (fst p)) (p0 :: ps)).
      { rewrite <- Eper. apply in_map_iff. exists p. auto. }
      destruct (zmin_list_le ps p0) as [Hl1 Hl2].
      destruct (zmax_list_ge ps p0) as [Hh1 Hh2].
      destruct Hin as [<-|Hin]; [subst lo hi; lia|].
      specialize (Hl2 _ Hin). specialize (Hh2 _ Hin). subst lo hi. lia. }
    split; [|split].
    + intros k. split.
      * intros (row & Hrow & <-). apply trend_row_In in Hrow.
        destruct Hrow as (m & _ & Hm & _).
        apply series_mean_bucket in Hm. destruct Hm as [_ Hne].
        unfold bucket, bucket_cells in Hne.
        destruct (filter _ (timed_docs df)) as [|p l] eqn:Ef;
          [exfalso; apply Hne; reflexivity|].
        assert (Hp : In p (filter (fun p => (period_of freq (fst p) =? period row)%Z)
                                  (timed_docs df)))
          by (rewrite Ef; left; reflexivity).
        apply filter_In in Hp. destruct Hp as [Hp Hk].
        exists p. split; [exact Hp|]. apply Z.eqb_eq. exact Hk.
      * intros (p & Hp & Hk).
        assert (Hcells : In (snd p) (bucket_cells freq df k)).
        { apply in_map, filter_In. split; [exact Hp|].
          apply Z.eqb_eq. exact Hk. }
        pose proof (bucket_cells_numbers freq df k Hnum) as Hlen.
        destruct (series_mean (bucket_cells freq df k)) as [m|] eqn:Em.
        -- exists (mkTrend k m (List.length (bucket_cells freq df k))).
           split; [|reflexivity]. apply trend_row_In. exists m. simpl.
           repeat split; [|exact Em]. apply zrange_In. rewrite <- Hk.
           apply Hbounds, Hp.
        -- exfalso. unfold series_mean in Em. fold (bucket freq df k) in Em.
           destruct (bucket freq df k); [|discriminate].
           destruct (bucket_cells freq df k); [contradiction|discriminate].
    + intros row Hrow. apply trend_row_In in Hrow.
      destruct Hrow as (m & _ & Hm & Hrow).
      pose proof (bucket_cells_numbers freq df (period row) Hnum) as Hlen.
      apply series_mean_bucket in Hm. destruct Hm as [-> Hne].
      rewrite Hrow at 1 3 5. cbn [mean_sentiment comment_count].
      rewrite <- Hlen. repeat split.
      destruct (bucket freq df (period row)); [contradiction|simpl; lia].
    + apply trend_rows_periods, zrange_increasing.
Qed.

(** C7, amended: when no polarity of the frame is text and [resample] does
    not raise, the trend frame has a row for period [k] exactly when some
    valid document falls in the calendar period [k] (for the monthly trend:
    at or after 00:00 UTC of the first day of that month of that year and
    before 00:00 UTC of the first day of the next month); the row carries
    the mean of the polarities and the number of the valid documents that
    fall in that calendar period, which is at least one; and the rows are
    in increasing order of period, each period once. *)
Theorem trend_buckets_by_period (df : DataFrame) (freq : Freq) :
  trend_cols df = true ->
  (forall r, In r (rows df) -> is_text (compound_sentiment r) = false) ->
  resample_raises freq (map fst (documents df)) = false ->
  (forall k,
      (exists row, In row (trends df freq) /\ period row = k)
      <-> exists s q, In (s, q) (documents df) /\ in_period freq k s = true)
  /\ (forall row,
         In row (trends df freq) ->
         mean_sentiment row = mean (polarities freq df (period row))
         /\ comment_count row
            = List.length (polarities freq df (period row))
         /\ 0 < comment_count row)
  /\ StronglySorted Z.lt (map period (trends df freq)).
Proof.
  intros Hc Htext Hraise.
  pose proof (@timed_docs_documents df Htext) as Hdocs.
  assert (Hnum : forall p, In p (timed_docs df) -> is_text (snd p) = false).
  { intros p Hp. rewrite Hdocs in Hp. apply in_map_iff in Hp.
    destruct Hp as (p' & <- & _). reflexivity. }
  assert (Hraise' : resample_raises freq (map fst (timed_docs df)) = false).
  { rewrite Hdocs, map_map. cbn [fst]. exact Hraise. }
  destruct (@trend_rows_by_number df freq Hc Hnum Hraise') as (H1 & H2 & H3).
  split; [|split; [|exact H3]].
  - intros k. rewrite H1. split.
    + intros (p & Hp & Hk). rewrite Hdocs in Hp. apply in_map_iff in Hp.
      destruct Hp as ([s q] & <- & Hp). exists s, q. split; [exact Hp|].
      cbn [fst] in Hk. apply period_of_spec; [|exact Hk].
      apply (documents_in_range df (s, q)), Hp.
    + intros (s & q & Hp & Hk). exists (s, CNum q). split.
      * rewrite Hdocs. apply in_map_iff. exists (s, q). split; [reflexivity|].
        exact Hp.
      * cbn [fst]. apply period_of_spec; [|exact Hk].
        apply (documents_in_range df (s, q)), Hp.
  - intros row Hrow. rewrite <- (@bucket_polarities freq df (period row) Htext).
    apply H2, Hrow.
Qed.

End WithPandas.

(** Year and month of a period number of the monthly trend. *)
Definition month_of_period (k : Z) : Z * Z := ((k / 12)%Z, (k mod 12 + 1)%Z).

Definition dated_doc (i : nat) (t : Z) (c : cell) : Row :=
  mkRow i (Some (lit "E")) (Some t) (lit "text") (lit "link") c
        CNull CNull CNull CNull CNull.

(** One failure of [resample] that is known: a monthly bucket is labelled
    with the last day of its month, and pandas raises when that day is
    after 2262-04-11 (day 106751), the last day a nanosecond timestamp
    reaches.  This oracle raises in that case and in no other. *)
Definition month_label_overflows (freq : Freq) (instants : list Z) : bool :=
  match freq with
  | Monthly =>
      existsb (fun s => (106751 <? first_day Monthly (period_of Monthly s + 1) - 1)%Z)
              instants
  | _ => false
  end.

(** Documents at 2021-01-01 00:00:00, 2021-01-31 23:59:59, 2021-02-01
    00:00:00 and 2021-04-01 00:00:00 (UTC), one document without a
    polarity and one without a timestamp in March. *)
Definition months_frame : DataFrame :=
  mkDataFrame [time_col; sentiment_col]
    [dated_doc 0 1609459200 (CNum (1 # 2)%Q);
     dated_doc 1 1612137600 (CNum (1 # 4)%Q);
     dated_doc 2 1612137599 (CNum (-1 # 2)%Q);
     dated_doc 3 1617235200 (CNum 1%Q);
     dated_doc 4 1615000000 CNull;
     mkRow 5 (Some (lit "E")) None (lit "text") (lit "link") (CNum 1%Q)
           CNull CNull CNull CNull CNull].

(** The example of the specification: the two January documents, 30 days
    apart, share a bucket; the February document, one second after the
    second of them, starts a new bucket; March, which has no valid
    document, has no row. *)
Example calendar_months :
  map (fun row => (month_of_period (period row), comment_count row))
      (trends month_label_overflows months_frame Monthly)
  = [((2021, 1)%Z, 2); ((2021, 2)%Z, 1); ((2021, 4)%Z, 1)]
  /\ map mean_sentiment (trends month_label_overflows months_frame Monthly)
     = [mean [(1 # 2); (-1 # 2)]; mean [(1 # 4)]; mean [1]]%Q.
Proof. vm_compute. split; reflexivity. Qed.

(** Two documents in April 2262, the last month a nanosecond timestamp
    reaches: 2262-04-01 00:00:00 and 2262-04-11 23:47:16. *)
Definition last_month_frame : DataFrame :=
  mkDataFrame [time_col; sentiment_col]
    [dated_doc 0 9222422400 (CNum (1 # 2)%Q);
     dated_doc 1 9223372036 (CNum (1 # 4)%Q)].

(** C7, refuted as stated: both documents are valid and fall in the same
    calendar month, yet the trend has no bucket for them.  The label of
    their bucket would be 2262-04-30, [resample] raises, and the handler
    returns the empty frame. *)
Lemma last_month_has_no_bucket :
  documents last_month_frame
  = [(9222422400%Z, (1 # 2)%Q); (9223372036%Z, (1 # 4)%Q)]
  /\ month_of_period last_month = (2262, 4)%Z
  /\ in_period Monthly last_month 9222422400 = true
  /\ in_period Monthly last_month 9223372036 = true
  /\ month_label_overflows Monthly (map fst (documents last_month_frame))
     = true
  /\ trends month_label_overflows last_month_frame Monthly = [].
Proof. vm_compute. repeat split; reflexivity. Qed.

Lemma trend_buckets_by_period_witness :
  (forall k,
      (exists row, In row (trends month_label_overflows months_frame Monthly)
                   /\ period row = k)
      <-> exists s q, In (s, q) (documents months_frame)
                      /\ in_period Monthly k s = true)
  /\ (forall row,
         In row (trends month_label_overflows months_frame Monthly) ->
         mean_sentiment row = mean (polarities Monthly months_frame (period row))
         /\ comment_count row
            = List.length (polarities Monthly months_frame (period row))
         /\ 0 < comment_count row)
  /\ StronglySorted Z.lt
       (map period (trends month_label_overflows months_frame Monthly)).
Proof.
  apply (@trend_buckets_by_period month_label_overflows months_frame Monthly).
  - reflexivity.
  - intros r Hr. vm_compute in Hr.
    repeat (destruct Hr as [<-|Hr]; [reflexivity|]). contradiction.
  - reflexivity.
Defined.

End TrendsSpec.

(* ================================================================== *)
(** ** summarizer.py: the overall mean per entity *)

Module OverallSpec.
Import Analyzer Summarizer FrameProofs Sorting.

Lemma dropna_values_In {K} (l : list (K * option Q)) (k : K) (q : Q) :
  In (k, q) (dropna_values l) <-> In (k, Some q) l.
Proof.
  unfold dropna_values. rewrite in_flat_map. split.
  - intros ([k' [q'|]] & Hin & H); simpl in H; [|contradiction].
    destruct H as [H|[]]. injection H as -> ->. exact Hin.
  - intros H. exists (k, Some q). split; [exact H|]. left. reflexivity.
Qed.

Section WithPandas.
Variable parse_float : str -> option Q.
Variable sort_values : forall A : Type, (A -> option Q) -> bool -> list A -> list A.
Hypothesis sort_ok : sort_contract sort_values.

(** The non-null overall polarities of the documents of an entity, as the
    function reads them. *)
Definition entity_polarities (df : DataFrame) (e : str) : list Q :=
  numbers (map compound_sentiment
               (filter (in_group e) (rows (coerce_compound parse_float df)))).

Definition overall (df : DataFrame) : list (str * Q) :=
  fst (calculate_overall_sentiment parse_float sort_values df).

(** An entity is listed exactly when one of its documents has a non-null
    polarity, with the mean of its non-null polarities; the entries are in
    descending order of the mean. *)
Theorem overall_sentiment_by_entity (df : DataFrame) :
  has_col df college_col = true -> has_col df sentiment_col = true ->
  (forall e m,
      In (e, m) (overall df)
      <-> entity_polarities df e <> [] /\ m = mean (entity_polarities df e))
  /\ Sorted (fun p q => Qle_bool (snd q) (snd p) = true) (overall df).
Proof.
  intros Hc Hs. unfold overall, calculate_overall_sentiment.
  rewrite Hc, Hs. cbn [negb orb]. destruct (empty df) eqn:He.
  - cbn [fst]. split; [|constructor]. intros e m. split; [contradiction|].
    intros [Hne _]. exfalso. apply Hne. unfold entity_polarities, coerce_compound.
    cbn [rows]. rewrite (empty_rows df _ Hc He). reflexivity.
  - cbn [fst]. split.
    + intros e m.
      set (means := map _ (groupby _)).
      assert (Hp : Permutation
                     (sort_values (fun p : str * Q => Some (snd p)) false
                                  (dropna_values means))
                     (dropna_values means)) by apply (sort_perm sort_ok).
      split.
      * intros Hin. apply (Permutation_in _ Hp) in Hin.
        apply dropna_values_In in Hin. subst means.
        apply in_map_iff in Hin. destruct Hin as ([k g] & Heq & Hg).
        unfold groupby in Hg. apply in_map_iff in Hg.
        destruct Hg as (k' & Hk & _). injection Hk as <- <-.
        cbn [fst snd] in Heq. injection Heq as <- Hm.
        assert (Hm' : AggregatorProofs.mean_of (entity_polarities df k') = Some m).
        { unfold entity_polarities.
          rewrite <- AspectSummarySpec.series_mean_mean_of. exact Hm. }
        destruct (entity_polarities df k') eqn:E; [discriminate|].
        injection Hm' as <-. split; [discriminate|reflexivity].
      * intros [Hne ->]. apply (Permutation_in _ (Permutation_sym Hp)).
        apply dropna_values_In. subst means. apply in_map_iff.
        exists (e, filter (in_group e) (rows (coerce_compound parse_float df))).
        split.
        -- cbn [fst snd]. rewrite AspectSummarySpec.series_mean_mean_of.
           fold (entity_polarities df e).
           destruct (entity_polarities df e); [contradiction|reflexivity].
        -- unfold groupby. apply in_map_iff. exists e. split; [reflexivity|].
           apply group_exists. intros Hnil. apply Hne.
           unfold entity_polarities. rewrite Hnil. reflexivity.
    + apply (sort_sorted sort_ok (fun p : str * Q => Some (snd p)) false).
Qed.

End WithPandas.

Definition overall_frame : DataFrame :=
  mkDataFrame [college_col; sentiment_col]
    [TopReviewsSpec.review_doc 0 "E" "a" (CNum (1 # 2)%Q);
     TopReviewsSpec.review_doc 1 "F" "b" CNull;
     TopReviewsSpec.review_doc 2 "G" "c" (CNum (3 # 4)%Q);
     TopReviewsSpec.review_doc 3 "E" "d" (CNum (-1 # 2)%Q)].

Example overall_example :
  map (fun p => (string_of_list_ascii (fst p), Qred (snd p)))
      (overall AspectSummarySpec.reads_nothing stable_sort overall_frame)
  = [("G"%string, (3 # 4)%Q); ("E"%string, 0%Q)].
Proof. vm_compute. reflexivity. Qed.

Lemma overall_sentiment_by_entity_witness :
  Sorted (fun p q => Qle_bool (snd q) (snd p) = true)
         (overall AspectSummarySpec.reads_nothing stable_sort overall_frame).
Proof.
  apply (@overall_sentiment_by_entity AspectSummarySpec.reads_nothing
           stable_sort stable_sort_contract overall_frame);
    reflexivity.
Defined.

End OverallSpec.

(* ================================================================== *)
(** ** summarizer.py: sizes of the two lists of top reviews *)

Module TopReviewsSizes.
Import Analyzer Summarizer FrameProofs Sorting TopReviewsProofs.

Lemma head_length {A} (n : Z) (l : list A) :
  List.length (head n l)
  = if (0 <=? n)%Z then Nat.min (Z.to_nat n) (List.length l)
    else List.length l - Z.to_nat (- n).
Proof.
  unfold head. destruct (0 <=? n)%Z; rewrite length_firstn; lia.
Qed.

Lemma tail_length {A} (n : Z) (l : list A) :
  List.length (tail n l) = List.length (head n l).
Proof.
  rewrite head_length. unfold tail.
  destruct (n =? 0)%Z eqn:E0.
  - apply Z.eqb_eq in E0. subst n. reflexivity.
  - apply Z.eqb_neq in E0. destruct (0 <? n)%Z eqn:E1.
    + apply Z.ltb_lt in E1.
      assert (E2 : (0 <=? n)%Z = true) by (apply Z.leb_le; lia).
      rewrite E2, length_skipn. lia.
    + apply Z.ltb_ge in E1.
      assert (E2 : (0 <=? n)%Z = false) by (apply Z.leb_gt; lia).
      rewrite E2, length_skipn. reflexivity.
Qed.

Section WithPandas.
Variable parse_float : str -> option Q.
Variable sort_values : forall A : Type, (A -> option Q) -> bool -> list A -> list A.
Hypothesis sort_ok : sort_contract sort_values.

(** For every n, zero and negative included, the two lists of an entry
    have the same number of records: min(n, count) for n >= 0 and
    count - |n| (or none) for n < 0, where count is the number of the
    entity's documents with a polarity. *)
Theorem top_lists_have_equal_length (df : DataFrame) (n : Z) (e : str)
  (entry : top_reviews_entry) :
  required_cols df = true ->
  lookup e (top parse_float sort_values df n) = Some entry ->
  let count := List.length (valid_docs parse_float df e) in
  List.length (positive entry) = List.length (negative entry)
  /\ List.length (positive entry)
     = if (0 <=? n)%Z then Nat.min (Z.to_nat n) count
       else count - Z.to_nat (- n).
Proof.
  intros Hc Hentry count.
  assert (He : empty df = false).
  { destruct (empty df) eqn:He; [|reflexivity].
    unfold top, find_top_reviews in Hentry. fold (required_cols df) in Hentry.
    rewrite Hc, He in Hentry. discriminate. }
  rewrite (top_lookup parse_float sort_values df n e Hc He) in Hentry.
  cbv zeta in Hentry.
  destruct (valid_docs parse_float df e) as [|r0 l0] eqn:Ev; [discriminate|].
  rewrite <- Ev in *. injection Hentry as <-. cbn [positive negative].
  rewrite !length_map.
  rewrite (Permutation_length (sort_perm sort_ok _ _ _)).
  rewrite tail_length, head_length.
  rewrite (Permutation_length (sort_perm sort_ok _ _ _)).
  subst count. rewrite Ev. split; reflexivity.
Qed.

End WithPandas.

Lemma top_lists_have_equal_length_witness :
  exists entry,
    lookup (lit "E")
      (top AspectSummarySpec.reads_nothing stable_sort
           TopReviewsSpec.ranked_frame 0) = Some entry
    /\ positive entry = [] /\ negative entry = [].
Proof.
  destruct (lookup (lit "E")
              (top AspectSummarySpec.reads_nothing stable_sort
                   TopReviewsSpec.ranked_frame 0))
    as [entry|] eqn:E; [|vm_compute in E; discriminate E].
  exists entry. split; [reflexivity|].
  destruct (@top_lists_have_equal_length AspectSummarySpec.reads_nothing
              stable_sort stable_sort_contract TopReviewsSpec.ranked_frame 0
              (lit "E") entry eq_refl E) as [H1 H2].
  rewrite H2 in H1. simpl in H1, H2.
  destruct (positive entry); [|discriminate H2].
  destruct (negative entry); [|discriminate H1]. split; reflexivity.
Defined.

End TopReviewsSizes.

(* ================================================================== *)
(** ** cleaner.py: the form of cleaned text *)

Module CleanedTextSpec.
Import Re Cleaner StrFacts CleanerProofs.

Lemma clean_str_length (t : str) :
  List.length (clean_str t) <= List.length t.
Proof.
  unfold clean_str, split.
  pose proof (sub_length (lower t) (removed_shrinks url_at url_at_bounds)) as H1.
  fold m_url in H1. unfold lower in H1 at 2. rewrite length_map in H1.
  set (t1 := sub m_url (lower t)) in *.
  pose proof (sub_length t1 (removed_shrinks mention_at mention_at_bounds)) as H2.
  fold m_mention in H2. set (t2 := sub m_mention t1) in *.
  pose proof (sub_length t2 (one_of_shrinks is_markdown)) as H3.
  fold m_markdown in H3. set (t3 := sub m_markdown t2) in *.
  pose proof (sub_length t3 link_shrinks) as H4. set (t4 := sub m_link t3) in *.
  pose proof (sub_length t4 quote_shrinks) as H5. set (t5 := sub m_quote t4) in *.
  pose proof (sub_length t5 entity_shrinks) as H6. set (t6 := sub m_entity t5) in *.
  pose proof (sub_length t6 (one_of_shrinks (fun c => negb (is_kept c)))) as H7.
  fold m_special in H7. set (t7 := sub m_special t6) in *.
  pose proof (join_split_length t7 []) as H8. cbn [List.length] in H8. lia.
Qed.

(** The characters a cleaned text can hold. *)
Definition allowed (c : ascii) : bool :=
  is_az c || existsb (Ascii.eqb c) (lit " .,?!'").

Lemma out_char_allowed (c : ascii) : out_char c = true -> allowed c = true.
Proof. by_cases_on_char c. Qed.

(** Whatever the input, the cleaned text holds only the letters a..z, the
    marks [. , ? ! '] and single spaces; it neither starts nor ends with a
    space and has no two spaces in a row (it is the join of its own words);
    and it is never longer than the input. *)
Theorem clean_text_is_normalised (text : pyobj) :
  forallb allowed (clean_text text) = true
  /\ join (lit " ") (split (clean_text text)) = clean_text text
  /\ match text with
     | PyStr s => List.length (clean_text text) <= List.length s
     | _ => clean_text text = []
     end.
Proof.
  destruct text as [s| | |]; try (repeat split; reflexivity).
  cbn [clean_text]. destruct (clean_str_shape s) as (ws & Hws & E).
  repeat split.
  - rewrite E. apply forallb_forall. intros c Hc.
    pose proof (join_out_chars Hws) as H. rewrite Forall_forall in H.
    apply out_char_allowed, H, Hc.
  - rewrite E, (split_join Hws). reflexivity.
  - apply clean_str_length.
Qed.

End CleanedTextSpec.

(* ================================================================== *)
(** ** analyzer.py: how often the oracle is invoked *)

Module OracleCallsSpec.
Import Analyzer AdapterProofs TaggerSpec AggregatorProofs.

(** The texts the oracle was invoked on, in order. *)
Definition oracle_calls (l : list event) : list str :=
  flat_map (fun ev => match ev with
                      | PolarityScores t => [t]
                      | Print _ => []
                      end) l.

Lemma bind_trace {A B} (m : M A) (f : A -> M B) (a : A) :
  value m = Return a -> trace (bind m f) = trace m ++ trace (f a).
Proof.
  destruct m as [[a'|e] l]; unfold value, trace; simpl; intros H;
    [|discriminate].
  injection H as ->. destruct (f a). reflexivity.
Qed.

Lemma adapter_calls (env : environment) (an : str -> outcome scores_dict)
  (t : str) :
  analyzer env = Some an ->
  oracle_calls (trace (get_vader_sentiment env (PyStr t)))
  = if is_blank t then [] else [t].
Proof.
  intros Han. unfold get_vader_sentiment. rewrite Han.
  destruct (is_blank t); [reflexivity|].
  unfold call_polarity_scores, try_except, bind.
  destruct (an t) as [scores|e]; [|reflexivity].
  assert (Hg : forall key d, exists r, getitem d key = (r, [])).
  { intros key. induction d as [|[k v] d IH]; cbn [getitem];
      [eexists; reflexivity|].
    destruct (str_eqb k key); [eexists; reflexivity|exact IH]. }
  destruct (Hg (lit "compound") scores) as [[v|e] ->]; reflexivity.
Qed.

Lemma loop_calls (env : environment) (an : str -> outcome scores_dict)
  (sentences : list str) :
  analyzer env = Some an ->
  forall acc,
    oracle_calls (trace (for_sentences env sentences acc))
    = filter (fun s => negb (is_blank s)) sentences.
Proof.
  intros Han. induction sentences as [|s rest IH]; intros acc; [reflexivity|].
  cbn [for_sentences].
  rewrite (bind_trace _ _ (get_vader_sentiment_value env s)).
  unfold oracle_calls in *. rewrite flat_map_app.
  fold (oracle_calls (trace (get_vader_sentiment env (PyStr s)))).
  rewrite (adapter_calls env s Han), IH. simpl.
  destruct (is_blank s); reflexivity.
Qed.

Lemma average_into_trace (acc : aspect_dict (list Q))
  (m : M (aspect_dict (option Q))) (final : aspect_dict (option Q))
  (a : Aspect) :
  value m = Return final -> trace (average_into acc m a) = trace m.
Proof.
  intros Hm. unfold average_into. rewrite (bind_trace _ _ Hm).
  destruct (acc a) as [|x l]; [apply app_nil_r|].
  unfold py_div. rewrite py_len_nonzero. apply app_nil_r.
Qed.

Lemma average_loop_trace (acc : aspect_dict (list Q)) (l : list Aspect) :
  forall m final,
    value m = Return final ->
    trace (fold_left (average_into acc) l m) = trace m.
Proof.
  induction l as [|a l IH]; intros m final Hm; [reflexivity|].
  simpl. rewrite (IH _ _ (average_into_value acc m a Hm)).
  apply (average_into_trace acc m a Hm).
Qed.

(** In one call of [analyze_aspect_sentiment] the oracle is invoked once
    for each sentence that is not blank, in the order of the sentences,
    however many aspects a sentence matches; it is not invoked at all when
    the analyzer is unavailable, the text is invalid, or segmentation
    fails. *)
Theorem oracle_invoked_once_per_sentence (env : environment) (text : pyobj) :
  oracle_calls (trace (analyze_aspect_sentiment env text))
  = match analyzer env with
    | None => []
    | Some _ => filter (fun s => negb (is_blank s)) (sentences_of env text)
    end.
Proof.
  unfold analyze_aspect_sentiment, sentences_of.
  destruct (analyzer env) as [an|] eqn:Han; [|reflexivity].
  destruct text as [t| | |]; try reflexivity.
  destruct (is_blank t); [reflexivity|].
  destruct (sent_tokenize env t) as [sentences|e]; [|reflexivity].
  destruct (for_sentences_spec env sentences (dict_init []))
    as (acc & Hv & _).
  rewrite (bind_trace _ _ Hv). unfold oracle_calls. rewrite flat_map_app.
  fold (oracle_calls (trace (for_sentences env sentences (dict_init [])))).
  rewrite (loop_calls env sentences Han).
  rewrite (average_loop_trace acc aspects (ret (dict_init None)) eq_refl).
  simpl. apply app_nil_r.
Qed.

Example one_call_for_two_aspects :
  oracle_calls
    (trace (analyze_aspect_sentiment AdapterSpec.toy_env
              (PyStr (lit "The academics are great but the hostel food is bad"))))
  = [lit "The academics are great but the hostel food is bad"].
Proof. vm_compute. reflexivity. Qed.

End OracleCallsSpec.

(* ================================================================== *)
(** ** reddit_scraper.py and main.py: the key of a source *)

Module SourceKey.
Import Re.

(** [f"{college_name} (r/{subreddit_name})"] in [run_scraper]. *)
Definition data_key (college_name subreddit_name : str) : str :=
  college_name ++ lit " (r/" ++ subreddit_name ++ lit ")".

(** [\s\(r/(\w+)\)] matched at the start of [s]: the second group. *)
Definition key_tail (s : str) : option str :=
  match s with
  | c :: r =>
      if isspace c && starts_with (lit "(r/") r
      then let rest := skipn 3 r in
           match span isword rest with
           | O => None
           | S k =>
               match skipn (S k) rest with
               | d :: _ => if is_code 41 d then Some (firstn (S k) rest)
                           else None
               | [] => None
               end
           end
      else None
  | [] => None
  end.

(** [re.match] of the key against the pattern of [run_full_pipeline]: a
    first group of any characters but line feeds, greedy, followed by
    [\s\(r/(\w+)\)].  The first group takes as much of the first line as
    it can while the rest of the pattern still matches.  Returns the two
    groups. *)
Fixpoint match_source_key (s : str) : option (str * str) :=
  match s with
  | [] => None
  | c :: r =>
      let here := option_map (fun g2 => ([], g2)) (key_tail s) in
      if dot c
      then match match_source_key r with
           | Some (g1, g2) => Some (c :: g1, g2)
           | None => here
           end
      else here
  end.

(** The college and the subreddit [run_full_pipeline] reads from a key:
    the key itself and "Unknown" when the pattern does not match. *)
Definition parse_source_key (source_key : str) : str * str :=
  match match_source_key source_key with
  | Some (g1, g2) => (strip g1, g2)
  | None => (source_key, lit "Unknown")
  end.

End SourceKey.

Module SourceKeySpec.
Import Re SourceKey StrFacts.

Lemma word_not_space (c : ascii) : isword c = true -> isspace c = false.
Proof. by_cases_on_char c. Qed.

Lemma no_space_no_match (s : str) :
  forallb nonspace s = true -> match_source_key s = None.
Proof.
  induction s as [|c r IH]; [reflexivity|]. simpl forallb.
  intros H. apply andb_true_iff in H. destruct H as [Hc Hr].
  cbn [match_source_key]. rewrite (IH Hr). unfold key_tail.
  unfold nonspace in Hc. apply negb_true_iff in Hc. rewrite Hc.
  destruct (dot c); reflexivity.
Qed.

Lemma span_app_all (f : ascii -> bool) (u : str) (d : ascii) (r : str) :
  forallb f u = true -> f d = false ->
  span f (u ++ d :: r) = List.length u.
Proof.
  intros Hu Hd. induction u as [|c u IH]; simpl in *; [rewrite Hd; reflexivity|].
  apply andb_true_iff in Hu. destruct Hu as [-> Hu]. rewrite IH by exact Hu.
  reflexivity.
Qed.

Lemma key_tail_unfold (c : ascii) (rest : str) :
  key_tail (c :: lit "(r/" ++ rest)
  = if isspace c
    then match span isword rest with
         | O => None
         | S k =>
             match skipn (S k) rest with
             | d :: _ => if is_code 41 d then Some (firstn (S k) rest)
                         else None
             | [] => None
             end
         end
    else None.
Proof. unfold key_tail. destruct (isspace c); reflexivity. Qed.

Lemma key_tail_of_key (c : ascii) (sub : str) :
  isspace c = true -> sub <> [] -> forallb isword sub = true ->
  key_tail (c :: lit "(r/" ++ sub ++ lit ")") = Some sub.
Proof.
  intros Hc Hne Hw. rewrite key_tail_unfold, Hc.
  change (lit ")") with (")"%char :: []).
  rewrite (span_app_all isword sub ")"%char [] Hw eq_refl).
  destruct (List.length sub) as [|k] eqn:E;
    [destruct sub; [contradiction|discriminate]|].
  rewrite <- E, TaggerProofs.skipn_length_app.
  replace (is_code 41 ")"%char) with true by reflexivity.
  rewrite firstn_app, Nat.sub_diag, firstn_all. cbn [firstn].
  rewrite app_nil_r. reflexivity.
Qed.

(** The key [run_scraper] builds for a college and a subreddit is read
    back by [run_full_pipeline] as that college, stripped of outer
    whitespace, and that subreddit, provided the college name has no line
    feed and the subreddit name is one or more word characters. *)
Theorem source_key_round_trip (college subreddit : str) :
  forallb dot college = true ->
  subreddit <> [] -> forallb isword subreddit = true ->
  parse_source_key (data_key college subreddit) = (strip college, subreddit).
Proof.
  intros Hdot Hne Hw. unfold parse_source_key, data_key.
  assert (H : match_source_key (college ++ lit " (r/" ++ subreddit ++ lit ")")
              = Some (college, subreddit)).
  { induction college as [|c college IH].
    - change ([] ++ lit " (r/" ++ subreddit ++ lit ")")
        with (" "%char :: lit "(r/" ++ subreddit ++ lit ")").
      cbn [match_source_key].
      rewrite no_space_no_match.
      + rewrite key_tail_of_key by (assumption || reflexivity). reflexivity.
      + change (lit "(r/" ++ subreddit ++ lit ")")
          with ("("%char :: "r"%char :: "/"%char :: subreddit ++ lit ")").
        cbn [forallb]. rewrite forallb_app.
        replace (forallb nonspace subreddit) with true; [reflexivity|].
        symmetry. apply forallb_forall. intros x Hx.
        rewrite forallb_forall in Hw. unfold nonspace.
        rewrite (word_not_space x (Hw x Hx)). reflexivity.
    - simpl in Hdot. apply andb_true_iff in Hdot. destruct Hdot as [Hc Hdot].
      change ((c :: college) ++ lit " (r/" ++ subreddit ++ lit ")")
        with (c :: (college ++ lit " (r/" ++ subreddit ++ lit ")")).
      cbn [match_source_key]. rewrite Hc, (IH Hdot). reflexivity. }
  rewrite H. reflexivity.
Qed.

Lemma source_key_round_trip_witness :
  parse_source_key (data_key (lit "IIT Delhi ") (lit "iitd_2024"))
  = (lit "IIT Delhi", lit "iitd_2024").
Proof.
  rewrite (@source_key_round_trip (lit "IIT Delhi ") (lit "iitd_2024"));
    [reflexivity|reflexivity|discriminate|reflexivity].
Defined.

(** A subreddit name with a character that is not a word character is not
    read back: the key does not match and the pipeline falls back to the
    whole key and "Unknown". *)
Example hyphenated_subreddit_is_not_read_back :
  parse_source_key (data_key (lit "IIT Delhi") (lit "iit-delhi"))
  = (lit "IIT Delhi (r/iit-delhi)", lit "Unknown").
Proof. vm_compute. reflexivity. Qed.

End SourceKeySpec.

(* ================================================================== *)
(** ** analyzer.py: scoring a frame of documents *)

Module SentimentFrame.
Import Analyzer Summarizer.

(** A cell of the text column as a caller may pass it: a string, [None]
    or NaN. *)
Inductive text_cell : Type :=
| TStr (s : str)
| TNone
| TNaN.

(** [str(x)], which [astype(str)] applies to every cell. *)
Definition astype_str (t : text_cell) : str :=
  match t with
  | TStr s => s
  | TNone => lit "None"
  | TNaN => lit "nan"
  end.

(** A record of the frame of comments before it is scored, with its index
    label.  The frame has no aspect column yet. *)
Record Comment : Type := mkComment {
  comment_label : nat;
  comment_college : option str;
  comment_created_utc : option Z;
  comment_text : text_cell;
  comment_permalink : str
}.

Record CommentFrame : Type := mkCommentFrame {
  comment_columns : list str;
  comments : list Comment
}.

Definition cell_of (x : option Q) : cell :=
  match x with Some q => CNum q | None => CNull end.

Definition is_none {A} (x : option A) : bool :=
  match x with None => true | Some _ => false end.

(** [[f(x) for x in l]] for an [f] that may raise and leaves a trace. *)
Fixpoint for_each {A B} (f : A -> M B) (l : list A) : M (list B) :=
  match l with
  | [] => ret []
  | x :: r => y <- f x ;; ys <- for_each f r ;; ret (y :: ys)
  end.

(** The column names after [df[col] = ...]: a new column goes last. *)
Definition with_col (cols : list str) (col : str) : list str :=
  if existsb (str_eqb col) cols then cols else cols ++ [col].

(** [df[text_col] = df[text_col].astype(str)] on one record. *)
Definition stringified (c : Comment) : Comment :=
  mkComment (comment_label c) (comment_college c) (comment_created_utc c)
            (TStr (astype_str (comment_text c))) (comment_permalink c).

(** A cell of [pd.DataFrame(aspect_results)]: a column all of whose values
    are [None] is an object column and keeps them; any other column is a
    float column, where [None] becomes NaN. *)
Definition frame_cell (aspect_results : list (aspect_dict (option Q)))
  (a : Aspect) (scores : aspect_dict (option Q)) : cell :=
  if forallb (fun d => is_none (d a)) aspect_results then CNone
  else cell_of (scores a).

(** A record of [pd.concat([df, aspect_df], axis=1)]. *)
Definition joined_row (aspect_results : list (aspect_dict (option Q)))
  (c : Comment) (compound : Q) (scores : aspect_dict (option Q)) : Row :=
  let pick a := frame_cell aspect_results a scores in
  mkRow (comment_label c) (comment_college c) (comment_created_utc c)
        (astype_str (comment_text c)) (comment_permalink c) (CNum compound)
        (pick academics) (pick placements) (pick infrastructure)
        (pick campus_life) (pick fees).

(** What the call returns and what it leaves of the caller's frame: the
    frame itself, untouched, when a guard returns early; otherwise a new
    frame, the caller's frame being left with its text column converted to
    strings and the compound column assigned ([left_columns], and each
    record with its compound score). *)
Inductive analysed : Type :=
| Unchanged
| Scored (out : DataFrame) (left_columns : list str)
         (left : list (Comment * Q)).

Definition apply_sentiment_analysis_to_df (env : environment)
  (df : CommentFrame) : M analysed :=
  if negb (existsb (str_eqb text_col) (comment_columns df))
  then tell (Print (lit "Error: Text column 'text' not found in DataFrame.")) ;;;
       ret Unchanged
  else
    match analyzer env with
    | None =>
        tell (Print (lit "Error: VADER analyzer not available. Cannot apply sentiment.")) ;;;
        ret Unchanged
    | Some _ =>
        tell (Print (lit "Applying VADER sentiment analysis...")) ;;;
        let texts := map (fun c => astype_str (comment_text c)) (comments df) in
        compound <- for_each (fun t => get_vader_sentiment env (PyStr t))
                             texts ;;
        let left_columns := with_col (comment_columns df) sentiment_col in
        tell (Print (lit "Applying aspect-based sentiment analysis...")) ;;;
        aspect_results <-
          for_each (fun t => analyze_aspect_sentiment env (PyStr t)) texts ;;
        let aspect_columns :=
          match aspect_results with
          | [] => []
          | _ :: _ => map aspect_col aspects
          end in
        let out :=
          mkDataFrame (left_columns ++ aspect_columns)
            (map (fun p => joined_row aspect_results (fst (fst p))
                                      (snd (fst p)) (snd p))
                 (combine (combine (comments df) compound) aspect_results)) in
        tell (Print (lit "Sentiment analysis applied.")) ;;;
        ret (Scored out left_columns
               (map (fun p => (stringified (fst p), snd p))
                    (combine (comments df) compound)))
    end.

End SentimentFrame.

Module SentimentFrameSpec.
Import Analyzer Summarizer SentimentFrame AdapterProofs TaggerSpec
       AggregatorProofs FrameProofs.

Lemma for_each_value {A B} (f : A -> M B) (g : A -> B) (l : list A) :
  (forall x, value (f x) = Return (g x)) ->
  value (for_each f l) = Return (map g l).
Proof.
  intros Hf. induction l as [|x l IH]; [reflexivity|].
  cbn [for_each]. rewrite (bind_value _ _ (Hf x)), (bind_value _ _ IH).
  reflexivity.
Qed.

Lemma tell_value {B} (ev : event) (k : M B) :
  value (tell ev ;;; k) = value k.
Proof. unfold tell, bind, value. destruct k. reflexivity. Qed.

Lemma combine_maps {A B C} (f : A -> B) (g : A -> C) (l : list A) :
  combine (map f l) (map g l) = map (fun x => (f x, g x)) l.
Proof.
  induction l as [|x l IH]; [reflexivity|]. simpl. rewrite IH. reflexivity.
Qed.

Lemma combine_map_self {A B} (g : A -> B) (l : list A) :
  combine l (map g l) = map (fun x => (x, g x)) l.
Proof.
  rewrite <- (map_id l) at 1. apply combine_maps.
Qed.

(** The text of a comment as the analysis reads it. *)
Definition text_of (c : Comment) : str := astype_str (comment_text c).

(** The score of an aspect for a text, as [analyze_aspect_sentiment]
    returns it: the mean over the matching sentences, absent without one. *)
Definition aspect_score (env : environment) (t : str) (a : Aspect)
  : option Q :=
  match analyzer env with
  | None => None
  | Some _ =>
      mean_of (map (polarity env)
                   (filter (mentions a) (sentences_of env (PyStr t))))
  end.

(** Some comment of the frame has a score for the aspect. *)
Definition mentioned (env : environment) (df : CommentFrame) (a : Aspect)
  : bool :=
  existsb (fun c => negb (is_none (aspect_score env (text_of c) a)))
          (comments df).

(** The cell of an aspect in the scored frame: the score; NaN for a comment
    without one when some other comment has one; [None] when no comment of
    the frame has one. *)
Definition scored_cell (env : environment) (df : CommentFrame)
  (c : Comment) (a : Aspect) : cell :=
  match aspect_score env (text_of c) a with
  | Some q => CNum q
  | None => if mentioned env df a then CNull else CNone
  end.

(** A comment with its scores filled in. *)
Definition scored (env : environment) (df : CommentFrame) (c : Comment)
  : Row :=
  mkRow (comment_label c) (comment_college c) (comment_created_utc c)
        (text_of c) (comment_permalink c) (CNum (polarity env (text_of c)))
        (scored_cell env df c academics) (scored_cell env df c placements)
        (scored_cell env df c infrastructure)
        (scored_cell env df c campus_life) (scored_cell env df c fees).

(** The result of [analyze_aspect_sentiment] as a function of the text. *)
Definition analysis (env : environment) (t : str) : aspect_dict (option Q) :=
  match value (analyze_aspect_sentiment env (PyStr t)) with
  | Return scores => scores
  | Raise _ => dict_init None
  end.

Lemma analysis_value (env : environment) (t : str) :
  value (analyze_aspect_sentiment env (PyStr t)) = Return (analysis env t).
Proof.
  unfold analysis.
  destruct (analyze_aspect_sentiment_value env (PyStr t)) as (s & -> & _).
  reflexivity.
Qed.

Lemma analysis_score (env : environment) (t : str) (a : Aspect) :
  analysis env t a = aspect_score env t a.
Proof.
  unfold analysis, aspect_score.
  destruct (analyze_aspect_sentiment_value env (PyStr t)) as (s & -> & Hs).
  apply Hs.
Qed.

Lemma none_everywhere (env : environment) (df : CommentFrame) (a : Aspect) :
  forallb (fun d => is_none (d a))
          (map (fun c => analysis env (text_of c)) (comments df))
  = negb (mentioned env df a).
Proof.
  unfold mentioned. induction (comments df) as [|c l IH]; [reflexivity|].
  cbn [map forallb existsb]. rewrite IH, analysis_score, negb_orb, negb_involutive.
  reflexivity.
Qed.

Lemma frame_cell_scored (env : environment) (df : CommentFrame)
  (c : Comment) (a : Aspect) :
  In c (comments df) ->
  frame_cell (map (fun c => analysis env (text_of c)) (comments df)) a
             (analysis env (text_of c))
  = scored_cell env df c a.
Proof.
  intros Hc. unfold frame_cell, scored_cell.
  rewrite none_everywhere, analysis_score.
  destruct (aspect_score env (text_of c) a) as [q|] eqn:E.
  - assert (Hm : mentioned env df a = true).
    { apply existsb_exists. exists c. split; [exact Hc|]. rewrite E.
      reflexivity. }
    rewrite Hm. reflexivity.
  - destruct (mentioned env df a); reflexivity.
Qed.

(** With the text column present and the analyzer available,
    [apply_sentiment_analysis_to_df] returns a new frame with the same
    records in the same order: the text of each is the string [str] makes of
    it (a missing text is scored as the word it prints as), its overall
    polarity and its five aspect scores are those of that string, and
    nothing else is changed.  The five aspect columns come after the
    existing ones, except that a frame without records gets no aspect
    column.  The caller's frame is left with its text converted to strings
    and the overall polarity assigned, and without the aspect columns. *)
Theorem apply_sentiment_scores_every_record (env : environment)
  (df : CommentFrame) :
  existsb (str_eqb text_col) (comment_columns df) = true ->
  analyzer env <> None ->
  exists out left_columns left,
    value (apply_sentiment_analysis_to_df env df)
    = Return (Scored out left_columns left)
    /\ rows out = map (scored env df) (comments df)
    /\ columns out
       = with_col (comment_columns df) sentiment_col
         ++ match comments df with
            | [] => []
            | _ :: _ => map aspect_col aspects
            end
    /\ left = map (fun c => (stringified c, polarity env (text_of c)))
                  (comments df)
    /\ left_columns = with_col (comment_columns df) sentiment_col.
Proof.
  intros Hc Han. unfold apply_sentiment_analysis_to_df. rewrite Hc.
  destruct (analyzer env) as [an|] eqn:Ean; [clear Han|contradiction].
  cbn [negb]. fold text_of.
  assert (H1 : value (for_each (fun t => get_vader_sentiment env (PyStr t))
                               (map text_of (comments df)))
               = Return (map (polarity env) (map text_of (comments df)))).
  { apply for_each_value. intros t. apply get_vader_sentiment_value. }
  assert (H2 : value (for_each (fun t => analyze_aspect_sentiment env (PyStr t))
                               (map text_of (comments df)))
               = Return (map (analysis env) (map text_of (comments df)))).
  { apply for_each_value. intros t. apply analysis_value. }
  rewrite tell_value, (bind_value _ _ H1), tell_value, (bind_value _ _ H2),
    tell_value.
  eexists. eexists. eexists. split; [reflexivity|].
  cbn [rows columns]. rewrite !map_map.
  rewrite (combine_map_self (fun c => polarity env (text_of c))).
  repeat split.
  - rewrite combine_maps, map_map. apply map_ext_in. intros c Hin. cbn [fst snd].
    unfold joined_row, scored. fold (text_of c).
    rewrite !(frame_cell_scored env df c) by exact Hin. reflexivity.
  - destruct (comments df); reflexivity.
  - rewrite map_map. reflexivity.
Qed.

(** Two comments as the loader hands them over, and one without text. *)
Definition comments_frame : CommentFrame :=
  mkCommentFrame [college_col; text_col; permalink_col; time_col]
    [mkComment 0 (Some (lit "E")) (Some 1609459200%Z)
               (TStr (lit "The hostel food is bad")) (lit "link0");
     mkComment 1 (Some (lit "E")) (Some 1609459200%Z)
               (TStr (lit "Nice weather today")) (lit "link1");
     mkComment 2 (Some (lit "F")) (Some 1609459200%Z) TNone (lit "link2")].

Definition outcome_of (m : M analysed) : option analysed :=
  match value m with
  | Return r => Some r
  | Raise _ => None
  end.

(** The frame built from them: the aspect nobody mentions is a column of
    [None], the aspect one comment mentions has NaN for the others, and the
    missing text is scored as the string "None". *)
Example scored_comments :
  option_map
    (fun r => match r with
              | Scored out _ _ =>
                  map (fun r => (string_of_list_ascii (text r),
                                 compound_sentiment r,
                                 infrastructure_sentiment r, fees_sentiment r))
                      (rows out)
              | Unchanged => []
              end)
    (outcome_of (apply_sentiment_analysis_to_df AdapterSpec.toy_env
                   comments_frame))
  = Some [("The hostel food is bad"%string, CNum (-1 # 2),
           CNum ((0 + (-1 # 2)) / 1), CNone);
          ("Nice weather today"%string, CNum (-1 # 2), CNull, CNone);
          ("None"%string, CNum (-1 # 2), CNull, CNone)]%Q.
Proof. vm_compute. reflexivity. Qed.

(** It is the frame on which the summaries are examined above. *)
Example scored_frame_is_built :
  option_map
    (fun r => match r with
              | Scored out _ _ => Some out
              | Unchanged => None
              end)
    (outcome_of (apply_sentiment_analysis_to_df AdapterSpec.toy_env
                   comments_frame))
  = Some (Some FrameEffectSpec.scored_frame).
Proof. vm_compute. reflexivity. Qed.

(** A frame without records gets the compound column and no aspect
    column. *)
Example no_record_no_aspect_column :
  option_map
    (fun r => match r with
              | Scored out _ _ => map string_of_list_ascii (columns out)
              | Unchanged => []
              end)
    (outcome_of (apply_sentiment_analysis_to_df AdapterSpec.toy_env
                   (mkCommentFrame [text_col] [])))
  = Some ["text"; "compound_sentiment"]%string.
Proof. vm_compute. reflexivity. Qed.

Lemma apply_sentiment_scores_every_record_witness :
  exists out left_columns left,
    value (apply_sentiment_analysis_to_df AdapterSpec.toy_env comments_frame)
    = Return (Scored out left_columns left)
    /\ rows out = map (scored AdapterSpec.toy_env comments_frame)
                      (comments comments_frame)
    /\ List.length (columns out) = 10
    /\ map (fun p => comment_text (fst p)) left
       = [TStr (lit "The hostel food is bad"); TStr (lit "Nice weather today");
          TStr (lit "None")].
Proof.
  destruct (@apply_sentiment_scores_every_record AdapterSpec.toy_env
              comments_frame eq_refl)
    as (out & cols & left & Hv & Hrows & Hcols & Hleft & _); [discriminate|].
  exists out, cols, left. split; [exact Hv|]. split; [exact Hrows|].
  rewrite Hcols, Hleft. split; reflexivity.
Defined.

End SentimentFrameSpec.

(* ================================================================== *)
(** ** cleaner.py: tokens of a text *)

Module Preprocess.
Import Cleaner Analyzer SentimentFrame.

(** The NLTK resources of the module: [word_tokenize] and
    [lemmatizer.lemmatize] return or raise, [stop_words] is a set,
    [stemmer.stem] returns. *)
Record nltk : Type := {
  word_tokenize : str -> outcome (list str);
  stop_words : list str;
  lemmatize : str -> outcome str;
  stem : str -> str
}.

(** [string.punctuation]: the ASCII marks, in code order. *)
Definition punctuation : str :=
  map ascii_of_nat (seq 33 15 ++ seq 58 7 ++ seq 91 6 ++ seq 123 4).

(** [w in s] for two strings: [w] occurs in [s]. *)
Fixpoint is_substring (w s : str) : bool :=
  starts_with w s ||
  match s with
  | [] => false
  | _ :: r => is_substring w r
  end.

(** [isinstance(e, LookupError)] for the built-in classes. *)
Definition is_lookup_error (e : exn) : bool :=
  existsb (str_eqb (exn_class e))
          [lit "LookupError"; lit "KeyError"; lit "IndexError"].

(** [try: body except LookupError: handler] *)
Definition try_except_lookup {A} (body : M A) (handler : M A) : M A :=
  match body with
  | (Return a, l) => (Return a, l)
  | (Raise e, l) =>
      if is_lookup_error e
      then let '(r, l') := handler in (r, l ++ l')
      else (Raise e, l)
  end.

Definition lift {A} (x : outcome A) : M A := (x, []).

(** The test of the list comprehension. *)
Definition is_content (nl : nltk) (word : str) : bool :=
  negb (existsb (str_eqb word) (stop_words nl))
  && (1 <? List.length word)
  && negb (is_substring word punctuation).

Definition preprocess_text (nl : nltk) (text : pyobj)
  (use_lemmatization use_stemming : bool) : M (list str) :=
  let cleaned_text := clean_text text in
  match cleaned_text with
  | [] => ret []
  | _ :: _ =>
      tokens <-
        try_except_lookup
          (tokens <- lift (word_tokenize nl cleaned_text) ;;
           ret (Some tokens))
          (tell (Print (lit "Error: NLTK 'punkt' tokenizer not found. Preprocessing failed.")) ;;;
           ret None) ;;
      match tokens with
      | None => ret []
      | Some tokens =>
          let processed_tokens := filter (is_content nl) tokens in
          if use_lemmatization
          then try_except_lookup
                 (for_each (fun word => lift (lemmatize nl word))
                           processed_tokens)
                 (tell (Print (lit "Error: NLTK 'wordnet'/'omw-1.4' not found. Lemmatization skipped.")) ;;;
                  ret processed_tokens)
          else if use_stemming
               then ret (map (stem nl) processed_tokens)
               else ret processed_tokens
      end
  end.

End Preprocess.

Module PreprocessSpec.
Import Cleaner Analyzer SentimentFrame Preprocess AggregatorProofs
       CleanedTextSpec.

(** The pairs of neighbouring characters of a string. *)
Fixpoint pairs (s : str) : list (ascii * ascii) :=
  match s with
  | c :: (d :: _) as r => (c, d) :: pairs r
  | _ => []
  end.

Lemma substring_pair (a b : ascii) (w s : str) :
  is_substring (a :: b :: w) s = true -> In (a, b) (pairs s).
Proof.
  induction s as [|c r IH]; [discriminate|].
  cbn [is_substring]. intros H. apply orb_true_iff in H.
  destruct H as [H|H].
  - destruct r as [|d r']; [simpl in H; rewrite andb_false_r in H; discriminate|].
    simpl in H. unfold ascii_eqb in H.
    apply andb_true_iff in H. destruct H as [Ha H].
    apply andb_true_iff in H. destruct H as [Hb _].
    apply Ascii.eqb_eq in Ha, Hb. subst. left. reflexivity.
  - destruct r as [|d r']; [simpl in H; discriminate|].
    right. apply IH. exact H.
Qed.

(** No two neighbouring characters of [string.punctuation] are both
    characters of cleaned text, so no token of two or more such characters
    is a piece of it. *)
Lemma cleaned_token_not_punctuation (w : str) :
  forallb allowed w = true -> 1 < List.length w ->
  is_substring w punctuation = false.
Proof.
  intros Hw Hlen. destruct w as [|a [|b w]]; simpl in Hlen; try lia.
  apply not_true_is_false. intros H. apply substring_pair in H.
  simpl in Hw. apply andb_true_iff in Hw. destruct Hw as [Ha Hw].
  apply andb_true_iff in Hw. destruct Hw as [Hb _].
  assert (Hall : forallb (fun p => negb (allowed (fst p) && allowed (snd p)))
                         (pairs punctuation) = true) by (vm_compute; reflexivity).
  rewrite forallb_forall in Hall. specialize (Hall _ H). simpl in Hall.
  rewrite Ha, Hb in Hall. discriminate.
Qed.

(** The lemma of a word when the lemmatizer returns one. *)
Definition lemma_of (nl : nltk) (word : str) : str :=
  match lemmatize nl word with Return w => w | Raise _ => word end.

(** What is done to a kept token under the two flags. *)
Definition reduce (nl : nltk) (use_lemmatization use_stemming : bool)
  (word : str) : str :=
  if use_lemmatization then lemma_of nl word
  else if use_stemming then stem nl word else word.

(** For a text whose cleaned form is not empty and whose tokens are made
    of the characters of cleaned text, with the lemmatizer available when
    it is asked for: the result is the tokens that are no stopwords and
    have at least two characters, in order, each lemmatized (if
    [use_lemmatization], whatever [use_stemming] says), else stemmed (if
    [use_stemming]), else unchanged.  Tokens of punctuation marks alone,
    such as "!!!", are kept. *)
Theorem content_tokens_of_cleaned_text (nl : nltk) (s : str)
  (use_lemmatization use_stemming : bool) (tokens : list str) :
  clean_text (PyStr s) <> [] ->
  word_tokenize nl (clean_text (PyStr s)) = Return tokens ->
  (forall w, In w tokens -> forallb allowed w = true) ->
  (use_lemmatization = true ->
   forall w, In w tokens -> exists w', lemmatize nl w = Return w') ->
  value (preprocess_text nl (PyStr s) use_lemmatization use_stemming)
  = Return (map (reduce nl use_lemmatization use_stemming)
                (filter (fun w => negb (existsb (str_eqb w) (stop_words nl))
                                  && (1 <? List.length w)) tokens)).
Proof.
  intros Hne Htok Hchars Hlem. unfold preprocess_text.
  destruct (clean_text (PyStr s)) as [|c0 t0] eqn:Ec; [contradiction|].
  rewrite Htok. unfold lift, try_except_lookup. cbn [bind ret app].
  assert (Hfilter : filter (is_content nl) tokens
                    = filter (fun w => negb (existsb (str_eqb w) (stop_words nl))
                                       && (1 <? List.length w)) tokens).
  { apply filter_ext_in. intros w Hw. unfold is_content.
    destruct (1 <? List.length w) eqn:El;
      [|rewrite andb_false_r; reflexivity].
    apply Nat.ltb_lt in El.
    rewrite (cleaned_token_not_punctuation w (Hchars w Hw) El).
    rewrite andb_true_r. reflexivity. }
  rewrite Hfilter. set (kept := filter _ tokens).
  assert (Hkept : forall w, In w kept -> In w tokens).
  { intros w Hw. subst kept. apply filter_In in Hw. apply Hw. }
  destruct use_lemmatization.
  - assert (Hv : value (for_each (fun word => (lemmatize nl word, [])) kept)
                 = Return (map (lemma_of nl) kept)).
    { clear Hfilter. induction kept as [|w kept IH]; [reflexivity|].
      cbn [for_each map].
      destruct (Hlem eq_refl w (Hkept w (or_introl eq_refl))) as [w' Hw'].
      assert (Hw : value ((lemmatize nl w, []) : M str) = Return (lemma_of nl w)).
      { unfold lemma_of. rewrite Hw'. reflexivity. }
      rewrite (bind_value _ _ Hw), (bind_value _ _ (IH (fun x Hx => Hkept x (or_intror Hx)))).
      reflexivity. }
    unfold value in *.
    destruct (for_each (fun word => (lemmatize nl word, [])) kept) as [[r|e] l];
      [|discriminate].
    simpl in Hv. injection Hv as ->. reflexivity.
  - destruct use_stemming; cbn [reduce]; [reflexivity|].
    rewrite map_id. reflexivity.
Qed.

Definition toy_nltk : nltk :=
  {| word_tokenize := fun t => Return (split t);
     stop_words := [lit "the"; lit "is"];
     lemmatize := fun w => if str_eqb w (lit "fees") then Return (lit "fee")
                           else Return w;
     stem := fun w => firstn 3 w |}.

Lemma content_tokens_of_cleaned_text_witness :
  value (preprocess_text toy_nltk (PyStr (lit "The fees: HIGH !!! a")) true true)
  = Return [lit "fee"; lit "high"; lit "!!!"].
Proof.
  rewrite (@content_tokens_of_cleaned_text toy_nltk
             (lit "The fees: HIGH !!! a") true true
             (split (clean_text (PyStr (lit "The fees: HIGH !!! a"))))).
  - vm_compute. reflexivity.
  - vm_compute. discriminate.
  - reflexivity.
  - intros w Hw. vm_compute in Hw.
    repeat (destruct Hw as [<-|Hw]; [reflexivity|]). contradiction.
  - intros _ w _. unfold toy_nltk. cbn [lemmatize].
    destruct (str_eqb w (lit "fees")); eexists; reflexivity.
Defined.

End PreprocessSpec.

(* ================================================================== *)
(** ** plotter.py: file names of the word clouds *)

Module Plotter.
Import Re.

(** The class [\w\-] of the characters that are kept. *)
Definition is_safe (c : ascii) : bool := isword c || is_code 45 c.

(** [r'[^\w\-]+']: the longest run of other characters, replaced by one
    underscore. *)
Definition m_unsafe : matcher :=
  fun _ s =>
    match span (fun c => negb (is_safe c)) s with
    | O => None
    | S k => Some (lit "_", S k)
    end.

(** [re.sub(r'[^\w\-]+', '_', college.lower())] *)
Definition safe_college_name (college : str) : str :=
  sub m_unsafe (lower college).

(** The two paths [plot_word_clouds_for_top_reviews] writes to for a
    college, relative to the output directory. *)
Definition wc_path_pos (college : str) : str :=
  safe_college_name college ++ lit "_positive_wc.png".

Definition wc_path_neg (college : str) : str :=
  safe_college_name college ++ lit "_negative_wc.png".

End Plotter.

Module PlotterSpec.
Import Re Plotter StrFacts CleanerProofs.








Example safe_name_example :
  safe_college_name (lit "IIT (BHU), Varanasi - U.P.")
  = lit "iit_bhu_varanasi_-_u_p_".
Proof. vm_compute. reflexivity. Qed.

End PlotterSpec.

(* ================================================================== *)
(** ** scrape_nirf.py: choosing a subreddit for a college *)

Module Nirf.
Import Preprocess.

Definition MIN_SUBSCRIBERS : Z := 50.

(** What the search yields for a subreddit: its name and its number of
    subscribers, which may be missing. *)
Record subreddit : Type := {
  display_name : str;
  subscribers : option Z
}.

(** The variables of the loop. *)
Record best : Type := mkBest {
  best_match : option str;
  highest_score : Z;
  searched_subs : list str
}.

(** [sub.subscribers or 0] *)
Definition subscribers_or_0 (sub : subreddit) : Z :=
  match subscribers sub with Some n => n | None => 0%Z end.

(** The body of [for sub in results].  The square root of the count is
    taken in the integers. *)
Definition visit (term : str) (st : best) (sub : subreddit) : best :=
  let sub_name_lower := lower (display_name sub) in
  if existsb (str_eqb sub_name_lower) (searched_subs st) then st
  else
    let st := mkBest (best_match st) (highest_score st)
                     (sub_name_lower :: searched_subs st) in
    let subscribers := subscribers_or_0 sub in
    if (subscribers <? MIN_SUBSCRIBERS)%Z then st
    else
      let score :=
        ((if str_eqb sub_name_lower term then 2000
          else if is_substring term sub_name_lower then 150 else 0)
         + Z.sqrt subscribers)%Z in
      if (highest_score st <? score)%Z
      then mkBest (Some (display_name sub)) score (searched_subs st)
      else st.

(** [search term] is what [reddit.subreddits.search(term, limit=5)] yields
    before it ends or raises; the handler of the loop only reports the
    failure.  Console output and pauses are not modelled. *)
Definition find_best_subreddit (search : str -> list subreddit)
  (search_terms : list str) : option str :=
  best_match
    (fold_left
       (fun st term =>
          match term with
          | [] => st
          | _ :: _ => fold_left (visit term) (search term) st
          end)
       search_terms (mkBest None (-1) [])).

End Nirf.

Module NirfSpec.
Import Preprocess Nirf FrameProofs.

Definition qualifies (sub : subreddit) : bool :=
  (MIN_SUBSCRIBERS <=? subscribers_or_0 sub)%Z.

(** The subreddits visited, each with the term it was found under. *)
Definition visits (search : str -> list subreddit) (terms : list str)
  : list (str * subreddit) :=
  flat_map (fun term => match term with
                        | [] => []
                        | _ :: _ => map (pair term) (search term)
                        end) terms.

Lemma loop_as_visits (search : str -> list subreddit) (terms : list str) :
  forall st,
    fold_left (fun st term =>
                 match term with
                 | [] => st
                 | _ :: _ => fold_left (visit term) (search term) st
                 end) terms st
    = fold_left (fun st p => visit (fst p) st (snd p)) (visits search terms) st.
Proof.
  induction terms as [|term terms IH]; intros st; [reflexivity|].
  cbn [fold_left visits flat_map]. rewrite fold_left_app.
  fold (visits search terms). rewrite <- IH.
  destruct term as [|c t]; [reflexivity|]. f_equal.
  generalize (search (c :: t)). intros l. revert st.
  induction l as [|x l IHl]; intros st; [reflexivity|]. simpl. apply IHl.
Qed.

(** What holds of the loop variables after any number of visits. *)
Record invariant (seen : list (str * subreddit)) (st : best) : Prop := {
  inv_none : best_match st = None -> highest_score st = (-1)%Z;
  inv_score : (-1 <= highest_score st)%Z;
  inv_best : forall name,
      best_match st = Some name ->
      exists p, In p seen /\ display_name (snd p) = name
                /\ qualifies (snd p) = true;
  inv_searched : forall n,
      In n (searched_subs st) <->
      exists p, In p seen /\ lower (display_name (snd p)) = n;
  inv_found : forall p,
      In p seen -> qualifies (snd p) = true ->
      (forall q, In q seen ->
                 lower (display_name (snd q)) = lower (display_name (snd p)) ->
                 subscribers (snd q) = subscribers (snd p)) ->
      best_match st <> None
}.

Lemma invariant_step (seen : list (str * subreddit)) (st : best)
  (p : str * subreddit) :
  invariant seen st -> invariant (seen ++ [p]) (visit (fst p) st (snd p)).
Proof.
  intros [Hnone Hscore Hbest Hsearched Hfound]. unfold visit.
  destruct (existsb (str_eqb (lower (display_name (snd p)))) (searched_subs st))
    eqn:Eseen.
  - apply existsb_exists in Eseen. destruct Eseen as (n & Hn & En).
    apply str_eqb_eq in En. subst n.
    apply Hsearched in Hn. destruct Hn as (q0 & Hq0 & Eq0).
    split; try assumption.
    + intros name Hname. destruct (Hbest name Hname) as (q & Hq & H).
      exists q. split; [apply in_or_app; left; exact Hq|exact H].
    + intros n. rewrite Hsearched. split.
      * intros (q & Hq & H). exists q. split; [apply in_or_app; auto|exact H].
      * intros (q & Hq & H). apply in_app_or in Hq. destruct Hq as [Hq|[<-|[]]].
        -- exists q. auto.
        -- exists q0. split; [exact Hq0|congruence].
    + intros q Hq Hqual Hsame. apply in_app_or in Hq.
      destruct Hq as [Hq|[<-|[]]].
      * apply (Hfound q Hq Hqual). intros q' Hq' E.
        apply Hsame; [apply in_or_app; auto|exact E].
      * apply (Hfound q0 Hq0).
        -- unfold qualifies, subscribers_or_0 in *.
           rewrite (Hsame q0 (in_or_app _ _ _ (or_introl Hq0)) Eq0). exact Hqual.
        -- intros q' Hq' E. rewrite (Hsame q' (in_or_app _ _ _ (or_introl Hq'))),
             (Hsame q0 (in_or_app _ _ _ (or_introl Hq0)) Eq0); congruence.
  - assert (Hsearched' :
              forall n, In n (lower (display_name (snd p)) :: searched_subs st)
                        <-> exists q, In q (seen ++ [p])
                                      /\ lower (display_name (snd q)) = n).
    { intros n. simpl. rewrite Hsearched. split.
      - intros [<-|(q & Hq & H)].
        + exists p. split; [apply in_or_app; right; left; reflexivity|reflexivity].
        + exists q. split; [apply in_or_app; auto|exact H].
      - intros (q & Hq & H). apply in_app_or in Hq.
        destruct Hq as [Hq|[<-|[]]]; [right; exists q; auto|left; exact H]. }
    assert (Hnew : forall q, In q seen ->
                     lower (display_name (snd q)) <> lower (display_name (snd p))).
    { intros q Hq E.
      assert (Hin : In (lower (display_name (snd p))) (searched_subs st))
        by (apply Hsearched; exists q; auto).
      assert (existsb (str_eqb (lower (display_name (snd p)))) (searched_subs st) = true).
      { apply existsb_exists. eexists. split; [exact Hin|apply str_eqb_refl]. }
      congruence. }
    destruct (subscribers_or_0 (snd p) <? MIN_SUBSCRIBERS)%Z eqn:Esub.
    + assert (Hq : qualifies (snd p) = false).
      { unfold qualifies. apply Z.ltb_lt in Esub. apply Z.leb_gt. exact Esub. }
      split; cbn [best_match highest_score searched_subs]; try assumption.
      * intros name Hname. destruct (Hbest name Hname) as (q & Hq' & H).
        exists q. split; [apply in_or_app; left; exact Hq'|exact H].
      * intros q Hq' Hqual Hsame. apply in_app_or in Hq'.
        destruct Hq' as [Hq'|[<-|[]]]; [|congruence].
        apply (Hfound q Hq' Hqual). intros q' Hq'' E.
        apply Hsame; [apply in_or_app; auto|exact E].
    + assert (Hq : qualifies (snd p) = true).
      { unfold qualifies. apply Z.ltb_ge in Esub. apply Z.leb_le. exact Esub. }
      cbn [best_match highest_score searched_subs].
      set (score := ((if str_eqb (lower (display_name (snd p))) (fst p) then 2000
                      else if is_substring (fst p) (lower (display_name (snd p)))
                           then 150 else 0)
                     + Z.sqrt (subscribers_or_0 (snd p)))%Z).
      assert (Hs : (0 <= score)%Z).
      { subst score. pose proof (Z.sqrt_nonneg (subscribers_or_0 (snd p))).
        destruct (str_eqb _ _); [lia|]. destruct (is_substring _ _); lia. }
      destruct (highest_score st <? score)%Z eqn:Ecmp.
      * split; cbn [best_match highest_score searched_subs];
          try assumption; try discriminate; try lia.
        -- intros name Hname. injection Hname as <-. exists p.
           split; [apply in_or_app; right; left; reflexivity|auto].
      * apply Z.ltb_ge in Ecmp.
        split; cbn [best_match highest_score searched_subs]; try assumption.
        -- intros name Hname. destruct (Hbest name Hname) as (q & Hq' & H).
           exists q. split; [apply in_or_app; left; exact Hq'|exact H].
        -- intros q Hq' Hqual Hsame Hnone'. apply Hnone in Hnone'. lia.
Qed.

Lemma invariant_visits (l : list (str * subreddit)) :
  forall seen st,
    invariant seen st ->
    invariant (seen ++ l) (fold_left (fun st p => visit (fst p) st (snd p)) l st).
Proof.
  induction l as [|p l IH]; intros seen st H; simpl.
  - rewrite app_nil_r. exact H.
  - replace (seen ++ p :: l) with ((seen ++ [p]) ++ l)
      by (rewrite <- app_assoc; reflexivity).
    apply IH, invariant_step, H.
Qed.

Lemma invariant_final (search : str -> list subreddit) (terms : list str) :
  invariant (visits search terms)
            (fold_left (fun st p => visit (fst p) st (snd p))
                       (visits search terms) (mkBest None (-1) [])).
Proof.
  apply (@invariant_visits (visits search terms) [] (mkBest None (-1) [])).
  split; cbn [best_match highest_score searched_subs]; try discriminate;
    try reflexivity; try lia; try contradiction.
  intros n. split; [contradiction|intros (p & [] & _)].
Qed.

Lemma visits_In (search : str -> list subreddit) (terms : list str)
  (p : str * subreddit) :
  In p (visits search terms)
  <-> In (fst p) terms /\ fst p <> [] /\ In (snd p) (search (fst p)).
Proof.
  unfold visits. rewrite in_flat_map. split.
  - intros (term & Ht & Hp). destruct term as [|c t]; [contradiction|].
    apply in_map_iff in Hp. destruct Hp as (sub & <- & Hsub).
    simpl. repeat split; [exact Ht|discriminate|exact Hsub].
  - intros (Ht & Hne & Hsub). exists (fst p). split; [exact Ht|].
    destruct (fst p) as [|c t] eqn:E; [contradiction|].
    apply in_map_iff. exists (snd p). split; [|exact Hsub].
    rewrite <- E. destruct p; reflexivity.
Qed.

(** The subreddit chosen for a college was returned by the search of one
    of the non-empty search terms and has at least [MIN_SUBSCRIBERS]
    subscribers. *)
Theorem best_subreddit_was_found_and_is_large
  (search : str -> list subreddit) (terms : list str) (name : str) :
  find_best_subreddit search terms = Some name ->
  exists term sub,
    In term terms /\ term <> [] /\ In sub (search term)
    /\ display_name sub = name
    /\ (MIN_SUBSCRIBERS <= subscribers_or_0 sub)%Z.
Proof.
  unfold find_best_subreddit. rewrite loop_as_visits. intros H.
  destruct (inv_best (invariant_final search terms) H)
    as ([term sub] & Hin & Hname & Hq).
  apply visits_In in Hin. destruct Hin as (Ht & Hne & Hs).
  exists term, sub. simpl in *. repeat split; try assumption.
  apply Z.leb_le. exact Hq.
Qed.

(** If the search of some non-empty term returns a subreddit with at least
    [MIN_SUBSCRIBERS] subscribers, and a subreddit is reported with the
    same number of subscribers wherever it is returned, some subreddit is
    chosen. *)
Theorem large_subreddit_gives_a_match
  (search : str -> list subreddit) (terms : list str) (term : str)
  (sub : subreddit) :
  In term terms -> term <> [] -> In sub (search term) ->
  (MIN_SUBSCRIBERS <= subscribers_or_0 sub)%Z ->
  (forall t s, In t terms -> In s (search t) ->
               lower (display_name s) = lower (display_name sub) ->
               subscribers s = subscribers sub) ->
  find_best_subreddit search terms <> None.
Proof.
  intros Ht Hne Hs Hq Hsame. unfold find_best_subreddit.
  rewrite loop_as_visits.
  apply (@inv_found _ _ (invariant_final search terms) (term, sub)).
  - apply visits_In. auto.
  - apply Z.leb_le. exact Hq.
  - intros q Hq' E. apply visits_In in Hq'. destruct Hq' as (Hq1 & _ & Hq3).
    apply (Hsame (fst q) (snd q) Hq1 Hq3 E).
Qed.

Definition toy_search (term : str) : list subreddit :=
  if str_eqb term (lit "iitdelhi")
  then [ {| display_name := lit "IITD_memes"; subscribers := Some 10%Z |};
         {| display_name := lit "iitd"; subscribers := Some 900%Z |} ]
  else if str_eqb term (lit "iitd")
  then [ {| display_name := lit "IITD"; subscribers := Some 900%Z |};
         {| display_name := lit "Delhi"; subscribers := None |} ]
  else [].

Lemma best_subreddit_was_found_and_is_large_witness :
  exists term sub,
    In term [lit "iitdelhi"; []; lit "iitd"] /\ term <> []
    /\ In sub (toy_search term)
    /\ display_name sub = lit "iitd"
    /\ (MIN_SUBSCRIBERS <= subscribers_or_0 sub)%Z.
Proof.
  apply (@best_subreddit_was_found_and_is_large toy_search
           [lit "iitdelhi"; []; lit "iitd"] (lit "iitd")).
  vm_compute. reflexivity.
Defined.

Lemma large_subreddit_gives_a_match_witness :
  find_best_subreddit toy_search [lit "iitdelhi"; []; lit "iitd"] <> None.
Proof.
  apply (@large_subreddit_gives_a_match toy_search
           [lit "iitdelhi"; []; lit "iitd"] (lit "iitd")
           {| display_name := lit "IITD"; subscribers := Some 900%Z |}).
  - right. right. left. reflexivity.
  - discriminate.
  - left. reflexivity.
  - vm_compute. discriminate.
  - intros t s Ht Hs E.
    destruct Ht as [<-|[<-|[<-|[]]]]; vm_compute in Hs;
      repeat (destruct Hs as [<-|Hs]; [try reflexivity; vm_compute in E; discriminate E|]);
      contradiction.
Defined.

End NirfSpec.

(* ================================================================== *)
(** ** reddit_scraper.py: collecting the comments of the targets *)

Module RedditScraper.
Import SourceKey FrameProofs.

Definition SAVE_INCREMENTALLY : bool := true.
Definition SKIP_ALREADY_SCRAPED : bool := true.

(** An entry of the college map: the texts of its ['college_name'] and
    ['subreddit'] values, [None] for a key that is missing (or, for the
    subreddit, null). *)
Record target : Type := {
  college_name : option str;
  subreddit : option str
}.

Section Scraper.

(** The records [scrape_subreddit_comments] returns. *)
Variable comment : Type.

(** [all_comments_data]: keys in insertion order, each once. *)
Definition dict : Type := list (str * list comment).

Definition has_key (d : dict) (k : str) : bool :=
  existsb (fun p => str_eqb (fst p) k) d.

(** [d[k] = v] *)
Fixpoint setitem (d : dict) (k : str) (v : list comment) : dict :=
  match d with
  | [] => [(k, v)]
  | (k', v') :: r => if str_eqb k' k then (k', v) :: r
                     else (k', v') :: setitem r k v
  end.

(** The dict, and what [save_data] wrote to the output file, oldest
    first. *)
Record progress : Type := mkProgress {
  all_comments_data : dict;
  saved : list dict
}.

(** [scrape i name] is what [scrape_subreddit_comments] returns for the
    [i]-th target of the list. *)
Variable scrape : nat -> str -> list comment.

(** The body of [for sub_info in target_list], for the target at
    position [i]. *)
Definition visit_target (st : progress) (it : nat * target) : progress :=
  let '(i, sub_info) := it in
  match subreddit sub_info with
  | None | Some [] => st
  | Some subreddit_name =>
      let college :=
        match college_name sub_info with
        | Some c => c
        | None => lit "Unknown College"
        end in
      let key := data_key college subreddit_name in
      if SKIP_ALREADY_SCRAPED && has_key (all_comments_data st) key then st
      else
        match scrape i subreddit_name with
        | [] => st
        | comments =>
            let d := setitem (all_comments_data st) key comments in
            mkProgress d (if SAVE_INCREMENTALLY then saved st ++ [d]
                          else saved st)
        end
  end.

Definition numbered {A} (l : list A) : list (nat * A) :=
  combine (seq 0 (List.length l)) l.

(** [run_scraper], given whether PRAW started, the targets
    [load_target_subreddits] returned and the data
    [load_existing_data] returned.  Returns whether the path of the output
    file is returned (rather than None) and what was written to the
    file. *)
Definition run_scraper (reddit : bool) (target_list : option (list target))
  (existing : dict) : bool * list dict :=
  if negb reddit then (false, [])
  else
    match target_list with
    | None | Some [] => (false, [])
    | Some targets =>
        let loaded :=
          if SAVE_INCREMENTALLY || SKIP_ALREADY_SCRAPED then existing else [] in
        let st := fold_left visit_target (numbered targets)
                            (mkProgress loaded []) in
        (match all_comments_data st with [] => false | _ :: _ => true end,
         saved st ++ [all_comments_data st])
    end.

End Scraper.

End RedditScraper.

Module RedditScraperSpec.
Import SourceKey FrameProofs RedditScraper.

Section Scraper.
Variable comment : Type.
Variable scrape : nat -> str -> list comment.

Lemma lookup_setitem (d : dict comment) (key k : str) (v : list comment) :
  lookup k (setitem d key v)
  = if str_eqb key k then Some v else lookup k d.
Proof.
  induction d as [|[k' v'] r IH]; simpl.
  - reflexivity.
  - destruct (str_eqb k' key) eqn:E.
    + apply str_eqb_eq in E. subst k'. simpl.
      destruct (str_eqb key k); reflexivity.
    + simpl. destruct (str_eqb k' k) eqn:E'.
      * apply str_eqb_eq in E'. subst k'.
        destruct (str_eqb key k) eqn:E2; [|reflexivity].
        apply str_eqb_eq in E2. subst key. rewrite str_eqb_refl in E.
        discriminate.
      * exact IH.
Qed.

Lemma has_key_lookup (d : dict comment) (k : str) :
  has_key d k = false <-> lookup k d = None.
Proof.
  induction d as [|[k' v'] r IH]; simpl; [tauto|].
  destruct (str_eqb k' k); simpl; [split; discriminate|exact IH].
Qed.

(** The key [run_scraper] files a target under. *)
Definition key_of (t : target) (subreddit_name : str) : str :=
  data_key (match college_name t with
            | Some c => c
            | None => lit "Unknown College"
            end) subreddit_name.

(** Where an entry of the data comes from: it was loaded, or it is the
    non-empty result of scraping one of the targets. *)
Definition origin (existing : dict comment) (targets : list (nat * target))
  (k : str) (v : list comment) : Prop :=
  lookup k existing = Some v
  \/ (v <> []
      /\ exists i t sub,
          In (i, t) targets /\ subreddit t = Some sub
          /\ k = key_of t sub /\ v = scrape i sub).

Record invariant (existing : dict comment) (seen : list (nat * target))
  (st : progress comment) : Prop := {
  inv_kept : forall k v,
      lookup k existing = Some v -> lookup k (all_comments_data st) = Some v;
  inv_origin : forall k v,
      lookup k (all_comments_data st) = Some v -> origin existing seen k v;
  inv_saved : forall d k v,
      In d (saved st) -> lookup k d = Some v ->
      lookup k (all_comments_data st) = Some v
}.

Lemma origin_more (existing : dict comment) (seen : list (nat * target))
  (it : nat * target) (k : str) (v : list comment) :
  origin existing seen k v -> origin existing (seen ++ [it]) k v.
Proof.
  intros [H|(Hne & i & t & sub & Hin & H)]; [left; exact H|right].
  split; [exact Hne|]. exists i, t, sub.
  split; [apply in_or_app; left; exact Hin|exact H].
Qed.

Lemma data_invariant_step (existing : dict comment) (seen : list (nat * target))
  (st : progress comment) (it : nat * target) :
  invariant existing seen st ->
  invariant existing (seen ++ [it]) (visit_target scrape st it).
Proof.
  intros [Hkept Horigin Hsaved].
  assert (Hsame : invariant existing (seen ++ [it]) st).
  { split; [exact Hkept| |exact Hsaved].
    intros k v H. apply origin_more, Horigin, H. }
  destruct it as [i t]. unfold visit_target.
  destruct (subreddit t) as [[|c sub]|] eqn:Esub; try exact Hsame.
  fold (key_of t (c :: sub)). cbn [SKIP_ALREADY_SCRAPED andb].
  destruct (has_key (all_comments_data st) (key_of t (c :: sub))) eqn:Ekey;
    [exact Hsame|].
  apply has_key_lookup in Ekey.
  destruct (scrape i (c :: sub)) as [|x l] eqn:Escrape; [exact Hsame|].
  assert (Hother : forall k v,
             lookup k (all_comments_data st) = Some v ->
             str_eqb (key_of t (c :: sub)) k = false).
  { intros k v H. destruct (str_eqb (key_of t (c :: sub)) k) eqn:E;
      [|reflexivity].
    apply str_eqb_eq in E. subst k. congruence. }
  split; cbn [all_comments_data saved SAVE_INCREMENTALLY].
  - intros k v H. rewrite lookup_setitem.
    rewrite (Hother k v (Hkept k v H)). apply Hkept, H.
  - intros k v H. rewrite lookup_setitem in H.
    destruct (str_eqb (key_of t (c :: sub)) k) eqn:E.
    + apply str_eqb_eq in E. injection H as <-. right.
      split; [discriminate|]. exists i, t, (c :: sub).
      repeat split; auto. apply in_or_app. right. left. reflexivity.
    + apply origin_more, Horigin, H.
  - intros d k v Hd H. apply in_app_or in Hd. destruct Hd as [Hd|[<-|[]]].
    + rewrite lookup_setitem.
      rewrite (Hother k v (Hsaved d k v Hd H)). apply (Hsaved d k v Hd H).
    + exact H.
Qed.

Lemma data_invariant_loop (existing : dict comment) (l : list (nat * target)) :
  forall seen st,
    invariant existing seen st ->
    invariant existing (seen ++ l) (fold_left (visit_target scrape) l st).
Proof.
  induction l as [|it l IH]; intros seen st H; simpl.
  - rewrite app_nil_r. exact H.
  - replace (seen ++ it :: l) with ((seen ++ [it]) ++ l)
      by (rewrite <- app_assoc; reflexivity).
    apply IH, data_invariant_step, H.
Qed.

(** When the scraper runs (PRAW started, targets loaded): the last thing
    written to the output file holds every entry that was loaded from it,
    unchanged; every other entry of it is the non-empty result of scraping
    one of the targets, filed under that target's key; whatever an earlier
    save wrote is still there, unchanged; and the path of the file is
    returned exactly when the data is not empty. *)
Theorem run_scraper_only_adds (t : target) (ts : list target)
  (existing : dict comment) :
  exists final earlier,
    snd (run_scraper scrape true (Some (t :: ts)) existing)
    = earlier ++ [final]
    /\ (forall k v, lookup k existing = Some v -> lookup k final = Some v)
    /\ (forall k v, lookup k final = Some v ->
                    origin existing (numbered (t :: ts)) k v)
    /\ (forall d k v, In d earlier -> lookup k d = Some v ->
                      lookup k final = Some v)
    /\ (fst (run_scraper scrape true (Some (t :: ts)) existing) = true
        <-> final <> []).
Proof.
  unfold run_scraper. cbn [negb SAVE_INCREMENTALLY SKIP_ALREADY_SCRAPED orb].
  set (st := fold_left (visit_target scrape) (numbered (t :: ts))
                       (mkProgress existing [])).
  assert (Hinv : invariant existing (numbered (t :: ts)) st).
  { apply (@data_invariant_loop existing (numbered (t :: ts)) []
             (mkProgress existing [])).
    split; cbn [all_comments_data saved]; auto.
    - intros k v H. left. exact H.
    - intros d k v []. }
  destruct Hinv as [Hkept Horigin Hsaved].
  exists (all_comments_data st), (saved st). cbn [fst snd].
  repeat split; try assumption.
  - destruct (all_comments_data st); [discriminate|intros _; discriminate].
  - destruct (all_comments_data st); [contradiction|reflexivity].
Qed.

End Scraper.

Definition two_targets : list target :=
  [ {| college_name := Some (lit "IIT Delhi"); subreddit := Some (lit "iitd") |};
    {| college_name := None; subreddit := Some (lit "empty") |} ].

Definition toy_scrape (i : nat) (name : str) : list nat :=
  if str_eqb name (lit "iitd") then [7; 8] else [].

Example run_scraper_example :
  run_scraper toy_scrape true (Some two_targets) [(lit "NIT (r/nit)", [1])]
  = (true,
     [[(lit "NIT (r/nit)", [1]); (lit "IIT Delhi (r/iitd)", [7; 8])];
      [(lit "NIT (r/nit)", [1]); (lit "IIT Delhi (r/iitd)", [7; 8])]]).
Proof. vm_compute. reflexivity. Qed.

End RedditScraperSpec.
